(** * The Zeus ASIC driver (driver-zeus.c): model and verified properties

    The driver is embedded function by function.  C integers are [Z] with
    the wrap-around of their type written out, [double] values are IEEE-754
    binary64 numbers (the executable specification of [SpecFloat]), byte
    buffers are lists of [Z] in [0, 256), and the mutable board structure
    [ZEUS_INFO] is threaded through every call.  [None] stands for
    behaviour the C standard leaves undefined (a conversion out of range,
    an access outside a buffer, a division by zero); the loops that carry
    fuel are shown below never to use it up. *)

From Stdlib Require Import ZArith List Bool Lia String Ascii.
From Stdlib Require Import SpecFloat.
From stdpp Require Import base option list gmap.

Local Open Scope Z_scope.

(** ** Machine integers *)

Definition u8 (x : Z) : Z := x mod 2 ^ 8.
Definition u32 (x : Z) : Z := x mod 2 ^ 32.
Definition u64 (x : Z) : Z := x mod 2 ^ 64.

(** Division of two unsigned 64-bit values; a zero divisor traps. *)
Definition u64_div (a b : Z) : option Z :=
  if b =? 0 then None else Some (a / b).

Definition u64_rem (a b : Z) : option Z :=
  if b =? 0 then None else Some (a mod b).

Definition is_byte (b : Z) : Prop := 0 <= b < 256.

(** ** Utility functions *)

(** [rev]: the in-place reversal of the [l] bytes at [s].  [i] and [j] are
    [size_t]; [j] starts at [l - 1], which wraps for [l = 0].  An index
    outside the buffer is an out-of-bounds access.  The two indices close
    in on each other, so [S (length s)] rounds always suffice. *)
Fixpoint rev_loop (fuel : nat) (s : list Z) (i j : Z) : option (list Z) :=
  match fuel with
  | O => None
  | S fuel' =>
      if i <? j then
        t ← s !! Z.to_nat i;
        sj ← s !! Z.to_nat j;
        rev_loop fuel' (<[Z.to_nat j := t]> (<[Z.to_nat i := sj]> s))
                 (u64 (i + 1)) (u64 (j - 1))
      else Some s
  end.

Definition rev (s : list Z) (l : Z) : option (list Z) :=
  rev_loop (S (length s)) s 0 (u64 (l - 1)).

(** [log_2]: [value] is an [int], so the loop body runs at most 30 times. *)
Fixpoint log_2_loop (fuel : nat) (value x : Z) : Z :=
  match fuel with
  | O => x
  | S fuel' =>
      if 1 <? value then log_2_loop fuel' (Z.shiftr value 1) (x + 1) else x
  end.

Definition log_2 (value : Z) : Z := log_2_loop 32 value 0.

(** [chip_index]: the loop runs [bit_num] times (not at all when
    [bit_num <= 0]). *)
Fixpoint chip_index_loop (n : nat) (value newvalue : Z) : Z :=
  match n with
  | O => newvalue
  | S n' =>
      let newvalue := u32 (Z.shiftl newvalue 1) in
      let newvalue := u32 (newvalue + Z.land value 1) in
      chip_index_loop n' (Z.shiftr value 1) newvalue
  end.

Definition chip_index (value bit_num : Z) : Z :=
  let value := Z.shiftr (Z.land value 0x1ff80000) (29 - bit_num) in
  chip_index_loop (Z.to_nat bit_num) value 0.

(** [lowest_pow2]: [i] doubles from 1 and the loop stops at 1024, so ten
    rounds are all there are; [None] would mean the fuel ran out. *)
Fixpoint lowest_pow2_loop (fuel : nat) (min i : Z) : option Z :=
  if i <? 1024 then
    if min <=? i then Some i
    else match fuel with
         | O => None
         | S fuel' => lowest_pow2_loop fuel' min (i * 2)
         end
  else Some 1024.

Definition lowest_pow2 (min : Z) : Z :=
  default 1024 (lowest_pow2_loop 10 min 1).

(** ** IEEE-754 binary64: the C type [double] *)

Module Double.

Definition prec : Z := 53.
Definition emax : Z := 1024.

(** Conversion of an integer, rounding to nearest even. *)
Definition of_Z (z : Z) : spec_float := binary_normalize prec emax z 0 false.

Definition mul : spec_float -> spec_float -> spec_float := SFmul prec emax.
Definition div : spec_float -> spec_float -> spec_float := SFdiv prec emax.
Definition add : spec_float -> spec_float -> spec_float := SFadd prec emax.
Definition sub : spec_float -> spec_float -> spec_float := SFsub prec emax.

(** The integral part, rounding toward zero; infinities and NaN have none.
    [Z.shiftl] by a negative amount shifts right. *)
Definition trunc (x : spec_float) : option Z :=
  match x with
  | S754_zero _ => Some 0
  | S754_finite s m e => Some (cond_Zopp s (Z.shiftl (Zpos m) e))
  | _ => None
  end.

(** The largest integer not above [x]. *)
Definition floor (x : spec_float) : option Z :=
  match x with
  | S754_zero _ => Some 0
  | S754_finite s m e => Some (Z.shiftl (cond_Zopp s (Zpos m)) e)
  | _ => None
  end.

(** C conversion to an integer type with values [lo .. hi]: the value is
    truncated toward zero, and the behaviour is undefined when the result
    is not a value of the type. *)
Definition to_int (lo hi : Z) (x : spec_float) : option Z :=
  z ← trunc x;
  if (lo <=? z) && (z <=? hi) then Some z else None.

Definition to_u8 : spec_float -> option Z := to_int 0 (2 ^ 8 - 1).
Definition to_u32 : spec_float -> option Z := to_int 0 (2 ^ 32 - 1).
Definition to_u64 : spec_float -> option Z := to_int 0 (2 ^ 64 - 1).
Definition to_i64 : spec_float -> option Z := to_int (- 2 ^ 63) (2 ^ 63 - 1).

End Double.

(** ** What driver-zeus.h and the platform fix *)

Inductive byte_order := LittleEndian | BigEndian.

Record timeval := { tv_sec : Z; tv_usec : Z }.

(** The clock range, the chip limit and the baud rate are macros of
    driver-zeus.h; the byte order is the host's; [tdiff] is the host
    framework's difference of two timestamps in seconds. *)
Class ZeusHeader := {
  ZEUS_CLK_MIN : Z;
  ZEUS_CLK_MAX : Z;
  ZEUS_MAX_CHIPS : Z;
  ZEUS_IO_SPEED : Z;
  host_order : byte_order;
  tdiff : timeval -> timeval -> spec_float
}.

(** Modelled from the spec: the macro ZEUS_CHIP_CORES of driver-zeus.h; a
    chip has 8 cores. *)
Definition ZEUS_CHIP_CORES : Z := 8.

(** Modelled from the spec: the macro ZEUS_COMMAND_PKT_LEN of driver-zeus.h;
    a command packet has 84 bytes. *)
Definition ZEUS_COMMAND_PKT_LEN : Z := 84.

(** Modelled from the spec: the macro ZEUS_EVENT_PKT_LEN of driver-zeus.h;
    an event packet has 4 bytes. *)
Definition ZEUS_EVENT_PKT_LEN : Z := 4.

(** ** Data model *)

(** A unit of work of the host: the block header in [data] (the driver
    uses its first 80 bytes), the share difficulty and the flag the driver
    sets once the work has been written to the board. *)
Record work := {
  data : list Z;
  work_difficulty : spec_float;
  devflag : bool
}.

Definition set_devflag (b : bool) (w : work) : work :=
  {| data := data w; work_difficulty := work_difficulty w; devflag := b |}.

(** The board structure [struct ZEUS_INFO], with the fields the driver
    reads or writes.  [current_work] is the slot of the work in flight;
    [pipe] holds the bytes waiting in the wake-up pipe [pipefd]. *)
Record ZEUS_INFO := {
  device_fd : Z;
  baud : Z;
  cores_per_chip : Z;
  chips_count : Z;
  chips_count_max : Z;
  chips_bit_num : Z;
  chip_clk : Z;
  next_chip_clk : Z;
  freqcode : Z;
  golden_speed_per_core : Z;
  read_count : Z;
  work_timeout : timeval;
  workstart : timeval;
  workend : timeval;
  scanwork_time : timeval;
  current_work : option work;
  workdone : Z;
  nonce_count : gmap (Z * Z) Z;
  error_count : gmap (Z * Z) Z;
  pipe : list Z
}.

Definition set_device_fd (v : Z) (i : ZEUS_INFO) : ZEUS_INFO :=
  {| device_fd := v; baud := baud i; cores_per_chip := cores_per_chip i;
     chips_count := chips_count i; chips_count_max := chips_count_max i;
     chips_bit_num := chips_bit_num i; chip_clk := chip_clk i;
     next_chip_clk := next_chip_clk i; freqcode := freqcode i;
     golden_speed_per_core := golden_speed_per_core i;
     read_count := read_count i; work_timeout := work_timeout i;
     workstart := workstart i; workend := workend i;
     scanwork_time := scanwork_time i; current_work := current_work i;
     workdone := workdone i; nonce_count := nonce_count i;
     error_count := error_count i; pipe := pipe i |}.

Definition set_chip_clk (v : Z) (i : ZEUS_INFO) : ZEUS_INFO :=
  {| device_fd := device_fd i; baud := baud i;
     cores_per_chip := cores_per_chip i; chips_count := chips_count i;
     chips_count_max := chips_count_max i; chips_bit_num := chips_bit_num i;
     chip_clk := v; next_chip_clk := next_chip_clk i; freqcode := freqcode i;
     golden_speed_per_core := golden_speed_per_core i;
     read_count := read_count i; work_timeout := work_timeout i;
     workstart := workstart i; workend := workend i;
     scanwork_time := scanwork_time i; current_work := current_work i;
     workdone := workdone i; nonce_count := nonce_count i;
     error_count := error_count i; pipe := pipe i |}.

Definition set_next_chip_clk (v : Z) (i : ZEUS_INFO) : ZEUS_INFO :=
  {| device_fd := device_fd i; baud := baud i;
     cores_per_chip := cores_per_chip i; chips_count := chips_count i;
     chips_count_max := chips_count_max i; chips_bit_num := chips_bit_num i;
     chip_clk := chip_clk i; next_chip_clk := v; freqcode := freqcode i;
     golden_speed_per_core := golden_speed_per_core i;
     read_count := read_count i; work_timeout := work_timeout i;
     workstart := workstart i; workend := workend i;
     scanwork_time := scanwork_time i; current_work := current_work i;
     workdone := workdone i; nonce_count := nonce_count i;
     error_count := error_count i; pipe := pipe i |}.

Definition set_freqcode (v : Z) (i : ZEUS_INFO) : ZEUS_INFO :=
  {| device_fd := device_fd i; baud := baud i;
     cores_per_chip := cores_per_chip i; chips_count := chips_count i;
     chips_count_max := chips_count_max i; chips_bit_num := chips_bit_num i;
     chip_clk := chip_clk i; next_chip_clk := next_chip_clk i; freqcode := v;
     golden_speed_per_core := golden_speed_per_core i;
     read_count := read_count i; work_timeout := work_timeout i;
     workstart := workstart i; workend := workend i;
     scanwork_time := scanwork_time i; current_work := current_work i;
     workdone := workdone i; nonce_count := nonce_count i;
     error_count := error_count i; pipe := pipe i |}.

Definition set_workstart (v : timeval) (i : ZEUS_INFO) : ZEUS_INFO :=
  {| device_fd := device_fd i; baud := baud i;
     cores_per_chip := cores_per_chip i; chips_count := chips_count i;
     chips_count_max := chips_count_max i; chips_bit_num := chips_bit_num i;
     chip_clk := chip_clk i; next_chip_clk := next_chip_clk i;
     freqcode := freqcode i;
     golden_speed_per_core := golden_speed_per_core i;
     read_count := read_count i; work_timeout := work_timeout i;
     workstart := v; workend := workend i; scanwork_time := scanwork_time i;
     current_work := current_work i; workdone := workdone i;
     nonce_count := nonce_count i; error_count := error_count i;
     pipe := pipe i |}.

Definition set_workend (v : timeval) (i : ZEUS_INFO) : ZEUS_INFO :=
  {| device_fd := device_fd i; baud := baud i;
     cores_per_chip := cores_per_chip i; chips_count := chips_count i;
     chips_count_max := chips_count_max i; chips_bit_num := chips_bit_num i;
     chip_clk := chip_clk i; next_chip_clk := next_chip_clk i;
     freqcode := freqcode i;
     golden_speed_per_core := golden_speed_per_core i;
     read_count := read_count i; work_timeout := work_timeout i;
     workstart := workstart i; workend := v;
     scanwork_time := scanwork_time i; current_work := current_work i;
     workdone := workdone i; nonce_count := nonce_count i;
     error_count := error_count i; pipe := pipe i |}.

Definition set_scanwork_time (v : timeval) (i : ZEUS_INFO) : ZEUS_INFO :=
  {| device_fd := device_fd i; baud := baud i;
     cores_per_chip := cores_per_chip i; chips_count := chips_count i;
     chips_count_max := chips_count_max i; chips_bit_num := chips_bit_num i;
     chip_clk := chip_clk i; next_chip_clk := next_chip_clk i;
     freqcode := freqcode i;
     golden_speed_per_core := golden_speed_per_core i;
     read_count := read_count i; work_timeout := work_timeout i;
     workstart := workstart i; workend := workend i; scanwork_time := v;
     current_work := current_work i; workdone := workdone i;
     nonce_count := nonce_count i; error_count := error_count i;
     pipe := pipe i |}.

Definition set_current_work (v : option work) (i : ZEUS_INFO) : ZEUS_INFO :=
  {| device_fd := device_fd i; baud := baud i;
     cores_per_chip := cores_per_chip i; chips_count := chips_count i;
     chips_count_max := chips_count_max i; chips_bit_num := chips_bit_num i;
     chip_clk := chip_clk i; next_chip_clk := next_chip_clk i;
     freqcode := freqcode i;
     golden_speed_per_core := golden_speed_per_core i;
     read_count := read_count i; work_timeout := work_timeout i;
     workstart := workstart i; workend := workend i;
     scanwork_time := scanwork_time i; current_work := v;
     workdone := workdone i; nonce_count := nonce_count i;
     error_count := error_count i; pipe := pipe i |}.

Definition set_workdone (v : Z) (i : ZEUS_INFO) : ZEUS_INFO :=
  {| device_fd := device_fd i; baud := baud i;
     cores_per_chip := cores_per_chip i; chips_count := chips_count i;
     chips_count_max := chips_count_max i; chips_bit_num := chips_bit_num i;
     chip_clk := chip_clk i; next_chip_clk := next_chip_clk i;
     freqcode := freqcode i;
     golden_speed_per_core := golden_speed_per_core i;
     read_count := read_count i; work_timeout := work_timeout i;
     workstart := workstart i; workend := workend i;
     scanwork_time := scanwork_time i; current_work := current_work i;
     workdone := v; nonce_count := nonce_count i;
     error_count := error_count i; pipe := pipe i |}.

Definition set_nonce_count (v : gmap (Z * Z) Z) (i : ZEUS_INFO) : ZEUS_INFO :=
  {| device_fd := device_fd i; baud := baud i;
     cores_per_chip := cores_per_chip i; chips_count := chips_count i;
     chips_count_max := chips_count_max i; chips_bit_num := chips_bit_num i;
     chip_clk := chip_clk i; next_chip_clk := next_chip_clk i;
     freqcode := freqcode i;
     golden_speed_per_core := golden_speed_per_core i;
     read_count := read_count i; work_timeout := work_timeout i;
     workstart := workstart i; workend := workend i;
     scanwork_time := scanwork_time i; current_work := current_work i;
     workdone := workdone i; nonce_count := v; error_count := error_count i;
     pipe := pipe i |}.

Definition set_error_count (v : gmap (Z * Z) Z) (i : ZEUS_INFO) : ZEUS_INFO :=
  {| device_fd := device_fd i; baud := baud i;
     cores_per_chip := cores_per_chip i; chips_count := chips_count i;
     chips_count_max := chips_count_max i; chips_bit_num := chips_bit_num i;
     chip_clk := chip_clk i; next_chip_clk := next_chip_clk i;
     freqcode := freqcode i;
     golden_speed_per_core := golden_speed_per_core i;
     read_count := read_count i; work_timeout := work_timeout i;
     workstart := workstart i; workend := workend i;
     scanwork_time := scanwork_time i; current_work := current_work i;
     workdone := workdone i; nonce_count := nonce_count i; error_count := v;
     pipe := pipe i |}.

Definition set_pipe (v : list Z) (i : ZEUS_INFO) : ZEUS_INFO :=
  {| device_fd := device_fd i; baud := baud i;
     cores_per_chip := cores_per_chip i; chips_count := chips_count i;
     chips_count_max := chips_count_max i; chips_bit_num := chips_bit_num i;
     chip_clk := chip_clk i; next_chip_clk := next_chip_clk i;
     freqcode := freqcode i;
     golden_speed_per_core := golden_speed_per_core i;
     read_count := read_count i; work_timeout := work_timeout i;
     workstart := workstart i; workend := workend i;
     scanwork_time := scanwork_time i; current_work := current_work i;
     workdone := workdone i; nonce_count := nonce_count i;
     error_count := error_count i; pipe := v |}.

(** The host framework, as far as the driver uses it: [get_work] hands
    out the works of [queue] in order, [submit_nonce] records the nonce
    and returns the verdict [nonce_ok], [discard_work] and [free_work]
    release a work. *)
Record host := {
  queue : nat -> work;
  taken : nat;
  nonce_ok : work -> Z -> bool;
  submitted : list (work * Z);
  discarded : list work;
  freed : list work
}.

Definition get_work (h : host) : work * host :=
  (queue h (taken h),
   {| queue := queue h; taken := S (taken h); nonce_ok := nonce_ok h;
      submitted := submitted h; discarded := discarded h; freed := freed h |}).

Definition submit_nonce (h : host) (w : work) (nonce : Z) : bool * host :=
  (nonce_ok h w nonce,
   {| queue := queue h; taken := taken h; nonce_ok := nonce_ok h;
      submitted := submitted h ++ [(w, nonce)]; discarded := discarded h;
      freed := freed h |}).

Definition discard_work (w : work) (h : host) : host :=
  {| queue := queue h; taken := taken h; nonce_ok := nonce_ok h;
     submitted := submitted h; discarded := discarded h ++ [w];
     freed := freed h |}.

Definition free_work (w : work) (h : host) : host :=
  {| queue := queue h; taken := taken h; nonce_ok := nonce_ok h;
     submitted := submitted h; discarded := discarded h;
     freed := freed h ++ [w] |}.

(** The log messages the model keeps: the warnings of the clock clamp;
    in the detector the attempt and the failure to open the port, which
    are logged during the start-up phase, and the failed golden test; the
    failure of [zeus_reopen] to open the port; the two I/O errors and the
    corrupt nonce; and the messages with which the I/O loop gives up: the
    port that does not open again, the error of [poll] and the closed
    pipe.  Left out are the lines of the debug level and those behind
    [opt_zeus_debug], the lines in which [zeus_write] and [zeus_read]
    quote the error of the system call (the notice of their caller
    follows), and the two lines of the detector about a board it has
    found. *)
Inductive log_msg :=
| WarnClockTooHigh (clkfreq max : Z)
| WarnClockTooLow (clkfreq min : Z)
| ErrGoldenTestFailed (got expected : Z)
| NoticeReadError
| NoticeSendError
| InfoCorruptNonce
| InfoDetectAttempt
| ErrDetectOpenFailed
| ErrOpenFailed
| ErrReopenShutdown
| NoticePollError
| ErrPipeClosed.

(** The serial line.  [wire] collects the bytes the operating system has
    accepted from the driver.  The two scripts are the answers of the
    coming system calls: the return values of [write], and for [read]
    either the bytes that arrive or [None] for an error.  When a script
    is used up, [write] accepts everything and [read] times out with
    nothing. *)
Record serial := {
  wire : list Z;
  wr_script : list Z;
  rd_script : list (option (list Z))
}.

Definition os_write (fd : Z) (p : serial) (buf : list Z) (len : Z)
  : Z * serial :=
  if fd <? 0 then (-1, p) else
  match wr_script p with
  | [] =>
      (len, {| wire := wire p ++ take (Z.to_nat len) buf; wr_script := [];
               rd_script := rd_script p |})
  | r :: rest =>
      if r <? 0 then
        (-1, {| wire := wire p; wr_script := rest; rd_script := rd_script p |})
      else
        let n := Z.min r len in
        (n, {| wire := wire p ++ take (Z.to_nat n) buf; wr_script := rest;
               rd_script := rd_script p |})
  end.

Definition os_read (fd : Z) (p : serial) (len : Z) : Z * list Z * serial :=
  if fd <? 0 then (-1, [], p) else
  match rd_script p with
  | [] => (0, [], p)
  | None :: rest =>
      (-1, [], {| wire := wire p; wr_script := wr_script p; rd_script := rest |})
  | Some chunk :: rest =>
      let got := take (Z.to_nat len) chunk in
      let left := drop (Z.to_nat len) chunk in
      (Z.of_nat (length got), got,
       {| wire := wire p; wr_script := wr_script p;
          rd_script := match left with [] => rest | _ => Some left :: rest end |})
  end.

(** ** I/O helper functions *)

Definition zeus_reopen (new_fd : Z) (info : ZEUS_INFO)
  : bool * ZEUS_INFO * list log_msg :=
  let info := if device_fd info =? -1 then info else set_device_fd (-1) info in
  if new_fd <? 0 then (false, info, [ErrOpenFailed])
  else (true, set_device_fd new_fd info, []).

(** [zeus_write]: every round offers the whole buffer to [write] again.
    A round either uses up an entry of the script or, the script being
    empty, has everything accepted, so [S (length (wr_script p))] rounds
    suffice. *)
Fixpoint zeus_write_loop (fuel : nat) (fd : Z) (p : serial) (buf : list Z)
    (len total : Z) : option (Z * serial) :=
  if total <? len then
    match fuel with
    | O => None
    | S fuel' =>
        let '(ret, p') := os_write fd p buf len in
        if ret <? 0 then Some (-1, p')
        else zeus_write_loop fuel' fd p' buf len (total + ret)
    end
  else Some (total, p).

Definition zeus_write (fd : Z) (p : serial) (buf : list Z) (len : Z)
  : option (Z * serial) :=
  zeus_write_loop (S (length (wr_script p))) fd p buf len 0.

(** [zeus_read]: the bytes of a round are stored at [buf + total], and a
    round may ask for [len] bytes again, so storing past the end of [buf]
    is possible and undefined.  [rc] counts the empty reads. *)
Definition store (buf : list Z) (off : Z) (got : list Z) : list Z :=
  take (Z.to_nat off) buf ++ got ++ drop (Z.to_nat off + length got) buf.

Fixpoint zeus_read_loop (fuel : nat) (fd : Z) (p : serial) (buf : list Z)
    (len read_count total rc : Z) : option (Z * list Z * serial) :=
  if total <? len then
    match fuel with
    | O => None
    | S fuel' =>
        let '(ret, got, p') := os_read fd p len in
        if ret <? 0 then Some (-1, buf, p')
        else if (ret =? 0) && (read_count <=? rc + 1) then Some (total, buf, p')
        else if Z.of_nat (length buf) <? total + ret then None
        else zeus_read_loop fuel' fd p' (store buf total got) len read_count
               (total + ret) (if ret =? 0 then rc + 1 else rc)
    end
  else Some (total, buf, p).

Definition zeus_read (fd : Z) (p : serial) (buf : list Z) (len read_count : Z)
  : option (Z * list Z * serial) :=
  zeus_read_loop (S (Z.to_nat len + Z.to_nat read_count)) fd p buf len
    read_count 0 0.

(** ** Byte order *)

(** The value of a byte sequence read with the first byte highest
    ([be_int]) or lowest ([le_int]), and the [n] bytes of a value in the
    two orders. *)
Definition be_int (b : list Z) : Z := fold_left (fun acc x => acc * 256 + x) b 0.
Definition le_int (b : list Z) : Z := fold_right (fun x acc => x + 256 * acc) 0 b.

Fixpoint le_bytes (n : nat) (x : Z) : list Z :=
  match n with
  | O => []
  | S n' => x mod 256 :: le_bytes n' (x / 256)
  end.

Definition be_bytes (n : nat) (x : Z) : list Z := List.rev (le_bytes n x).

Section ByteOrder.
Context `{ZeusHeader}.

(** The four bytes of a [uint32_t] object as they lie in memory, and
    [memcpy(&nonce, bytes, 4)], which makes the bytes the object. *)
Definition store_u32 (x : Z) : list Z :=
  match host_order with
  | LittleEndian => le_bytes 4 x
  | BigEndian => be_bytes 4 x
  end.

Definition load_u32 (b : list Z) : Z :=
  match host_order with LittleEndian => le_int b | BigEndian => be_int b end.

(** [be32toh]: the bytes of the object, read as a big-endian number. *)
Definition be32toh (x : Z) : Z := be_int (store_u32 x).
End ByteOrder.

(** ** Detection and setup *)

(** The host framework's [hex2bin]: two hexadecimal digits make a byte. *)
Definition hex_digit (c : ascii) : Z :=
  let n := Z.of_nat (nat_of_ascii c) in
  if (48 <=? n) && (n <=? 57) then n - 48
  else if (97 <=? n) && (n <=? 102) then n - 87
  else if (65 <=? n) && (n <=? 70) then n - 55
  else 0.

Fixpoint hex2bin (s : string) : list Z :=
  match s with
  | String a (String b rest) => (hex_digit a * 16 + hex_digit b) :: hex2bin rest
  | _ => []
  end.

Definition golden_ob : string :=
  "55aa0001" ++
  "00038000063b0b1b028f32535e900609c15dc49a42b1d8492a6dd4f8f15295c989a1decf584a6aa93be26066d3185f55ef635b5865a7a79b7fa74121a6bb819da416328a9bd2f8cef72794bf02000000".

Definition golden_ob2 : string :=
  "55aa00ff" ++
  "c00278894532091be6f16a5381ad33619dacb9e6a4a6e79956aac97b51112bfb93dc450b8fc765181a344b6244d42d78625f5c39463bbfdc10405ff711dc1222dd065b015ac9c2c66e28da7202000000".

(** The command-line options the detector reads. *)
Record options := {
  opt_zeus_chips_count : Z;
  opt_zeus_chip_clk : Z;
  opt_zeus_nocheck_golden : bool
}.

(** What the surroundings answer during one detection: the flag
    [initial_startup_phase] of the process, the descriptor
    [serial_open_ex] returns, the two timestamps taken around the golden
    test, whether the two calls of [calloc] succeed, and whether
    [add_cgpu] accepts the board. *)
Record detect_env := {
  initial_startup_phase : bool;
  open_fd : Z;
  tv_start : timeval;
  tv_finish : timeval;
  calloc_cgpu_ok : bool;
  calloc_info_ok : bool;
  add_cgpu_ok : bool
}.

(** [DetectFalse] and [DetectTrue] are the two return values; [DetectQuit]
    is a call of [quit], which ends the process. *)
Inductive detect_result :=
| DetectFalse
| DetectQuit
| DetectTrue (info : ZEUS_INFO).

(** A product of two [int]s; overflow is undefined. *)
Definition int_mul (a b : Z) : option Z :=
  let r := a * b in
  if (- 2 ^ 31 <=? r) && (r <? 2 ^ 31) then Some r else None.

Section Detection.
Context `{ZeusHeader}.

Definition zeus_clk_to_freqcode (clkfreq : Z) : list log_msg * option Z :=
  let '(log1, clkfreq) :=
    if ZEUS_CLK_MAX <? clkfreq
    then ([WarnClockTooHigh clkfreq ZEUS_CLK_MAX], ZEUS_CLK_MAX)
    else ([], clkfreq) in
  let '(log2, clkfreq) :=
    if clkfreq <? ZEUS_CLK_MIN
    then ([WarnClockTooLow clkfreq ZEUS_CLK_MIN], ZEUS_CLK_MIN)
    else ([], clkfreq) in
  (log1 ++ log2,
   Double.to_u8
     (Double.div (Double.mul (Double.of_Z clkfreq) (Double.of_Z 2))
                 (Double.of_Z 3))).

(** [golden_nonce_val], the constant the golden nonce is compared with. *)
Definition golden_nonce_val : Z := be32toh 0x268d0300.

(** A detection packet: the decoded payload with the four header bytes
    overwritten. *)
Definition detect_pkt (payload : string) (code : Z) : list Z :=
  <[3%nat := 0x01]> (<[2%nat := 0x00]>
    (<[1%nat := u8 (Z.lnot code)]> (<[0%nat := code]>
      (take (Z.to_nat ZEUS_COMMAND_PKT_LEN) (hex2bin payload))))).

(** The loop that writes a packet twice. *)
Definition write_twice (fd : Z) (p : serial) (ob_bin : list Z)
  : option serial :=
  '(_, p) ← zeus_write fd p ob_bin ZEUS_COMMAND_PKT_LEN;
  '(_, p) ← zeus_write fd p ob_bin ZEUS_COMMAND_PKT_LEN;
  Some p.

(** The board structure as [calloc] and the assignments of the detector
    leave it. *)
Definition new_info (opts : options) (chips_count_max fc g sec usec rc : Z)
  : ZEUS_INFO :=
  {| device_fd := -1; baud := ZEUS_IO_SPEED;
     cores_per_chip := ZEUS_CHIP_CORES;
     chips_count := opt_zeus_chips_count opts;
     chips_count_max := chips_count_max;
     chips_bit_num := log_2 chips_count_max;
     chip_clk := opt_zeus_chip_clk opts; next_chip_clk := -1;
     freqcode := fc; golden_speed_per_core := g; read_count := rc;
     work_timeout := {| tv_sec := sec; tv_usec := usec |};
     workstart := {| tv_sec := 0; tv_usec := 0 |};
     workend := {| tv_sec := 0; tv_usec := 0 |};
     scanwork_time := {| tv_sec := 0; tv_usec := 0 |};
     current_work := None; workdone := 0; nonce_count := ∅;
     error_count := ∅; pipe := [] |}.

(** The part of [zeus_detect_one] after the calibration: the two
    allocations, whose failure ends the process, then the fields of the
    board. *)
Definition detect_register (opts : options) (env : detect_env)
    (chips_count_max fc g : Z) : option detect_result :=
  if negb (calloc_cgpu_ok env) then Some DetectQuit else
  if negb (calloc_info_ok env) then Some DetectQuit else
  let cores_per_chip := ZEUS_CHIP_CORES in
  let chips_count := opt_zeus_chips_count opts in
  let d := u64 (u64 (g * u64 cores_per_chip) * u64 chips_count) in
  sec ← u64_div 4294967296 d;
  q ← u64_div (4294967296 * 1000000) d;
  usec ← u64_rem q 1000000;
  cc ← int_mul cores_per_chip chips_count_max;
  rc ← u64_div (4294967296 * 10) (u64 (u64 (u64 cc * g) * 2));
  let read_count := u32 rc in
  let read_count := u32 (read_count * 3) / 4 in
  if negb (Z.land chips_count_max (chips_count_max - 1) =? 0)
  then Some DetectQuit
  else if negb (add_cgpu_ok env) then Some DetectQuit
  else Some (DetectTrue
               (new_info opts chips_count_max fc g sec usec read_count)).

(** [zeus_detect_one].  The arguments are the options, the answers of
    the surroundings, the process-wide [opt_zeus_chips_count_max] and
    the serial line; the result comes with the new value of
    [opt_zeus_chips_count_max], the serial line and the log. *)
Definition zeus_detect_one (opts : options) (env : detect_env)
    (opt_zeus_chips_count_max : Z) (p : serial)
  : option (detect_result * Z * serial * list log_msg) :=
  let chips_count := opt_zeus_chips_count opts in
  let opt_zeus_chips_count_max :=
    if opt_zeus_chips_count_max <? chips_count
    then lowest_pow2 chips_count else opt_zeus_chips_count_max in
  let chips_count_max := opt_zeus_chips_count_max in
  let log0 := if initial_startup_phase env then [InfoDetectAttempt] else [] in
  let fd := open_fd env in
  if fd =? -1 then
    Some (DetectFalse, opt_zeus_chips_count_max, p,
          log0 ++ if initial_startup_phase env then [ErrDetectOpenFailed]
                  else [])
  else
  let '(log1, fc) := zeus_clk_to_freqcode (opt_zeus_chip_clk opts) in
  freqcode ← fc;
  let '(log2, fci) :=
    if 150 <? opt_zeus_chip_clk opts
    then zeus_clk_to_freqcode 165 else zeus_clk_to_freqcode 139 in
  freqcode_init ← fci;
  let log := log0 ++ log1 ++ log2 in
  p ← write_twice fd p (detect_pkt golden_ob2 freqcode_init);
  p ← write_twice fd p (detect_pkt golden_ob2 freqcode);
  if negb (opt_zeus_nocheck_golden opts) then
    '(_, p) ← zeus_write fd p (detect_pkt golden_ob freqcode)
                ZEUS_COMMAND_PKT_LEN;
    '(_, nonce_bin, p) ← zeus_read fd p [0; 0; 0; 0] ZEUS_EVENT_PKT_LEN 100;
    let nonce := be32toh (load_u32 nonce_bin) in
    if negb (nonce =? golden_nonce_val) then
      Some (DetectFalse, opt_zeus_chips_count_max, p,
            log ++ [ErrGoldenTestFailed nonce golden_nonce_val])
    else
      g ← Double.to_u64
            (Double.div (Double.of_Z 0xd26)
                        (tdiff (tv_finish env) (tv_start env)));
      r ← detect_register opts env chips_count_max freqcode g;
      Some (r, opt_zeus_chips_count_max, p, log)
  else
    g ← Double.to_u64
          (Double.div
             (Double.mul
                (Double.div
                   (Double.mul (Double.of_Z (opt_zeus_chip_clk opts))
                               (Double.of_Z 2))
                   (Double.of_Z 3))
                (Double.of_Z 1024))
             (Double.of_Z 8));
    r ← detect_register opts env chips_count_max freqcode g;
    Some (r, opt_zeus_chips_count_max, p, log).

End Detection.

(** ** Host <-> ASIC protocol implementation *)

Definition zeus_purge_work (info : ZEUS_INFO) (h : host) : ZEUS_INFO * host :=
  match current_work info with
  | Some w => (set_current_work None info, free_work w h)
  | None => (info, h)
  end.

(** A counter of the tables [nonce_count] and [error_count], one step
    up. *)
Definition count_up (k : Z * Z) (m : gmap (Z * Z) Z) : gmap (Z * Z) Z :=
  <[k := default 0 (m !! k) + 1]> m.

(** [zeus_check_need_work]: [get_work] is called without the lock;
    [other] is what the other threads have done to the board by the time
    the lock is taken. *)
Definition zeus_check_need_work (other : ZEUS_INFO -> ZEUS_INFO)
    (info : ZEUS_INFO) (h : host) : bool * ZEUS_INFO * host :=
  match current_work info with
  | Some _ => (false, info, h)
  | None =>
      let '(work, h) := get_work h in
      let info := other info in
      match current_work info with
      | None =>
          (true, set_current_work (Some (set_devflag false work)) info, h)
      | Some _ => (false, info, discard_work work h)
      end
  end.

Section Protocol.
Context `{ZeusHeader}.

(** The core index of a nonce: its three highest bits. *)
Definition nonce_core (nonce : Z) : Z :=
  Z.shiftr (Z.land nonce 0xe0000000) 29.

(** [zeus_read_response]; [evtpkt] is the local array as it is found,
    its contents indeterminate. *)
Definition zeus_read_response (evtpkt : list Z) (info : ZEUS_INFO)
    (h : host) (p : serial)
  : option (bool * ZEUS_INFO * host * serial * list log_msg) :=
  '(ret, evtpkt, p) ←
     zeus_read (device_fd info) p evtpkt ZEUS_EVENT_PKT_LEN 1;
  if ret <=? 0 then
    let '(info, h) := zeus_purge_work info h in
    Some (false, set_device_fd (-1) info, h, p, [NoticeReadError])
  else
    let nonce := be32toh (load_u32 evtpkt) in
    match current_work info with
    | None => Some (true, info, h, p, [])
    | Some w =>
        let '(valid, h) := submit_nonce h w nonce in
        let info := set_workdone (workdone info + 1) info in
        let chip := chip_index nonce (chips_bit_num info) in
        let core := nonce_core nonce in
        if (chip <? ZEUS_MAX_CHIPS) && (core <? ZEUS_CHIP_CORES) then
          let info :=
            set_nonce_count (count_up (chip, core) (nonce_count info)) info in
          let info :=
            if negb valid
            then set_error_count (count_up (chip, core) (error_count info))
                   info
            else info in
          Some (true, info, h, p, [])
        else Some (true, info, h, p, [InfoCorruptNonce])
    end.

(** The command packet [zeus_send_work] builds in [cmdpkt]: the
    conversion of the difficulty to [uint32_t], the four header bytes,
    the copy of 80 bytes of [work->data] and their reversal in place. *)
Definition zeus_cmdpkt (info : ZEUS_INFO) (w : work) : option (list Z) :=
  diff ← Double.to_u32 (work_difficulty w);
  let diff := if diff <? 1 then 1 else diff in
  let diff_code := 0xffff / diff in
  if Z.of_nat (length (data w)) <? 80 then None else
  let cmdpkt :=
    [u8 (freqcode info); u8 (Z.lnot (freqcode info));
     u8 (Z.shiftr (Z.land diff_code 0xff00) 8); u8 (Z.land diff_code 0x00ff)]
    ++ take 80 (data w) in
  body ← rev (drop 4 cmdpkt) 80;
  Some (take 4 cmdpkt ++ body).

Definition zeus_send_work (info : ZEUS_INFO) (w : work) (h : host)
    (p : serial)
  : option (bool * ZEUS_INFO * host * serial * list log_msg) :=
  cmdpkt ← zeus_cmdpkt info w;
  '(ret, p) ← zeus_write (device_fd info) p cmdpkt ZEUS_COMMAND_PKT_LEN;
  if ret <? 0 then
    let '(info, h) := zeus_purge_work info h in
    Some (false, set_device_fd (-1) info, h, p, [NoticeSendError])
  else Some (true, info, h, p, []).

End Protocol.

(** ** The C library's [strcasecmp] and [atoi] *)

Definition tolower (c : ascii) : ascii :=
  let n := nat_of_ascii c in
  if (65 <=? n)%nat && (n <=? 90)%nat then ascii_of_nat (n + 32) else c.

Fixpoint strlower (s : string) : string :=
  match s with
  | EmptyString => EmptyString
  | String c r => String (tolower c) (strlower r)
  end.

(** [strcasecmp a b == 0]. *)
Definition strcaseeq (a b : string) : bool :=
  String.eqb (strlower a) (strlower b).

Definition isspace (c : ascii) : bool :=
  let n := nat_of_ascii c in
  (n =? 32)%nat || ((9 <=? n)%nat && (n <=? 13)%nat).

Definition isdigit (c : ascii) : bool :=
  let n := nat_of_ascii c in (48 <=? n)%nat && (n <=? 57)%nat.

Fixpoint skip_space (s : string) : string :=
  match s with
  | String c r => if isspace c then skip_space r else s
  | EmptyString => s
  end.

Fixpoint atoi_digits (s : string) (acc : Z) : Z :=
  match s with
  | String c r =>
      if isdigit c
      then atoi_digits r (acc * 10 + (Z.of_nat (nat_of_ascii c) - 48))
      else acc
  | EmptyString => acc
  end.

(** [atoi]: white space, a sign, digits; a value that is no [int] is
    undefined. *)
Definition atoi (s : string) : option Z :=
  let v :=
    match skip_space s with
    | String "-" r => - atoi_digits r 0
    | String "+" r => atoi_digits r 0
    | r => atoi_digits r 0
    end in
  if (- 2 ^ 31 <=? v) && (v <? 2 ^ 31) then Some v else None.

(** ** CGMiner interface functions *)

(** The text [zeus_set_device] leaves in [replybuf]. *)
Inductive reply :=
| ReplyHelp (min max : Z)
| ReplyMissingFreq
| ReplyInvalidFreq (setting : string) (min max : Z)
| ReplyMissingBool
| ReplyNotAborting
| ReplyUnknownOption (name : string).

(** The byte [notify_io_thread] writes into the pipe. *)
Definition tickle : Z := 87.

Definition notify_io_thread (info : ZEUS_INFO) : ZEUS_INFO :=
  set_pipe (pipe info ++ [tickle]) info.

Definition zeus_flush_work (info : ZEUS_INFO) (h : host) : ZEUS_INFO * host :=
  let '(info, h) := zeus_purge_work info h in
  (notify_io_thread info, h).

Section Interface.
Context `{ZeusHeader}.

(** [zeus_scanwork]; [now] is the time [cgtime] reads. *)
Definition zeus_scanwork (now : timeval) (info : ZEUS_INFO)
  : option (Z * ZEUS_INFO) :=
  let old_scanwork_time := scanwork_time info in
  let info := set_scanwork_time now info in
  let elapsed_s := tdiff (scanwork_time info) old_scanwork_time in
  estimate_hashes ←
    Double.to_i64
      (Double.mul
         (Double.mul
            (Double.mul elapsed_s (Double.of_Z (golden_speed_per_core info)))
            (Double.of_Z (cores_per_chip info)))
         (Double.of_Z (chips_count info)));
  let estimate_hashes :=
    if 0xffffffff <? estimate_hashes then 0xffffffff else estimate_hashes in
  Some (estimate_hashes, info).

(** [zeus_set_device]: the result is the reply ([None] for the null
    pointer of a setting that was accepted), the board, the host and
    the warnings logged. *)
Definition zeus_set_device (info : ZEUS_INFO) (h : host) (name : string)
    (setting : option string)
  : option (option reply * ZEUS_INFO * host * list log_msg) :=
  let missing :=
    match setting with
    | None | Some EmptyString => true
    | _ => false
    end in
  if strcaseeq name "help" then
    Some (Some (ReplyHelp ZEUS_CLK_MIN ZEUS_CLK_MAX), info, h, [])
  else if strcaseeq name "freq" then
    if missing then Some (Some ReplyMissingFreq, info, h, []) else
    val ← atoi (default EmptyString setting);
    if (val <? ZEUS_CLK_MIN) || (ZEUS_CLK_MAX <? val) then
      Some (Some (ReplyInvalidFreq (default EmptyString setting)
                    ZEUS_CLK_MIN ZEUS_CLK_MAX), info, h, [])
    else
      let info := set_next_chip_clk val info in
      let '(lg, fc) := zeus_clk_to_freqcode val in
      fc ← fc;
      Some (None, set_freqcode fc info, h, lg)
  else if strcaseeq name "abortwork" then
    if missing then Some (Some ReplyMissingBool, info, h, []) else
    if negb (strcaseeq (default EmptyString setting) "true") then
      Some (Some ReplyNotAborting, info, h, [])
    else
      let '(info, h) := zeus_flush_work info h in
      Some (None, info, h, [])
  else Some (Some (ReplyUnknownOption name), info, h, []).

End Interface.

(** ** The I/O thread *)

(** What [poll] returns: an error ([eintr] for [EINTR]), a timeout, or
    the events of the device and of the pipe. *)
Inductive poll_result :=
| PollFailed (eintr : bool)
| PollTimeout
| PollReady (dev_err dev_in pipe_in : bool).

(** What the surroundings answer during one round of the loop. *)
Record io_env := {
  io_open_fd : Z;                      (* [zeus_open] at the top of the loop *)
  io_other : ZEUS_INFO -> ZEUS_INFO;   (* the other threads during [get_work] *)
  io_now : timeval;                    (* [cgtime] after the transmission *)
  io_poll : poll_result;
  io_reopen_fd : Z;                    (* [zeus_open] after a device error *)
  io_workend : timeval;                (* [cgtime] before the response is read *)
  io_evtpkt : list Z                   (* [evtpkt] as it is found *)
}.

(** The board with its surroundings.  [drv_sent] counts the works that
    have been transmitted; the driver does not keep this number. *)
Record driver := {
  drv_info : ZEUS_INFO;
  drv_host : host;
  drv_port : serial;
  drv_log : list log_msg;
  drv_shutdown : bool;
  drv_sent : nat
}.

Inductive send_outcome := SendNothing | SendDone | SendFailed.

(** [flush_fd] on the pipe: up to ten bytes are read and dropped. *)
Definition flush_fd (info : ZEUS_INFO) : Z * ZEUS_INFO :=
  (Z.of_nat (length (take 10 (pipe info))), set_pipe (drop 10 (pipe info)) info).

Section IoThread.
Context `{ZeusHeader}.

(** The transmission of a work that has not been sent: on success the
    work is flagged, the start is stamped and a pending clock becomes
    the active one. *)
Definition io_send (now : timeval) (info : ZEUS_INFO) (h : host)
    (p : serial)
  : option (send_outcome * ZEUS_INFO * host * serial * list log_msg) :=
  match current_work info with
  | Some w =>
      if negb (devflag w) then
        '(ok, info, h, p, lg) ← zeus_send_work info w h p;
        if ok : bool then
          let info :=
            set_current_work (set_devflag true <$> current_work info) info in
          let info := set_workstart now info in
          let info :=
            if negb (next_chip_clk info =? -1)
            then set_next_chip_clk (-1)
                   (set_chip_clk (next_chip_clk info) info)
            else info in
          Some (SendDone, info, h, p, lg)
        else Some (SendFailed, info, h, p, lg)
      else Some (SendNothing, info, h, p, [])
  | None => Some (SendNothing, info, h, p, [])
  end.

(** The events of a [poll] that returned a positive number. *)
Definition io_events (e : io_env) (dev_err dev_in pipe_in : bool)
    (info : ZEUS_INFO) (h : host) (p : serial)
  : option (ZEUS_INFO * host * serial * list log_msg * bool) :=
  if dev_err then
    let '(ok, info, lg) := zeus_reopen (io_reopen_fd e) info in
    Some (info, h, p, if ok then lg else lg ++ [ErrReopenShutdown], negb ok)
  else
    '(info, h, p, lg) ←
       (if dev_in then
          '(_, info, h, p, lg) ←
             zeus_read_response (io_evtpkt e)
               (set_workend (io_workend e) info) h p;
          Some (info, h, p, lg)
        else Some (info, h, p, []));
    if pipe_in then
      let '(n, info) := flush_fd info in
      Some (info, h, p, if n =? 0 then lg ++ [ErrPipeClosed] else lg, n =? 0)
    else Some (info, h, p, lg, false).

(** One round of the loop of [zeus_io_thread]. *)
Definition zeus_io_round (e : io_env) (d : driver) : option driver :=
  if drv_shutdown d then Some d else
  let info := drv_info d in
  let '(opened, info, lg0) :=
    if device_fd info =? -1 then zeus_reopen (io_open_fd e) info
    else (true, info, []) in
  if negb opened then
    Some {| drv_info := info; drv_host := drv_host d; drv_port := drv_port d;
            drv_log := drv_log d ++ lg0 ++ [ErrReopenShutdown];
            drv_shutdown := true; drv_sent := drv_sent d |}
  else
  let '(_, info, h) := zeus_check_need_work (io_other e) info (drv_host d) in
  '(o, info, h, p, lg) ← io_send (io_now e) info h (drv_port d);
  let lg := drv_log d ++ lg0 ++ lg in
  match o : send_outcome with
  | SendFailed =>
      Some {| drv_info := info; drv_host := h; drv_port := p; drv_log := lg;
              drv_shutdown := false; drv_sent := drv_sent d |}
  | _ =>
      let sent :=
        match o with SendDone => S (drv_sent d) | _ => drv_sent d end in
      match io_poll e with
      | PollFailed eintr =>
          Some {| drv_info := info; drv_host := h; drv_port := p;
                  drv_log := if eintr then lg else lg ++ [NoticePollError];
                  drv_shutdown := negb eintr; drv_sent := sent |}
      | PollTimeout =>
          let '(info, h) := zeus_purge_work info h in
          Some {| drv_info := info; drv_host := h; drv_port := p;
                  drv_log := lg; drv_shutdown := false; drv_sent := sent |}
      | PollReady dev_err dev_in pipe_in =>
          '(info, h, p, lg', stop) ←
             io_events e dev_err dev_in pipe_in info h p;
          Some {| drv_info := info; drv_host := h; drv_port := p;
                  drv_log := lg ++ lg'; drv_shutdown := stop;
                  drv_sent := sent |}
      end
  end.

(** ** The driver as the host sees it: calls in any order *)

Inductive op :=
| OpIoRound (e : io_env)
| OpScanwork (now : timeval)
| OpFlushWork
| OpSetDevice (name : string) (setting : option string).

Definition with_info (d : driver) (info : ZEUS_INFO) (h : host)
    (lg : list log_msg) : driver :=
  {| drv_info := info; drv_host := h; drv_port := drv_port d;
     drv_log := drv_log d ++ lg; drv_shutdown := drv_shutdown d;
     drv_sent := drv_sent d |}.

Definition step (o : op) (d : driver) : option driver :=
  match o with
  | OpIoRound e => zeus_io_round e d
  | OpScanwork now =>
      '(_, info) ← zeus_scanwork now (drv_info d);
      Some (with_info d info (drv_host d) [])
  | OpFlushWork =>
      let '(info, h) := zeus_flush_work (drv_info d) (drv_host d) in
      Some (with_info d info h [])
  | OpSetDevice name setting =>
      '(_, info, h, lg) ←
         zeus_set_device (drv_info d) (drv_host d) name setting;
      Some (with_info d info h lg)
  end.

Fixpoint run (ops : list op) (d : driver) : option driver :=
  match ops with
  | [] => Some d
  | o :: ops => d ← step o d; run ops d
  end.

End IoThread.

(** ** Reference definitions, written from the specification, and
    predicates of the statements *)

(** The [B]-bit reversal of [x]: bit [k] of [x] weighs [2 ^ (B - 1 - k)]. *)
Definition reverse_bits (B : nat) (x : Z) : Z :=
  foldr Z.add 0
    (map (fun k : nat =>
            if Z.testbit x (Z.of_nat k) then 2 ^ Z.of_nat (B - 1 - k) else 0)
         (seq 0 B)).

(** The chip index as the specification words it: the 10-bit field at bit
    19, cut down to its top [B] bits, bit-reversed. *)
Definition spec_chip_index (N B : Z) : Z :=
  reverse_bits (Z.to_nat B) (Z.shiftr (Z.land (Z.shiftr N 19) 0x3FF) (10 - B)).

(** The product [elapsed_s * golden_speed_per_core * cores_per_chip *
    chips_count] as C computes it: in [double], from left to right. *)
Definition estimate_product `{ZeusHeader} (now : timeval) (info : ZEUS_INFO)
  : spec_float :=
  Double.mul
    (Double.mul
       (Double.mul (tdiff now (scanwork_time info))
                   (Double.of_Z (golden_speed_per_core info)))
       (Double.of_Z (cores_per_chip info)))
    (Double.of_Z (chips_count info)).

(** The two clock fields of the board, and calls that leave them alone:
    rounds of the I/O loop during which the other threads do not touch
    them, and every call but [set_device] with the option [freq]. *)
Definition clocks (info : ZEUS_INFO) : Z * Z :=
  (chip_clk info, next_chip_clk info).

Definition keeps_clocks (f : ZEUS_INFO -> ZEUS_INFO) : Prop :=
  forall info, clocks (f info) = clocks info.

Definition no_freq_change (o : op) : Prop :=
  match o with
  | OpIoRound e => keeps_clocks (io_other e)
  | OpSetDevice name _ => strcaseeq name "freq" = false
  | _ => True
  end.

(** The values the process-wide [opt_zeus_chips_count_max] can take: it
    starts at 1, and a detection with [C] declared chips replaces it by
    [lowest_pow2 C] when [C] is larger. *)
Inductive max_reachable : Z -> Prop :=
| max_initial : max_reachable 1
| max_detected G C :
    max_reachable G ->
    max_reachable (if G <? C then lowest_pow2 C else G).

(** [M] is a power of two. *)
Definition is_pow2 (M : Z) : Prop := exists k, 0 <= k /\ M = 2 ^ k.

(** When the line takes a whole buffer in one [write]. *)
Definition accepts_whole (p : serial) (len : Z) : Prop :=
  match wr_script p with [] => True | r :: _ => len <= r end.

(** Whatever arrives on the line is bytes. *)
Definition line_bytes (p : serial) : Prop :=
  Forall (fun o => match o with Some c => Forall is_byte c | None => True end)
         (rd_script p).

(** The result of a detection and the board it registered. *)
Definition detect_outcome
    (r : option (detect_result * Z * serial * list log_msg))
  : option detect_result :=
  (fun '(x, _, _, _) => x) <$> r.

Definition detected_board
    (r : option (detect_result * Z * serial * list log_msg))
  : option ZEUS_INFO :=
  match r with
  | Some (DetectTrue info, _, _, _) => Some info
  | _ => None
  end.

(** ** A concrete header, for evaluating the model *)

(** The clock range 2..382 MHz, 1024 chips, 115200 baud, a little-endian
    host, and the difference of two timestamps computed as
    [sec + usec / 1000000.0]. *)
Definition tdiff_usec (e s : timeval) : spec_float :=
  Double.add (Double.of_Z (tv_sec e - tv_sec s))
             (Double.div (Double.of_Z (tv_usec e - tv_usec s))
                         (Double.of_Z 1000000)).

Definition header_le : ZeusHeader :=
  {| ZEUS_CLK_MIN := 2; ZEUS_CLK_MAX := 382; ZEUS_MAX_CHIPS := 1024;
     ZEUS_IO_SPEED := 115200; host_order := LittleEndian;
     tdiff := tdiff_usec |}.

Definition header_be : ZeusHeader :=
  {| ZEUS_CLK_MIN := 2; ZEUS_CLK_MAX := 382; ZEUS_MAX_CHIPS := 1024;
     ZEUS_IO_SPEED := 115200; host_order := BigEndian;
     tdiff := tdiff_usec |}.

(** The same little-endian header with room for four chips only. *)
Definition header_four : ZeusHeader :=
  {| ZEUS_CLK_MIN := 2; ZEUS_CLK_MAX := 382; ZEUS_MAX_CHIPS := 4;
     ZEUS_IO_SPEED := 115200; host_order := LittleEndian;
     tdiff := tdiff_usec |}.

(** A board as a detection leaves it (six chips at 328 MHz), a work, a
    host that accepts every nonce and a quiet serial line. *)
Definition sample_opts : options :=
  {| opt_zeus_chips_count := 6; opt_zeus_chip_clk := 328;
     opt_zeus_nocheck_golden := false |}.

Definition sample_info : ZEUS_INFO :=
  @new_info header_le sample_opts 8 218 67320 1329 151594 3738.

Definition sample_work : work :=
  {| data := seqZ 0 128; work_difficulty := Double.of_Z 16; devflag := false |}.

Definition sample_host : host :=
  {| queue := fun _ => sample_work; taken := 0; nonce_ok := fun _ _ => true;
     submitted := []; discarded := []; freed := [] |}.

Definition sample_port : serial :=
  {| wire := []; wr_script := []; rd_script := [] |}.

(** A detection in which the port opens and the golden nonce arrives
    50 ms after the test packet. *)
Definition sample_env : detect_env :=
  {| initial_startup_phase := true; open_fd := 5;
     tv_start := {| tv_sec := 10; tv_usec := 0 |};
     tv_finish := {| tv_sec := 10; tv_usec := 50000 |};
     calloc_cgpu_ok := true; calloc_info_ok := true; add_cgpu_ok := true |}.

(** The same detection when the port does not open, and when [add_cgpu]
    refuses the board. *)
Definition closed_env : detect_env :=
  {| initial_startup_phase := true; open_fd := -1;
     tv_start := tv_start sample_env; tv_finish := tv_finish sample_env;
     calloc_cgpu_ok := true; calloc_info_ok := true; add_cgpu_ok := true |}.

Definition refusing_env : detect_env :=
  {| initial_startup_phase := true; open_fd := 5;
     tv_start := tv_start sample_env; tv_finish := tv_finish sample_env;
     calloc_cgpu_ok := true; calloc_info_ok := true; add_cgpu_ok := false |}.

Definition answering (bytes : list Z) : serial :=
  {| wire := []; wr_script := []; rd_script := [Some bytes] |}.

(** A round of the I/O loop in which the port opens, nobody else touches
    the board and the board stays silent until the timeout. *)
Definition quiet_round : io_env :=
  {| io_open_fd := 5; io_other := fun info => info;
     io_now := {| tv_sec := 20; tv_usec := 0 |}; io_poll := PollTimeout;
     io_reopen_fd := 5; io_workend := {| tv_sec := 21; tv_usec := 0 |};
     io_evtpkt := [0; 0; 0; 0] |}.

Definition driver_of (info : ZEUS_INFO) : driver :=
  {| drv_info := info; drv_host := sample_host; drv_port := sample_port;
     drv_log := []; drv_shutdown := false; drv_sent := 0 |}.

(** The bytes that arrive on the line before the next read error. *)
Fixpoint incoming_of (s : list (option (list Z))) : list Z :=
  match s with
  | Some chunk :: rest => chunk ++ incoming_of rest
  | _ => []
  end.

Definition incoming (p : serial) : list Z := incoming_of (rd_script p).

(** The sample board with its port open and the sample work in the
    slot, not yet sent. *)
Definition working_info : ZEUS_INFO :=
  set_device_fd 5 (set_current_work (Some sample_work) sample_info).

(** ** Predicates of the statements about the I/O loop *)

(** The slot is settled: it is empty or holds a work that has been
    transmitted. *)
Definition slot_settled (info : ZEUS_INFO) : Prop :=
  match current_work info with
  | Some w => devflag w = true
  | None => True
  end.

(** The number of works in the slot. *)
Definition held (info : ZEUS_INFO) : nat :=
  match current_work info with Some _ => 1 | None => 0 end.

(** Every work taken from the host has been freed or discarded, or is
    the one in the slot. *)
Definition works_balanced (info : ZEUS_INFO) (h : host) : Prop :=
  taken h = (length (freed h) + length (discarded h) + held info)%nat.

(** Calls during which the other threads leave the slot alone. *)
Definition keeps_slot (f : ZEUS_INFO -> ZEUS_INFO) : Prop :=
  forall info, current_work (f info) = current_work info.

Definition no_slot_interference (o : op) : Prop :=
  match o with
  | OpIoRound e => keeps_slot (io_other e)
  | _ => True
  end.

(** A command packet as the board expects it: 84 bytes, of which the
    second is the complement of the first. *)
Definition command_packet (pkt : list Z) : Prop :=
  length pkt = 84%nat
  /\ exists code, 0 <= code < 256 /\ take 2 pkt = [code; 255 - code].

(** What follows the transmission in a round of the I/O loop: the
    board, the host and the line before and after the [poll]. *)
Definition round_tail `{ZeusHeader} (e : io_env)
    (s s' : ZEUS_INFO * host * serial) : Prop :=
  let '(i, h, p) := s in
  match io_poll e with
  | PollFailed _ => s' = s
  | PollTimeout => s' = (zeus_purge_work i h, p)
  | PollReady dev_err dev_in pipe_in =>
      exists lg stop,
        io_events e dev_err dev_in pipe_in i h p
        = Some (s'.1.1, s'.1.2, s'.2, lg, stop)
  end.

(** The effect on the slot of every step but the assignment and the
    transmission of a work: the work of the slot is kept, or it is freed
    and the slot is empty; nothing is taken from the host and nothing is
    discarded. *)
Definition slot_kept_or_freed (i : ZEUS_INFO) (h : host) (i' : ZEUS_INFO)
    (h' : host) : Prop :=
  taken h' = taken h /\ discarded h' = discarded h
  /\ ((current_work i' = current_work i /\ freed h' = freed h)
      \/ (current_work i' = None
          /\ freed h'
             = freed h ++ match current_work i with
                          | Some w => [w]
                          | None => []
                          end)).

(** The line between two states of the driver: everything is still
    accepted, and what has been added to the wire is one command packet
    for each work counted as transmitted. *)
Definition wire_framed (p : serial) (n : nat) (p' : serial) (n' : nat) : Prop :=
  wr_script p' = []
  /\ exists pkts,
       wire p' = wire p ++ concat pkts
       /\ Forall command_packet pkts
       /\ n' = (n + length pkts)%nat.


Definition open_driver (p : serial) : driver :=
  {| drv_info := set_device_fd 5 sample_info; drv_host := sample_host;
     drv_port := p; drv_log := []; drv_shutdown := false; drv_sent := 0 |}.

(** ** The timeout of the [poll] in the I/O loop *)

(** The C library's [timersub]: the difference of two times, with the
    microseconds brought back into range by one borrow. *)
Definition timersub (a b : timeval) : timeval :=
  let sec := tv_sec a - tv_sec b in
  let usec := tv_usec a - tv_usec b in
  if usec <? 0 then {| tv_sec := sec - 1; tv_usec := usec + 1000000 |}
  else {| tv_sec := sec; tv_usec := usec |}.

(** The conversion of a [long] to [int], which keeps the low 32 bits. *)
Definition s32 (x : Z) : Z := (x + 2 ^ 31) mod 2 ^ 32 - 2 ^ 31.

(** The third argument of [poll] in [zeus_io_thread]: the time left for
    the work, in milliseconds; [now] is the time [cgtime] reads.  The
    fields of a [timeval] are [long]; their overflow is left out. *)
Definition io_poll_timeout (now : timeval) (info : ZEUS_INFO) : Z :=
  let tv_spent := timersub now (workstart info) in
  let tv_rem := timersub (work_timeout info) tv_spent in
  s32 (tv_sec tv_rem * 1000 + Z.quot (tv_usec tv_rem) 1000).

(** A time in microseconds, and a time whose microseconds are in
    range. *)
Definition usecs (t : timeval) : Z := tv_sec t * 1000000 + tv_usec t.

Definition normal_time (t : timeval) : Prop := 0 <= tv_usec t < 1000000.

(** [n] calls of [zeus_flush_work] in a row. *)
Definition flush_times (n : nat) (info : ZEUS_INFO) (h : host)
  : ZEUS_INFO * host :=
  Nat.iter n (fun s => zeus_flush_work s.1 s.2) (info, h).

(** * Verified properties *)

(** ** Machine integers *)

Lemma u64_small x : 0 <= x < 2 ^ 64 -> u64 x = x.
Proof. intros. unfold u64. apply Z.mod_small. lia. Qed.

Lemma u32_small x : 0 <= x < 2 ^ 32 -> u32 x = x.
Proof. intros. unfold u32. apply Z.mod_small. lia. Qed.

Lemma u8_small x : 0 <= x < 256 -> u8 x = x.
Proof. intros. unfold u8. apply Z.mod_small. lia. Qed.

(** ** [rev] reverses *)

(** The loop invariant: with [a] and [b] the parts already swapped into
    place, one more run of the loop reverses the middle part [m]. *)
Lemma rev_loop_spec fuel : forall (a m b : list Z),
  (length m < fuel)%nat ->
  Z.of_nat (length (a ++ m ++ b)) < 2 ^ 64 ->
  rev_loop fuel (a ++ m ++ b) (Z.of_nat (length a))
           (Z.of_nat (length a + length m - 1))
  = Some (a ++ List.rev m ++ b).
Proof.
  induction fuel as [|fuel IH]; intros a m b Hf Hlen; [lia|].
  cbn [rev_loop].
  destruct m as [|x m].
  { replace (_ <? _) with false by (symmetry; apply Z.ltb_ge; cbn; lia). done. }
  destruct m as [|y m _] using rev_ind.
  { replace (_ <? _) with false by (symmetry; apply Z.ltb_ge; cbn; lia). done. }
  rewrite !length_app in Hlen. cbn [length] in *. rewrite length_app in *. cbn [length] in *.
  replace (_ <? _) with true by (symmetry; apply Z.ltb_lt; lia).
  rewrite !Nat2Z.id.
  assert (Es : a ++ (x :: m ++ [y]) ++ b = a ++ x :: m ++ y :: b)
    by (cbn; rewrite <- app_assoc; done).
  rewrite Es.
  rewrite (list_lookup_middle a (m ++ y :: b) x (length a) eq_refl). cbn [mbind option_bind].
  replace (length a + S (length m + 1) - 1)%nat
    with (length (a ++ x :: m) + 0)%nat by (rewrite length_app; cbn; lia).
  assert (Es2 : a ++ x :: m ++ y :: b = (a ++ x :: m) ++ y :: b)
    by (rewrite <- app_assoc; done).
  rewrite Es2 at 1.
  rewrite lookup_app_r by lia.
  replace (_ + 0 - _)%nat with 0%nat by lia. cbn [lookup list_lookup mbind option_bind].
  replace (length a) with (length a + 0)%nat at 1 by lia.
  rewrite insert_app_r. cbn [insert list_insert].
  assert (Es3 : a ++ y :: m ++ y :: b = (a ++ y :: m) ++ y :: b)
    by (rewrite <- app_assoc; done).
  rewrite Es3, length_app. cbn [length].
  replace (length a + S (length m) + 0)%nat with (length (a ++ y :: m) + 0)%nat
    by (rewrite length_app; cbn; lia).
  rewrite insert_app_r.  cbn [insert list_insert].
  replace ((a ++ y :: m) ++ x :: b) with ((a ++ [y]) ++ m ++ (x :: b))
    by (rewrite <- !app_assoc; done).
  match goal with
  | |- rev_loop _ _ ?i ?j = _ =>
      replace i with (Z.of_nat (length (a ++ [y])))
        by (rewrite u64_small; rewrite ?length_app; cbn [length]; lia);
      replace j with (Z.of_nat (length (a ++ [y]) + length m - 1))
        by (rewrite u64_small; rewrite ?length_app; cbn [length]; lia)
  end.
  rewrite IH.
  - cbn [List.rev]. rewrite rev_app_distr. cbn. rewrite <- !app_assoc. done.
  - lia.
  - rewrite ?length_app; cbn [length]; rewrite ?length_app; cbn [length]; lia.
Qed.

Lemma rev_reverses (s : list Z) (l : Z) :
  Z.of_nat (length s) = l -> 1 <= l < 2 ^ 64 -> rev s l = Some (List.rev s).
Proof.
  intros Hl Hr. unfold rev.
  pose proof (rev_loop_spec (S (length s)) [] s []) as E.
  rewrite app_nil_r in E. cbn [app length] in E. rewrite app_nil_r in E.
  rewrite u64_small by lia.
  replace (l - 1) with (Z.of_nat (0 + length s - 1)) by lia.
  apply E; lia.
Qed.

(** ** [chip_index] is a bit reversal *)

Lemma reverse_bits_S n v :
  reverse_bits (S n) v
  = (if Z.testbit v 0 then 2 ^ Z.of_nat n else 0) + reverse_bits n (Z.shiftr v 1).
Proof.
  unfold reverse_bits. cbn [seq map foldr].
  replace (S n - 1 - 0)%nat with n by lia. f_equal.
  rewrite <- seq_shift, map_map. f_equal. apply map_ext. intros k.
  rewrite Z.shiftr_spec by lia.
  replace (Z.of_nat k + 1) with (Z.of_nat (S k)) by lia.
  replace (S n - 1 - S k)%nat with (n - 1 - k)%nat by lia. done.
Qed.

Lemma reverse_bits_bound n : forall v, 0 <= reverse_bits n v < 2 ^ Z.of_nat n.
Proof.
  induction n as [|n IH]; intros v.
  - cbn. lia.
  - rewrite reverse_bits_S. specialize (IH (Z.shiftr v 1)).
    replace (Z.of_nat (S n)) with (Z.of_nat n + 1) by lia.
    rewrite Z.pow_add_r by lia.
    destruct (Z.testbit v 0); lia.
Qed.

(** [reverse_bits] is what its name says. *)
Lemma reverse_bits_testbit n : forall v k,
  (k < n)%nat ->
  Z.testbit (reverse_bits n v) (Z.of_nat k) = Z.testbit v (Z.of_nat (n - 1 - k)).
Proof.
  induction n as [|n IH]; intros v k Hk; [lia|].
  rewrite reverse_bits_S.
  pose proof (reverse_bits_bound n (Z.shiftr v 1)) as Hb.
  set (r := reverse_bits n (Z.shiftr v 1)) in *.
  set (b := if Z.testbit v 0 then 2 ^ Z.of_nat n else 0).
  assert (Eb : b = Z.b2z (Z.testbit v 0) * 2 ^ Z.of_nat n)
    by (unfold b; destruct (Z.testbit v 0); cbn [Z.b2z]; lia).
  destruct (decide (k = n)) as [->|Hne].
  - replace (S n - 1 - n)%nat with 0%nat by lia.
    rewrite <- (Z.add_0_l (Z.of_nat n)) at 1.
    rewrite <- Z.div_pow2_bits by lia.
    rewrite Eb, Z.div_add_l by lia.
    rewrite (Z.div_small r) by lia. rewrite Z.add_0_r.
    change (Z.of_nat 0) with 0. destruct (Z.testbit v 0); done.
  - rewrite <- (Z.mod_pow2_bits_low _ (Z.of_nat n)) by lia.
    rewrite Eb, Z.add_comm, Z_mod_plus_full, Z.mod_small by lia.
    unfold r. rewrite IH by lia. rewrite Z.shiftr_spec by lia.
    f_equal. lia.
Qed.

Lemma land_1_b2z v : Z.land v 1 = Z.b2z (Z.testbit v 0).
Proof.
  change 1 with (Z.ones 1). rewrite Z.land_ones by lia.
  change (2 ^ 1) with 2. symmetry. apply Z.bit0_mod.
Qed.

(** The loop shifts the bits of [v] into [acc] from the right, lowest
    first; nothing is lost as long as the result fits 32 bits. *)
Lemma chip_index_loop_spec n : forall v acc,
  0 <= acc -> (acc + 1) * 2 ^ Z.of_nat n <= 2 ^ 32 ->
  chip_index_loop n v acc = acc * 2 ^ Z.of_nat n + reverse_bits n v.
Proof.
  induction n as [|n IH]; intros v acc Ha Hb.
  - cbn. lia.
  - cbn [chip_index_loop]. rewrite reverse_bits_S.
    replace (Z.of_nat (S n)) with (Z.of_nat n + 1) in * by lia.
    rewrite Z.pow_add_r in * by lia.
    assert (0 < 2 ^ Z.of_nat n) by (apply Z.pow_pos_nonneg; lia).
    rewrite Z.shiftl_mul_pow2 by lia. change (2 ^ 1) with 2.
    rewrite land_1_b2z.
    assert (Hbit : 0 <= Z.b2z (Z.testbit v 0) <= 1)
      by (destruct (Z.testbit v 0); cbn; lia).
    rewrite (u32_small (acc * 2)) by nia.
    rewrite u32_small by nia.
    rewrite IH by nia.
    destruct (Z.testbit v 0); cbn [Z.b2z]; lia.
Qed.

(** The mask and shift of the code select the top [B] bits of the
    10-bit field. *)
Lemma chip_field N B :
  0 <= B <= 10 ->
  Z.shiftr (Z.land N 0x1ff80000) (29 - B)
  = Z.shiftr (Z.land (Z.shiftr N 19) 0x3FF) (10 - B).
Proof.
  intros HB. apply Z.bits_inj'. intros i Hi.
  rewrite !Z.shiftr_spec, !Z.land_spec, Z.shiftr_spec by lia.
  replace (i + (10 - B) + 19) with (i + (29 - B)) by lia.
  f_equal.
  change 0x1ff80000 with (Z.shiftl 0x3FF 19).
  rewrite Z.shiftl_spec by lia. f_equal. lia.
Qed.

(** The chip index has [B] bits. *)
Lemma chip_index_bound (N B : Z) :
  0 <= B <= 10 -> 0 <= chip_index N B < 2 ^ B.
Proof.
  intros HB. unfold chip_index. rewrite chip_index_loop_spec.
  - pose proof (reverse_bits_bound (Z.to_nat B)
      (Z.shiftr (Z.land N 0x1ff80000) (29 - B))) as Hb.
    rewrite Z2Nat.id in Hb by lia. lia.
  - lia.
  - rewrite Z2Nat.id by lia.
    assert (2 ^ B <= 2 ^ 10) by (apply Z.pow_le_mono_r; lia). lia.
Qed.

(** C2: for every 32-bit nonce [N] and every [B] from 0 to 10,
    [chip_index N B] is the [B]-bit reversal of the top [B] bits of the
    10-bit field [(N >> 19) & 0x3FF]: it equals the reference definition,
    it has [B] bits, and its bit [k] is bit [28 - k] of [N]. *)
Theorem chip_index_reverses_top_bits (N B : Z) :
  0 <= N < 2 ^ 32 -> 0 <= B <= 10 ->
  chip_index N B = spec_chip_index N B
  /\ 0 <= chip_index N B < 2 ^ B
  /\ forall k, 0 <= k < B ->
       Z.testbit (chip_index N B) k = Z.testbit N (28 - k).
Proof.
  intros HN HB.
  assert (E : chip_index N B = spec_chip_index N B).
  { unfold chip_index, spec_chip_index. rewrite chip_field by done.
    rewrite chip_index_loop_spec; [lia | lia |].
    rewrite Z2Nat.id by lia.
    assert (2 ^ B <= 2 ^ 10) by (apply Z.pow_le_mono_r; lia). lia. }
  split; [done|]. rewrite E. unfold spec_chip_index.
  split.
  - pose proof (reverse_bits_bound (Z.to_nat B)
      (Z.shiftr (Z.land (Z.shiftr N 19) 0x3FF) (10 - B))) as Hb.
    rewrite Z2Nat.id in Hb by lia. done.
  - intros k Hk.
    replace k with (Z.of_nat (Z.to_nat k)) at 1 by lia.
    rewrite reverse_bits_testbit by lia.
    rewrite Z.shiftr_spec, Z.land_spec, Z.shiftr_spec by lia.
    replace (Z.of_nat (Z.to_nat B - 1 - Z.to_nat k) + (10 - B) + 19)
      with (28 - k) by lia.
    replace (Z.of_nat (Z.to_nat B - 1 - Z.to_nat k) + (10 - B))
      with (9 - k) by lia.
    change 0x3FF with (Z.ones 10).
    rewrite Z.ones_spec_low by lia. apply andb_true_r.
Qed.

Lemma chip_index_reverses_top_bits_witness :
  0 <= 0x15580000 < 2 ^ 32 /\ 0 <= 10 <= 10
  /\ chip_index 0x15580000 10 = spec_chip_index 0x15580000 10
  /\ chip_index 0x15580000 10 = 0x355.
Proof.
  split; [lia|]. split; [lia|]. split; [|reflexivity].
  apply (chip_index_reverses_top_bits 0x15580000 10); lia.
Defined.

(** ** The serial helpers *)

Lemma zeus_write_loop_rd fuel : forall fd p buf len total ret p',
  zeus_write_loop fuel fd p buf len total = Some (ret, p') ->
  rd_script p' = rd_script p.
Proof.
  induction fuel as [|fuel IH]; intros fd p buf len total ret p';
    cbn [zeus_write_loop]; destruct (total <? len); try congruence.
  unfold os_write. destruct (fd <? 0).
  { cbn. intros [= <- <-]. done. }
  destruct (wr_script p) as [|r rest].
  - destruct (len <? 0); [intros [= <- <-]; done|].
    intros E. apply IH in E. done.
  - destruct (r <? 0); [intros [= <- <-]; done|].
    destruct (Z.min r len <? 0); [intros [= <- <-]; done|].
    intros E. apply IH in E. done.
Qed.

Lemma zeus_write_rd fd p buf len ret p' :
  zeus_write fd p buf len = Some (ret, p') -> rd_script p' = rd_script p.
Proof. apply zeus_write_loop_rd. Qed.

(** [zeus_write] always returns: the script only gets shorter. *)
Lemma zeus_write_loop_total fuel : forall fd p buf len total,
  (length (wr_script p) < fuel)%nat -> 0 <= total ->
  is_Some (zeus_write_loop fuel fd p buf len total).
Proof.
  induction fuel as [|fuel IH]; intros fd p buf len total Hf Ht; [lia|].
  cbn [zeus_write_loop]. destruct (Z.ltb_spec total len); [|done].
  unfold os_write. destruct (fd <? 0); [done|].
  destruct (wr_script p) as [|r rest] eqn:Es.
  - destruct (len <? 0); [done|].
    destruct fuel; cbn [zeus_write_loop];
      (replace (total + len <? len) with false
         by (symmetry; apply Z.ltb_ge; lia)); done.
  - destruct (r <? 0); [done|].
    destruct (Z.ltb_spec (Z.min r len) 0); [done|].
    apply IH; cbn in *; lia.
Qed.

Lemma zeus_write_total fd p buf len : is_Some (zeus_write fd p buf len).
Proof. apply zeus_write_loop_total; lia. Qed.

Lemma os_read_bytes fd p len :
  line_bytes p ->
  Forall is_byte (os_read fd p len).1.2 /\ line_bytes (os_read fd p len).2.
Proof.
  unfold line_bytes, os_read. intros Hp.
  destruct (fd <? 0); [by split|].
  destruct (rd_script p) as [|[c|] rest] eqn:Es; cbn.
  - rewrite Es. by split.
  - inversion Hp as [|? ? Hc Hrest]; subst. split; [by apply Forall_take|].
    destruct (drop _ c) eqn:Ed; [done|]. constructor; [|done].
    rewrite <- Ed. by apply Forall_drop.
  - inversion Hp; subst. by split.
Qed.

Lemma store_bytes buf off got :
  Forall is_byte buf -> Forall is_byte got -> Forall is_byte (store buf off got).
Proof.
  intros Hb Hg. unfold store. rewrite !Forall_app.
  split; [by apply Forall_take|]. split; [done|]. by apply Forall_drop.
Qed.

Lemma store_length buf off got :
  0 <= off -> off + Z.of_nat (length got) <= Z.of_nat (length buf) ->
  length (store buf off got) = length buf.
Proof.
  intros Ho Hl. unfold store. rewrite !length_app, length_take, length_drop. lia.
Qed.

Lemma os_read_ret fd p len :
  (os_read fd p len).1.1 = -1 \/
  (os_read fd p len).1.1 = Z.of_nat (length (os_read fd p len).1.2).
Proof.
  unfold os_read. destruct (fd <? 0); [by left|].
  destruct (rd_script p) as [|[c|] rest]; cbn; auto.
Qed.

(** [zeus_read] leaves a buffer of the same length, filled with bytes. *)
Lemma zeus_read_loop_inv fuel : forall fd p buf len read_count total rc ret buf' p',
  line_bytes p -> Forall is_byte buf -> 0 <= total ->
  zeus_read_loop fuel fd p buf len read_count total rc = Some (ret, buf', p') ->
  Forall is_byte buf' /\ length buf' = length buf /\ line_bytes p'.
Proof.
  induction fuel as [|fuel IH]; intros fd p buf len read_count total rc ret buf' p' Hp Hb Ht;
    cbn [zeus_read_loop]; destruct (total <? len); try congruence;
    try (intros [= <- <- <-]; done).
  pose proof (os_read_bytes fd p len Hp) as [Hg Hp1].
  pose proof (os_read_ret fd p len) as Hr.
  destruct (os_read fd p len) as [[r got] p1]. cbn in Hg, Hp1, Hr.
  destruct (Z.ltb_spec r 0); [intros [= <- <- <-]; done|].
  destruct (_ && _); [intros [= <- <- <-]; done|].
  destruct (Z.ltb_spec (Z.of_nat (length buf)) (total + r)); [done|].
  intros E. apply IH in E; [|done|by apply store_bytes|lia].
  destruct E as (? & E & ?). rewrite store_length in E by lia. done.
Qed.

Lemma zeus_read_inv fd p buf len read_count ret buf' p' :
  line_bytes p -> Forall is_byte buf ->
  zeus_read fd p buf len read_count = Some (ret, buf', p') ->
  Forall is_byte buf' /\ length buf' = length buf /\ line_bytes p'.
Proof. intros Hp Hb. apply zeus_read_loop_inv; done || lia. Qed.

(** The fuel of [zeus_read] is never used up: with more rounds than
    bytes are missing plus empty reads are left, the amount of fuel does
    not matter. *)
Lemma zeus_read_loop_fuel fuel : forall fuel' fd p buf len read_count total rc,
  (Z.to_nat (len - total) + Z.to_nat (read_count - 1 - rc) < fuel)%nat ->
  (Z.to_nat (len - total) + Z.to_nat (read_count - 1 - rc) < fuel')%nat ->
  zeus_read_loop fuel fd p buf len read_count total rc
  = zeus_read_loop fuel' fd p buf len read_count total rc.
Proof.
  induction fuel as [|fuel IH];
    intros fuel' fd p buf len read_count total rc Hf Hf'; [lia|].
  destruct fuel' as [|fuel']; [lia|]. cbn [zeus_read_loop].
  destruct (Z.ltb_spec total len) as [Ht|Ht]; [|done].
  pose proof (os_read_ret fd p len) as Hr.
  assert (Hlen : (os_read fd p len).1.1 = -1 \/ 0 <= (os_read fd p len).1.1)
    by (destruct Hr as [-> | ->]; [by left | right; lia]).
  destruct (os_read fd p len) as [[ret got] p1]. cbn [fst snd] in Hlen.
  destruct (Z.ltb_spec ret 0) as [|Hret]; [done|].
  destruct (Z.eqb_spec ret 0) as [E0|N0]; cbn [andb].
  - destruct (Z.leb_spec read_count (rc + 1)) as [|Hrc]; [done|].
    destruct (_ <? _); [done|]. apply IH; subst ret; lia.
  - destruct (_ <? _); [done|]. apply IH; lia.
Qed.

Lemma zeus_read_fuel extra fd p buf len read_count :
  zeus_read_loop (extra + S (Z.to_nat len + Z.to_nat read_count)) fd p buf len
    read_count 0 0
  = zeus_read fd p buf len read_count.
Proof. unfold zeus_read. apply zeus_read_loop_fuel; lia. Qed.

(** ** The command packet of [zeus_send_work] *)

(** A property checked on every element of a range holds in the range. *)
Lemma forallb_seqZ (f : Z -> bool) lo n :
  forallb f (seqZ lo n) = true -> forall x, lo <= x < lo + n -> f x = true.
Proof.
  intros Hf x Hx. rewrite forallb_forall in Hf. apply Hf.
  apply list_elem_of_In, elem_of_seqZ. lia.
Qed.

Lemma u8_lnot fc : 0 <= fc < 256 -> u8 (Z.lnot fc) = Z.lxor fc 255.
Proof.
  intros Hfc.
  apply (Z.eqb_eq _ _), (forallb_seqZ (fun x => u8 (Z.lnot x) =? Z.lxor x 255) 0 256);
    [vm_compute; reflexivity | lia].
Qed.

Lemma diff_code_hi dc : 0 <= dc < 2 ^ 16 ->
  u8 (Z.shiftr (Z.land dc 0xff00) 8) = dc / 256.
Proof.
  intros Hdc. rewrite Z.shiftr_land. change (Z.shiftr 0xff00 8) with (Z.ones 8).
  rewrite Z.land_ones, Z.shiftr_div_pow2 by lia.
  change (2 ^ 8) with 256.
  assert (0 <= dc / 256 < 256) by (split; [apply Z.div_pos | apply Z.div_lt_upper_bound]; lia).
  rewrite Z.mod_small by lia. apply u8_small. lia.
Qed.

Lemma diff_code_lo dc : 0 <= dc -> u8 (Z.land dc 0x00ff) = dc mod 256.
Proof.
  intros Hdc. change 0x00ff with (Z.ones 8). rewrite Z.land_ones by lia.
  change (2 ^ 8) with 256. apply u8_small. apply Z.mod_pos_bound. lia.
Qed.

(** Truncation and [floor] agree on the clamped difficulty. *)
Lemma to_u32_floor x t :
  Double.to_u32 x = Some t ->
  exists d, Double.floor x = Some d
            /\ (if t <? 1 then 1 else t) = Z.max 1 d /\ 0 <= t < 2 ^ 32.
Proof.
  unfold Double.to_u32, Double.to_int. intros Ht.
  destruct (Double.trunc x) as [z|] eqn:Ez; [|done]. cbn in Ht.
  destruct (_ && _) eqn:Er; [|done]. injection Ht as ->.
  apply andb_true_iff in Er. destruct Er as [Hlo Hhi].
  apply Z.leb_le in Hlo, Hhi.
  destruct x as [s|s| |s m e]; try done.
  - injection Ez as <-. exists 0. cbn. split; [done|]. lia.
  - cbn in Ez. injection Ez as <-. cbn [Double.floor].
    eexists; split; [reflexivity|].
    destruct s; cbn [cond_Zopp] in *.
    + pose proof (proj2 (Z.shiftl_nonneg (Z.pos m) e) ltac:(lia)).
      assert (Z.shiftl (Z.neg m) e < 0) by (apply Z.shiftl_neg; lia).
      change (- Z.pos m) with (Z.neg m).
      destruct (_ <? 1) eqn:E1; [|apply Z.ltb_ge in E1]; lia.
    + destruct (_ <? 1) eqn:E1; [apply Z.ltb_lt in E1|apply Z.ltb_ge in E1]; lia.
Qed.

Lemma zeus_write_whole fd p buf len :
  0 <= fd -> 0 < len -> Z.of_nat (length buf) = len -> accepts_whole p len ->
  exists p', zeus_write fd p buf len = Some (len, p')
             /\ wire p' = wire p ++ buf /\ rd_script p' = rd_script p.
Proof.
  intros Hfd Hlen Hbuf Hacc. unfold zeus_write, accepts_whole in *.
  cbn [zeus_write_loop].
  replace (0 <? len) with true by (symmetry; apply Z.ltb_lt; lia).
  unfold os_write.
  replace (fd <? 0) with false by (symmetry; apply Z.ltb_ge; lia).
  assert (Et : take (Z.to_nat len) buf = buf) by (apply take_ge; lia).
  assert (Ee : forall (f : nat) q, zeus_write_loop f fd q buf len (0 + len) = Some (len, q)).
  { intros f q. destruct f; cbn [zeus_write_loop];
      replace (0 + len <? len) with false by (symmetry; apply Z.ltb_ge; lia); done. }
  destruct (wr_script p) as [|r rest].
  - replace (len <? 0) with false by (symmetry; apply Z.ltb_ge; lia).
    rewrite Ee, Et. eexists; split; [reflexivity|]. done.
  - replace (r <? 0) with false by (symmetry; apply Z.ltb_ge; lia).
    rewrite Z.min_r by lia.
    replace (len <? 0) with false by (symmetry; apply Z.ltb_ge; lia).
    rewrite Ee, Et. eexists; split; [reflexivity|]. done.
Qed.

(** With the difficulty converted, [zeus_send_work] always returns. *)
Lemma zeus_send_work_total info w h p pkt :
  zeus_cmdpkt info w = Some pkt -> is_Some (zeus_send_work info w h p).
Proof.
  intros E. unfold zeus_send_work. rewrite E. cbn [mbind option_bind].
  destruct (zeus_write_total (device_fd info) p pkt ZEUS_COMMAND_PKT_LEN)
    as [[ret p'] ->].
  cbn [mbind option_bind]. destruct (zeus_purge_work info h).
  destruct (ret <? 0); done.
Qed.

(** C1 (as amended): for a work whose first 80 data bytes are [P] and
    whose difficulty [d] converts to [uint32_t], the command packet
    [zeus_send_work] builds
    has 84 bytes: byte 0 is the board's freqcode, byte 1 its bitwise
    complement, bytes 2-3 are [0xFFFF / max 1 (floor d)] in big-endian
    order, and bytes 4-83 are [P] reversed.  On an open line that takes
    the packet in one [write], the call succeeds and exactly these 84
    bytes are added to the wire. *)
Theorem zeus_send_work_packet (info : ZEUS_INFO) (w : work) (P : list Z)
    (t : Z) :
  0 <= freqcode info < 256 ->
  take 80 (data w) = P -> length P = 80%nat ->
  Double.to_u32 (work_difficulty w) = Some t ->
  exists d,
    Double.floor (work_difficulty w) = Some d
    /\ let diff_code := 0xFFFF / Z.max 1 d in
       let pkt := [freqcode info; Z.lxor (freqcode info) 0xFF;
                   diff_code / 256; diff_code mod 256] ++ List.rev P in
       zeus_cmdpkt info w = Some pkt
       /\ length pkt = 84%nat
       /\ 0 <= diff_code < 2 ^ 16
       /\ be_int [diff_code / 256; diff_code mod 256] = diff_code
       /\ (forall h p, is_Some (zeus_send_work info w h p))
       /\ (forall h p,
             0 <= device_fd info -> accepts_whole p ZEUS_COMMAND_PKT_LEN ->
             exists p',
               zeus_send_work info w h p = Some (true, info, h, p', [])
               /\ wire p' = wire p ++ pkt).
Proof.
  intros Hfc HP HlenP Ht.
  destruct (to_u32_floor _ _ Ht) as (d & Hd & Hmax & Htr).
  exists d. split; [done|]. cbn zeta.
  set (dc := 0xFFFF / Z.max 1 d).
  assert (Hdc : 0 <= dc < 2 ^ 16).
  { unfold dc. split; [apply Z.div_pos; lia|].
    apply Z.div_lt_upper_bound; lia. }
  set (pkt := [freqcode info; Z.lxor (freqcode info) 0xFF; dc / 256; dc mod 256]
                ++ List.rev P).
  assert (Hlen : length pkt = 84%nat)
    by (unfold pkt; rewrite length_app, length_rev, HlenP; done).
  assert (Epkt : zeus_cmdpkt info w = Some pkt).
  { unfold zeus_cmdpkt. rewrite Ht. cbn [mbind option_bind]. rewrite Hmax.
    fold dc.
    assert (80 <= length (data w))%nat.
    { rewrite <- HP in HlenP. rewrite length_take in HlenP. lia. }
    replace (_ <? 80) with false by (symmetry; apply Z.ltb_ge; lia).
    cbn [app drop take]. rewrite HP.
    rewrite drop_0, take_0.
    rewrite (rev_reverses P 80) by (rewrite ?HlenP; first [reflexivity | lia]).
    cbn [mbind option_bind]. unfold pkt.
    rewrite (u8_small (freqcode info)) by lia. rewrite u8_lnot by lia.
    rewrite diff_code_hi by lia. rewrite diff_code_lo by lia. done. }
  split; [done|]. split; [done|]. split; [done|].
  split; [cbn; pose proof (Z.div_mod dc 256); lia|].
  split; [intros h p; by apply (zeus_send_work_total _ _ _ _ pkt)|].
  intros h p Hfd Hacc.
  destruct (zeus_write_whole (device_fd info) p pkt ZEUS_COMMAND_PKT_LEN)
    as (p' & Ew & Ewire & _); try done.
  { rewrite Hlen. done. }
  exists p'. split; [|done].
  unfold zeus_send_work. rewrite Epkt. cbn [mbind option_bind].
  rewrite Ew. cbn [mbind option_bind]. done.
Qed.

Lemma zeus_send_work_packet_witness :
  let info := set_device_fd 5 sample_info in
  0 <= freqcode info < 256
  /\ length (seqZ 0 80) = 80%nat
  /\ Double.to_u32 (work_difficulty sample_work) = Some 16
  /\ exists d,
       Double.floor (work_difficulty sample_work) = Some d
       /\ let diff_code := 0xFFFF / Z.max 1 d in
          let pkt := [freqcode info; Z.lxor (freqcode info) 0xFF;
                      diff_code / 256; diff_code mod 256]
                     ++ List.rev (seqZ 0 80) in
          zeus_cmdpkt info sample_work = Some pkt
          /\ length pkt = 84%nat
          /\ 0 <= diff_code < 2 ^ 16
          /\ be_int [diff_code / 256; diff_code mod 256] = diff_code
          /\ (forall h p, is_Some (zeus_send_work info sample_work h p))
          /\ (forall h p,
                0 <= device_fd info -> accepts_whole p ZEUS_COMMAND_PKT_LEN ->
                exists p',
                  zeus_send_work info sample_work h p
                  = Some (true, info, h, p', [])
                  /\ wire p' = wire p ++ pkt).
Proof.
  cbn zeta.
  split; [cbn; lia|]. split; [reflexivity|]. split; [reflexivity|].
  apply (zeus_send_work_packet (set_device_fd 5 sample_info) sample_work
           (seqZ 0 80) 16);
    first [reflexivity | cbn; lia].
Defined.

(** Not every work gets exactly one packet of 84 bytes with the
    difficulty code of the formula.  When the first [write] takes 50
    bytes only, [zeus_write] offers the whole packet again and the call
    succeeds with 134 bytes on the wire, the first 50 bytes of the packet
    and then the packet; and for the difficulty -1, where the formula
    gives the code 0xFFFF, the conversion to [uint32_t] is undefined and
    so is the packet. *)
Lemma zeus_send_work_not_one_packet :
  (exists pkt p',
     zeus_cmdpkt (set_device_fd 5 sample_info) sample_work = Some pkt
     /\ zeus_send_work (set_device_fd 5 sample_info) sample_work sample_host
          {| wire := []; wr_script := [50]; rd_script := [] |}
        = Some (true, set_device_fd 5 sample_info, sample_host, p', [])
     /\ wire p' = take 50 pkt ++ pkt
     /\ length pkt = 84%nat /\ length (wire p') = 134%nat)
  /\ Double.floor (Double.of_Z (-1)) = Some (-1)
  /\ 0xFFFF / Z.max 1 (-1) = 0xFFFF
  /\ zeus_cmdpkt (set_device_fd 5 sample_info)
       {| data := seqZ 0 128; work_difficulty := Double.of_Z (-1);
          devflag := false |} = None
  /\ zeus_send_work (set_device_fd 5 sample_info)
       {| data := seqZ 0 128; work_difficulty := Double.of_Z (-1);
          devflag := false |} sample_host sample_port = None.
Proof.
  split; [|repeat split; vm_compute; reflexivity].
  eexists _, _. repeat split; vm_compute; reflexivity.
Qed.

(** The packet of the sample work on the wire: freqcode 218 and its
    complement 37, the difficulty code 0x0FFF of difficulty 16, and the
    payload from its last byte 79 down to 0. *)
Example zeus_send_work_sample :
  (fun '(ok, _, _, p, _) => (ok, wire p))
    <$> zeus_send_work (set_device_fd 5 sample_info) sample_work sample_host
          sample_port
  = Some (true, [218; 37; 0x0F; 0xFF] ++ List.rev (seqZ 0 80)).
Proof. vm_compute. reflexivity. Qed.

(** A write error: the call returns false, the work is freed and the
    descriptor is given up. *)
Example zeus_send_work_write_error :
  (fun '(ok, info, h, p, lg) =>
     (ok, device_fd info, current_work info, freed h, wire p, lg))
    <$> zeus_send_work
          (set_current_work (Some sample_work) (set_device_fd 5 sample_info))
          sample_work sample_host
          {| wire := []; wr_script := [-1]; rd_script := [] |}
  = Some (false, -1, None, [sample_work], [], [NoticeSendError]).
Proof. vm_compute. reflexivity. Qed.

(** A short write: [zeus_write] offers the whole buffer again, so the
    line gets the first 50 bytes and then all 84. *)
Example zeus_write_short_write :
  (fun '(ret, p) => (ret, wire p))
    <$> zeus_write 5 {| wire := []; wr_script := [50]; rd_script := [] |}
          (seqZ 0 84) 84
  = Some (134, seqZ 0 50 ++ seqZ 0 84).
Proof. vm_compute. reflexivity. Qed.

(** ** The frequency code *)

(** [(double)clk * 2. / 3.] converted to [unsigned char]: up to 383 MHz
    the quotient is below 256, the conversion is defined, and the rounding
    of the division never reaches the next integer.  Checked on every
    clock of the range. *)
Lemma freqcode_exact clk :
  0 <= clk <= 383 ->
  Double.to_u8
    (Double.div (Double.mul (Double.of_Z clk) (Double.of_Z 2)) (Double.of_Z 3))
  = Some (clk * 2 / 3).
Proof.
  intros Hclk.
  pose proof (forallb_seqZ
    (fun k => match Double.to_u8
                      (Double.div (Double.mul (Double.of_Z k) (Double.of_Z 2))
                                  (Double.of_Z 3)) with
              | Some c => c =? k * 2 / 3
              | None => false
              end) 0 384) as Hall.
  specialize (Hall ltac:(vm_compute; reflexivity) clk ltac:(lia)).
  cbv beta in Hall. destruct (Double.to_u8 _) as [c|]; [|done].
  apply Z.eqb_eq in Hall. congruence.
Qed.

Section FreqCode.
Context `{ZeusHeader}.
Hypothesis clk_min_nonneg : 0 <= ZEUS_CLK_MIN.
Hypothesis clk_range : ZEUS_CLK_MIN <= ZEUS_CLK_MAX.
Hypothesis clk_max_byte : ZEUS_CLK_MAX <= 383.

Lemma zeus_clk_to_freqcode_in_range K :
  ZEUS_CLK_MIN <= K <= ZEUS_CLK_MAX ->
  zeus_clk_to_freqcode K = ([], Some (K * 2 / 3)).
Proof using clk_min_nonneg clk_max_byte.
  intros HK. unfold zeus_clk_to_freqcode.
  replace (ZEUS_CLK_MAX <? K) with false by (symmetry; apply Z.ltb_ge; lia).
  replace (K <? ZEUS_CLK_MIN) with false by (symmetry; apply Z.ltb_ge; lia).
  cbn [app]. f_equal. apply freqcode_exact. lia.
Qed.

Lemma freqcode_is_byte K :
  0 <= K <= 383 -> 0 <= K * 2 / 3 < 256.
Proof.
  intros HK. split; [apply Z.div_pos; lia|].
  apply Z.div_lt_upper_bound; lia.
Qed.

(** C6: with a clock range [0 <= ZEUS_CLK_MIN <= ZEUS_CLK_MAX <= 383],
    [zeus_clk_to_freqcode] clamps its argument into the range: below the
    range it returns the code of [ZEUS_CLK_MIN] and above it the code of
    [ZEUS_CLK_MAX], each time with one warning; for every [K] in the range
    it returns [floor (K * 2 / 3) mod 256] without a warning. *)
Theorem zeus_clk_to_freqcode_clamps :
  (forall K, ZEUS_CLK_MIN <= K <= ZEUS_CLK_MAX ->
     zeus_clk_to_freqcode K = ([], Some ((K * 2 / 3) mod 256)))
  /\ (forall K, K < ZEUS_CLK_MIN ->
        zeus_clk_to_freqcode K
        = ([WarnClockTooLow K ZEUS_CLK_MIN],
           snd (zeus_clk_to_freqcode ZEUS_CLK_MIN)))
  /\ (forall K, ZEUS_CLK_MAX < K ->
        zeus_clk_to_freqcode K
        = ([WarnClockTooHigh K ZEUS_CLK_MAX],
           snd (zeus_clk_to_freqcode ZEUS_CLK_MAX))).
Proof using clk_min_nonneg clk_range clk_max_byte.
  split; [|split]; intros K HK.
  - rewrite zeus_clk_to_freqcode_in_range by done.
    rewrite Z.mod_small by (apply freqcode_is_byte; lia). done.
  - rewrite (zeus_clk_to_freqcode_in_range ZEUS_CLK_MIN) by lia.
    unfold zeus_clk_to_freqcode.
    replace (ZEUS_CLK_MAX <? K) with false by (symmetry; apply Z.ltb_ge; lia).
    replace (K <? ZEUS_CLK_MIN) with true by (symmetry; apply Z.ltb_lt; lia).
    cbn [app snd]. f_equal. apply freqcode_exact. lia.
  - rewrite (zeus_clk_to_freqcode_in_range ZEUS_CLK_MAX) by lia.
    unfold zeus_clk_to_freqcode.
    replace (ZEUS_CLK_MAX <? K) with true by (symmetry; apply Z.ltb_lt; lia).
    replace (ZEUS_CLK_MAX <? ZEUS_CLK_MIN) with false
      by (symmetry; apply Z.ltb_ge; lia).
    cbn [app snd]. f_equal. apply freqcode_exact. lia.
Qed.

End FreqCode.

Lemma zeus_clk_to_freqcode_clamps_witness :
  0 <= @ZEUS_CLK_MIN header_le
  /\ @ZEUS_CLK_MIN header_le <= @ZEUS_CLK_MAX header_le
  /\ @ZEUS_CLK_MAX header_le <= 383
  /\ @zeus_clk_to_freqcode header_le 328 = ([], Some 218)
  /\ @zeus_clk_to_freqcode header_le 1 = ([WarnClockTooLow 1 2], Some 1)
  /\ @zeus_clk_to_freqcode header_le 383 = ([WarnClockTooHigh 383 382], Some 254).
Proof.
  assert (H0 : 0 <= @ZEUS_CLK_MIN header_le) by (cbn; lia).
  assert (H1 : @ZEUS_CLK_MIN header_le <= @ZEUS_CLK_MAX header_le) by (cbn; lia).
  assert (H2 : @ZEUS_CLK_MAX header_le <= 383) by (cbn; lia).
  destruct (@zeus_clk_to_freqcode_clamps header_le H0 H1 H2) as (A & B & C).
  split; [exact H0|]. split; [exact H1|]. split; [exact H2|].
  split; [|split].
  - apply (A 328). cbn. lia.
  - rewrite (B 1) by (cbn; lia). reflexivity.
  - rewrite (C 383) by (cbn; lia). reflexivity.
Defined.

(** ** Byte order *)

Lemma le_bytes_le_int (b : list Z) :
  Forall is_byte b -> le_bytes (length b) (le_int b) = b.
Proof.
  induction 1 as [|x b Hx Hb IH]; [done|].
  cbn [length le_bytes le_int fold_right]. fold (le_int b).
  unfold is_byte in Hx.
  replace (x + 256 * le_int b) with (x + le_int b * 256) by lia.
  rewrite Z_mod_plus_full, Z.mod_small by lia.
  rewrite Z.div_add, Z.div_small, Z.add_0_l, IH by lia. done.
Qed.

Lemma be_int_app (b : list Z) (x : Z) : be_int (b ++ [x]) = be_int b * 256 + x.
Proof. unfold be_int. rewrite fold_left_app. done. Qed.

Lemma be_int_rev (b : list Z) : be_int (List.rev b) = le_int b.
Proof.
  induction b as [|x b IH]; [done|].
  cbn [List.rev]. rewrite be_int_app, IH. cbn. fold (le_int b). lia.
Qed.

Section ByteOrderFacts.
Context `{ZeusHeader}.

(** Copying bytes into a [uint32_t] and reading the object back gives the
    bytes. *)
Lemma store_load_u32 (b : list Z) :
  Forall is_byte b -> length b = 4%nat -> store_u32 (load_u32 b) = b.
Proof.
  intros Hb Hl. unfold store_u32, load_u32. destruct host_order.
  - rewrite <- Hl. by apply le_bytes_le_int.
  - unfold be_bytes. rewrite <- (rev_involutive b) at 1.
    rewrite be_int_rev. rewrite <- Hl, <- length_rev.
    rewrite le_bytes_le_int by (by apply Forall_rev).
    apply rev_involutive.
Qed.

(** So [be32toh] after [memcpy] is the big-endian reading of the bytes,
    whatever the host's order. *)
Lemma be32toh_load_u32 (b : list Z) :
  Forall is_byte b -> length b = 4%nat -> be32toh (load_u32 b) = be_int b.
Proof. intros. unfold be32toh. by rewrite store_load_u32. Qed.

Lemma golden_nonce_val_eq :
  golden_nonce_val
  = match host_order with
    | LittleEndian => 0x00038D26
    | BigEndian => 0x268D0300
    end.
Proof. unfold golden_nonce_val, be32toh, store_u32. by destruct host_order. Qed.

End ByteOrderFacts.

(** ** [lowest_pow2] and [log_2] *)

Lemma lowest_pow2_unfold C :
  lowest_pow2 C
  = if C <=? 1 then 1 else if C <=? 2 then 2 else if C <=? 4 then 4
    else if C <=? 8 then 8 else if C <=? 16 then 16 else if C <=? 32 then 32
    else if C <=? 64 then 64 else if C <=? 128 then 128
    else if C <=? 256 then 256 else if C <=? 512 then 512 else 1024.
Proof.
  cbv -[Z.leb].
  repeat match goal with
         | |- context [C <=? ?i] => destruct (C <=? i)
         end; reflexivity.
Qed.

(** The ten rounds of fuel are never used up. *)
Lemma lowest_pow2_total C : lowest_pow2_loop 10 C 1 = Some (lowest_pow2 C).
Proof.
  rewrite lowest_pow2_unfold. cbv -[Z.leb].
  repeat match goal with
         | |- context [C <=? ?i] => destruct (C <=? i)
         end; reflexivity.
Qed.

Lemma lowest_pow2_spec C :
  (exists k, 0 <= k <= 10 /\ lowest_pow2 C = 2 ^ k)
  /\ (C <= 1024 -> C <= lowest_pow2 C)
  /\ (1024 < C -> lowest_pow2 C = 1024)
  /\ (lowest_pow2 C = 1 \/ lowest_pow2 C / 2 < C).
Proof.
  rewrite lowest_pow2_unfold.
  repeat match goal with
         | |- context [C <=? ?i] => destruct (Z.leb_spec C i)
         end;
    (split; [|split; [|split]]; [| lia | lia | ]).
  all: try (right; change (2 / 2) with 1; change (4 / 2) with 2;
            change (8 / 2) with 4; change (16 / 2) with 8;
            change (32 / 2) with 16; change (64 / 2) with 32;
            change (128 / 2) with 64; change (256 / 2) with 128;
            change (512 / 2) with 256; change (1024 / 2) with 512; lia).
  all: try (left; reflexivity).
  all: first [ exists 0; split; [lia | reflexivity]
             | exists 1; split; [lia | reflexivity]
             | exists 2; split; [lia | reflexivity]
             | exists 3; split; [lia | reflexivity]
             | exists 4; split; [lia | reflexivity]
             | exists 5; split; [lia | reflexivity]
             | exists 6; split; [lia | reflexivity]
             | exists 7; split; [lia | reflexivity]
             | exists 8; split; [lia | reflexivity]
             | exists 9; split; [lia | reflexivity]
             | exists 10; split; [lia | reflexivity] ].
Qed.

Lemma log_2_loop_spec fuel : forall v x,
  0 < v < 2 ^ Z.of_nat fuel -> log_2_loop fuel v x = x + Z.log2 v.
Proof.
  induction fuel as [|fuel IH]; intros v x Hv.
  - cbn in Hv. lia.
  - cbn [log_2_loop]. destruct (Z.ltb_spec 1 v) as [H1|H1].
    + rewrite IH.
      * rewrite Z.log2_shiftr by lia.
        assert (1 <= Z.log2 v) by (apply Z.log2_le_pow2; cbn; lia). lia.
      * rewrite Z.shiftr_div_pow2 by lia. change (2 ^ 1) with 2.
        replace (Z.of_nat (S fuel)) with (Z.of_nat fuel + 1) in Hv by lia.
        rewrite Z.pow_add_r in Hv by lia.
        split; [apply Z.div_str_pos; lia | apply Z.div_lt_upper_bound; lia].
    + replace v with 1 by lia. cbn. lia.
Qed.

(** On a positive [int], [log_2] is the binary logarithm rounded down. *)
Lemma log_2_spec v : 0 < v < 2 ^ 31 -> log_2 v = Z.log2 v.
Proof.
  intros Hv. unfold log_2. rewrite log_2_loop_spec; [lia|].
  change (Z.of_nat 32) with 32. lia.
Qed.

Lemma log_2_pow2 k : 0 <= k <= 30 -> log_2 (2 ^ k) = k.
Proof.
  intros Hk. rewrite log_2_spec.
  - apply Z.log2_pow2. lia.
  - split; [apply Z.pow_pos_nonneg; lia | apply Z.pow_lt_mono_r; lia].
Qed.

(** ** Detection *)

Section DetectionFacts.
Context `{ZeusHeader}.

(** What a registered board looks like. *)
Lemma detect_register_true opts env M fc g info :
  detect_register opts env M fc g = Some (DetectTrue info) ->
  let d := u64 (u64 (g * u64 ZEUS_CHIP_CORES) * u64 (opt_zeus_chips_count opts)) in
  d <> 0 /\ Z.land M (M - 1) = 0
  /\ exists rc,
       info = new_info opts M fc g (4294967296 / d)
                ((4294967296 * 1000000 / d) mod 1000000) rc.
Proof.
  unfold detect_register, u64_div, u64_rem. cbn zeta.
  set (d := u64 (u64 (g * u64 ZEUS_CHIP_CORES) * u64 (opt_zeus_chips_count opts))).
  destruct (calloc_cgpu_ok env); cbn [negb]; [|done].
  destruct (calloc_info_ok env); cbn [negb]; [|done].
  destruct (Z.eqb_spec d 0) as [|Hd]; [done|]. cbn [mbind option_bind].
  change (1000000 =? 0) with false. cbn [mbind option_bind].
  destruct (int_mul _ _) as [cc|]; [|done]. cbn [mbind option_bind].
  destruct (u64 (u64 (u64 cc * g) * 2) =? 0); [done|]. cbn [mbind option_bind].
  destruct (Z.eqb_spec (Z.land M (M - 1)) 0) as [HM|]; [|done]. cbn [negb].
  destruct (add_cgpu_ok env); [|done]. cbn [negb].
  intros [= <-]. eauto.
Qed.

Lemma zeus_detect_one_true opts env G p info G' p' lg :
  zeus_detect_one opts env G p = Some (DetectTrue info, G', p', lg) ->
  let M := if G <? opt_zeus_chips_count opts
           then lowest_pow2 (opt_zeus_chips_count opts) else G in
  G' = M /\ exists fc g, detect_register opts env M fc g = Some (DetectTrue info).
Proof.
  unfold zeus_detect_one. cbn zeta.
  set (M := if G <? opt_zeus_chips_count opts
            then lowest_pow2 (opt_zeus_chips_count opts) else G).
  destruct (open_fd env =? -1); [done|].
  destruct (zeus_clk_to_freqcode (opt_zeus_chip_clk opts)) as [log1 [fc|]]; [|done].
  cbn [mbind option_bind].
  destruct (if 150 <? _ then _ else _) as [log2 [fci|]]; [|done].
  cbn [mbind option_bind].
  destruct (write_twice _ _ _) as [p1|]; [|done]. cbn [mbind option_bind].
  destruct (write_twice _ _ _) as [p2|]; [|done]. cbn [mbind option_bind].
  destruct (opt_zeus_nocheck_golden opts); cbn [negb].
  - destruct (Double.to_u64 _) as [g|]; [|done]. cbn [mbind option_bind].
    destruct (detect_register _ _ _ _ _) as [r|] eqn:Er; [|done].
    cbn [mbind option_bind]. intros [= -> <- <- <-]. eauto.
  - destruct (zeus_write _ _ _ _) as [[? p3]|]; [|done]. cbn [mbind option_bind].
    destruct (zeus_read _ _ _ _ _) as [[[? nb] p4]|]; [|done].
    cbn [mbind option_bind].
    destruct (negb _); [done|].
    destruct (Double.to_u64 _) as [g|]; [|done]. cbn [mbind option_bind].
    destruct (detect_register _ _ _ _ _) as [r|] eqn:Er; [|done].
    cbn [mbind option_bind]. intros [= -> <- <- <-]. eauto.
Qed.

Lemma detect_register_not_false opts env M fc g :
  detect_register opts env M fc g <> Some DetectFalse.
Proof.
  unfold detect_register. cbn zeta.
  repeat match goal with
         | |- context [mbind _ ?x] => destruct x; cbn [mbind option_bind]
         | |- context [if ?b then _ else _] => destruct b
         end; congruence.
Qed.

Lemma write_twice_rd fd p ob p' :
  write_twice fd p ob = Some p' -> rd_script p' = rd_script p.
Proof.
  unfold write_twice.
  destruct (zeus_write fd p ob _) as [[? p1]|] eqn:E1; [|done].
  cbn [mbind option_bind].
  destruct (zeus_write fd p1 ob _) as [[? p2]|] eqn:E2; [|done].
  cbn [mbind option_bind]. intros [= <-].
  apply zeus_write_rd in E1, E2. congruence.
Qed.

Lemma line_bytes_rd p p' : rd_script p' = rd_script p -> line_bytes p -> line_bytes p'.
Proof. unfold line_bytes. by intros ->. Qed.

(** What [zeus_read] returns and leaves in the buffer depends on the
    line through what arrives on it only. *)
Lemma zeus_read_loop_line fuel :
  forall fd p q buf len read_count total rc,
  rd_script q = rd_script p ->
  zeus_read_loop fuel fd q buf len read_count total rc
  = (fun '(ret, buf', p') =>
       (ret, buf', {| wire := wire q; wr_script := wr_script q;
                      rd_script := rd_script p' |}))
      <$> zeus_read_loop fuel fd p buf len read_count total rc.
Proof.
  assert (Hsame : forall q p : serial, rd_script q = rd_script p ->
            q = {| wire := wire q; wr_script := wr_script q;
                   rd_script := rd_script p |}).
  { intros [] ? E. cbn in *. by rewrite E. }
  induction fuel as [|fuel IH]; intros fd p q buf len read_count total rc Hq;
    cbn [zeus_read_loop]; destruct (total <? len).
  - done.
  - cbn. by rewrite <- (Hsame q p Hq).
  - assert (Hos : os_read fd q len
                = ((os_read fd p len).1,
                   {| wire := wire q; wr_script := wr_script q;
                      rd_script := rd_script (os_read fd p len).2 |})).
    { unfold os_read. destruct (fd <? 0);
        [cbn; by rewrite <- (Hsame q p Hq)|].
      rewrite Hq. destruct (rd_script p) as [|[c|] rest] eqn:Es; cbn; try done.
      do 2 f_equal. apply Hsame. congruence. }
    rewrite Hos. destruct (os_read fd p len) as [[ret got] p1]. cbn [fst snd].
    destruct (ret <? 0); [reflexivity|].
    destruct (_ && _); [reflexivity|].
    destruct (_ <? _); [reflexivity|].
    rewrite (IH fd p1 {| wire := wire q; wr_script := wr_script q;
                         rd_script := rd_script p1 |}) by reflexivity.
    destruct (zeus_read_loop fuel fd p1 _ _ _ _ _) as [[[? ?] ?]|];
      reflexivity.
  - cbn. by rewrite <- (Hsame q p Hq).
Qed.

Lemma zeus_read_line fd p q buf len read_count ret buf' q' :
  rd_script q = rd_script p ->
  zeus_read fd q buf len read_count = Some (ret, buf', q') ->
  exists p',
    zeus_read fd p buf len read_count = Some (ret, buf', p')
    /\ rd_script q' = rd_script p'.
Proof.
  intros Hq. unfold zeus_read. rewrite (zeus_read_loop_line _ fd p q) by done.
  destruct (zeus_read_loop _ fd p _ _ _ _ _) as [[[r b] p']|]; [|done].
  cbn. intros [= <- <- <-]. by exists p'.
Qed.

(** C3 (as amended): when the golden test is run (the port opens and the
    test is not skipped), the four bytes [zeus_read] delivers from the
    line the detection was given are decoded as a big-endian number and
    compared with [be32toh 0x268d0300], which is 0x00038D26 on a
    little-endian host and 0x268D0300 on a big-endian one, and never
    0x000D2668; the detection returns false exactly when the decoded
    number differs from that constant. *)
Theorem golden_test_decides opts env G p r G' p' lg :
  opt_zeus_nocheck_golden opts = false -> open_fd env <> -1 -> line_bytes p ->
  zeus_detect_one opts env G p = Some (r, G', p', lg) ->
  exists ret nonce_bin p0,
    zeus_read (open_fd env) p [0; 0; 0; 0] ZEUS_EVENT_PKT_LEN 100
    = Some (ret, nonce_bin, p0)
    /\ rd_script p' = rd_script p0
    /\ length nonce_bin = 4%nat
    /\ (r = DetectFalse <-> be_int nonce_bin <> golden_nonce_val)
    /\ golden_nonce_val
       = match host_order with
         | LittleEndian => 0x00038D26
         | BigEndian => 0x268D0300
         end
    /\ golden_nonce_val <> 0x000D2668.
Proof.
  intros Hcheck Hfd Hp. unfold zeus_detect_one. cbn zeta. rewrite Hcheck.
  destruct (Z.eqb_spec (open_fd env) (-1)); [done|].
  destruct (zeus_clk_to_freqcode (opt_zeus_chip_clk opts)) as [log1 [fc|]]; [|done].
  cbn [mbind option_bind].
  destruct (if 150 <? _ then _ else _) as [log2 [fci|]]; [|done].
  cbn [mbind option_bind negb].
  destruct (write_twice _ p _) as [p1|] eqn:E1; [|done]. cbn [mbind option_bind].
  destruct (write_twice _ p1 _) as [p2|] eqn:E2; [|done]. cbn [mbind option_bind].
  destruct (zeus_write _ p2 _ _) as [[? p3]|] eqn:E3; [|done].
  cbn [mbind option_bind].
  destruct (zeus_read _ p3 _ _ _) as [[[ret nb] p4]|] eqn:E4; [|done].
  cbn [mbind option_bind].
  apply write_twice_rd in E1, E2. apply zeus_write_rd in E3.
  assert (Hp3 : line_bytes p3)
    by (apply (line_bytes_rd p); [congruence | done]).
  destruct (zeus_read_inv _ _ [0; 0; 0; 0] _ _ _ _ _ Hp3
              ltac:(repeat constructor; unfold is_byte; lia) E4)
    as (Hnb & Hlen & _).
  destruct (zeus_read_line _ p p3 _ _ _ _ _ _ ltac:(congruence) E4)
    as (p0 & E0 & Hrd).
  rewrite be32toh_load_u32 by done.
  assert (Hg : golden_nonce_val <> 0x000D2668)
    by (rewrite golden_nonce_val_eq; destruct host_order; lia).
  destruct (Z.eqb_spec (be_int nb) golden_nonce_val) as [Eq|Ne]; cbn [negb].
  - destruct (Double.to_u64 _) as [g|]; [|done]. cbn [mbind option_bind].
    destruct (detect_register _ _ _ _ _) as [r0|] eqn:Er; [|done].
    cbn [mbind option_bind]. intros [= <- <- <- <-].
    exists ret, nb, p0. repeat split; try done.
    + intros ->. by apply detect_register_not_false in Er.
    + apply golden_nonce_val_eq.
  - intros [= <- <- <- <-]. exists ret, nb, p0. repeat split; try done.
    apply golden_nonce_val_eq.
Qed.

(** C4 (as amended): for every positive declared chips-count [C], in a
    process whose maximum is still the initial 1 or was set by an earlier
    detection with the same [C], the detector sets [chips_count_max] to
    [lowest_pow2 C]; afterwards [chips_count_max] is a power of two and
    [chips_bit_num] is its logarithm; [C <= chips_count_max] holds for
    [C <= 1024], while above 1024 [chips_count_max] is capped at 1024. *)
Theorem detect_chips_count_max opts env G p info G' p' lg :
  1 <= opt_zeus_chips_count opts ->
  G = 1 \/ G = lowest_pow2 (opt_zeus_chips_count opts) ->
  zeus_detect_one opts env G p = Some (DetectTrue info, G', p', lg) ->
  chips_count_max info = lowest_pow2 (opt_zeus_chips_count opts)
  /\ G' = chips_count_max info
  /\ is_pow2 (chips_count_max info)
  /\ chips_bit_num info = Z.log2 (chips_count_max info)
  /\ 2 ^ chips_bit_num info = chips_count_max info
  /\ (opt_zeus_chips_count opts <= 1024 ->
      opt_zeus_chips_count opts <= chips_count_max info)
  /\ (1024 < opt_zeus_chips_count opts -> chips_count_max info = 1024).
Proof.
  intros HC HG Hd.
  apply zeus_detect_one_true in Hd. cbn zeta in Hd.
  destruct Hd as [-> (fc & g & Hr)].
  apply detect_register_true in Hr. cbn zeta in Hr.
  destruct Hr as (_ & _ & rc & Ei); subst info. cbn [chips_count_max chips_bit_num new_info].
  set (C := opt_zeus_chips_count opts) in *.
  destruct (lowest_pow2_spec C) as ((k & Hk & Ek) & Hle & Hcap & _).
  assert (EM : (if G <? C then lowest_pow2 C else G) = lowest_pow2 C).
  { destruct (Z.ltb_spec G C); [done|]. destruct HG as [-> | ->]; [|done].
    assert (C = 1) as -> by lia. reflexivity. }
  rewrite EM, Ek. rewrite log_2_pow2, Z.log2_pow2 by lia.
  repeat split; try done; try lia.
  exists k. split; [lia | reflexivity].
Qed.

(** Division of a multiple: the quotient by [D] of [X * K] splits into the
    whole part of [X / D] and the part the remainder contributes. *)
Lemma div_scaled X K D :
  0 <= X -> 0 < K -> 0 < D ->
  X * K / D = X / D * K + X mod D * K / D /\ 0 <= X mod D * K / D < K.
Proof.
  intros HX HK HD.
  pose proof (Z.div_mod X D ltac:(lia)) as E.
  pose proof (Z.mod_pos_bound X D HD) as Hr.
  split.
  - rewrite E at 1.
    replace ((D * (X / D) + X mod D) * K) with (X / D * K * D + X mod D * K)
      by lia.
    rewrite Z.div_add_l by lia. done.
  - split; [apply Z.div_pos; nia | apply Z.div_lt_upper_bound; nia].
Qed.

(** C5 (as amended): after a detection that leaves the speed [g >= 1] for a
    declared chips-count [C >= 1] with [g * 8 * C] below [2 ^ 64],
    [cores_per_chip] is 8 and [work_timeout] is exactly [2 ^ 32 / (g*8*C)]
    seconds cut to whole microseconds: [tv_sec] is the whole seconds and
    [tv_usec], taken modulo [10 ^ 6], is the microsecond part of the
    remainder. *)
Theorem work_timeout_exact opts env G p info G' p' lg :
  zeus_detect_one opts env G p = Some (DetectTrue info, G', p', lg) ->
  1 <= golden_speed_per_core info ->
  1 <= opt_zeus_chips_count opts ->
  golden_speed_per_core info * 8 * opt_zeus_chips_count opts < 2 ^ 64 ->
  let D := golden_speed_per_core info * cores_per_chip info * chips_count info in
  cores_per_chip info = 8
  /\ chips_count info = opt_zeus_chips_count opts
  /\ tv_sec (work_timeout info) = 2 ^ 32 / D
  /\ tv_usec (work_timeout info) = (2 ^ 32 * 10 ^ 6 / D) mod 10 ^ 6
  /\ tv_sec (work_timeout info) * 10 ^ 6 + tv_usec (work_timeout info)
     = 2 ^ 32 * 10 ^ 6 / D
  /\ tv_usec (work_timeout info) = 2 ^ 32 mod D * 10 ^ 6 / D.
Proof.
  intros Hd. apply zeus_detect_one_true in Hd. cbn zeta in Hd.
  destruct Hd as (_ & fc & g & Hr).
  apply detect_register_true in Hr. cbn zeta in Hr.
  destruct Hr as (_ & _ & rc & Ei); subst info.
  cbn [golden_speed_per_core cores_per_chip chips_count work_timeout tv_sec
       tv_usec new_info].
  set (C := opt_zeus_chips_count opts). unfold ZEUS_CHIP_CORES.
  intros Hg HC Hfit.
  assert (Ed : u64 (u64 (g * u64 8) * u64 C) = g * 8 * C).
  { rewrite (u64_small 8), (u64_small C), (u64_small (g * 8)) by lia.
    apply u64_small. lia. }
  rewrite Ed. set (D := g * 8 * C).
  change 4294967296 with (2 ^ 32). change 1000000 with (10 ^ 6).
  destruct (div_scaled (2 ^ 32) (10 ^ 6) D) as [E Hb]; [lia | lia | lia |].
  assert (Eu : (2 ^ 32 * 10 ^ 6 / D) mod 10 ^ 6 = 2 ^ 32 mod D * 10 ^ 6 / D).
  { rewrite E, Z.add_comm, Z_mod_plus_full. apply Z.mod_small. done. }
  repeat split; try done. rewrite Eu. lia.
Qed.

End DetectionFacts.

Lemma max_reachable_pow2 G :
  max_reachable G -> exists k, 0 <= k <= 10 /\ G = 2 ^ k.
Proof.
  induction 1 as [|G C _ IH].
  - exists 0. split; [lia | reflexivity].
  - destruct (G <? C); [|done].
    destruct (lowest_pow2_spec C) as [Hk _]. done.
Qed.

Section ReachableMax.
Context `{ZeusHeader}.

Lemma zeus_detect_one_max opts env G p r G' p' lg :
  zeus_detect_one opts env G p = Some (r, G', p', lg) ->
  G' = if G <? opt_zeus_chips_count opts
       then lowest_pow2 (opt_zeus_chips_count opts) else G.
Proof.
  unfold zeus_detect_one. cbn zeta.
  destruct (open_fd env =? -1); [by intros [= _ <- _ _]|].
  destruct (zeus_clk_to_freqcode (opt_zeus_chip_clk opts)) as [log1 [fc|]]; [|done].
  cbn [mbind option_bind].
  destruct (if 150 <? _ then _ else _) as [log2 [fci|]]; [|done].
  cbn [mbind option_bind].
  destruct (write_twice _ p _) as [p1|]; [|done]. cbn [mbind option_bind].
  destruct (write_twice _ p1 _) as [p2|]; [|done]. cbn [mbind option_bind].
  destruct (opt_zeus_nocheck_golden opts); cbn [negb].
  - destruct (Double.to_u64 _) as [g|]; [|done]. cbn [mbind option_bind].
    destruct (detect_register _ _ _ _ _) as [r0|]; [|done].
    cbn [mbind option_bind]. by intros [= _ <- _ _].
  - destruct (zeus_write _ p2 _ _) as [[? p3]|]; [|done]. cbn [mbind option_bind].
    destruct (zeus_read _ p3 _ _ _) as [[[? nb] p4]|]; [|done].
    cbn [mbind option_bind].
    destruct (negb _); [by intros [= _ <- _ _]|].
    destruct (Double.to_u64 _) as [g|]; [|done]. cbn [mbind option_bind].
    destruct (detect_register _ _ _ _ _) as [r0|]; [|done].
    cbn [mbind option_bind]. by intros [= _ <- _ _].
Qed.

(** Whatever the earlier detections were, the process-wide maximum stays
    a power of two up to 1024, and a board that is registered carries it
    together with its logarithm. *)
Lemma detect_keeps_power_of_two opts env G p r G' p' lg :
  max_reachable G ->
  zeus_detect_one opts env G p = Some (r, G', p', lg) ->
  max_reachable G'
  /\ forall info, r = DetectTrue info ->
       chips_count_max info = G'
       /\ is_pow2 (chips_count_max info)
       /\ chips_bit_num info = Z.log2 (chips_count_max info)
       /\ chips_count_max info <= 1024.
Proof.
  intros HG Hd. pose proof (zeus_detect_one_max _ _ _ _ _ _ _ _ Hd) as EG.
  assert (HG' : max_reachable G') by (rewrite EG; by constructor).
  split; [done|]. intros info ->.
  apply zeus_detect_one_true in Hd. cbn zeta in Hd.
  destruct Hd as [_ (fc & g & Hr)].
  apply detect_register_true in Hr. cbn zeta in Hr.
  destruct Hr as (_ & _ & rc & ->). cbn [chips_count_max chips_bit_num new_info].
  rewrite <- EG. destruct (max_reachable_pow2 _ HG') as (k & Hk & ->).
  rewrite log_2_pow2, Z.log2_pow2 by lia.
  repeat split; try done.
  - exists k. split; [lia | reflexivity].
  - change 1024 with (2 ^ 10). apply Z.pow_le_mono_r; lia.
Qed.

End ReachableMax.


Lemma golden_test_decides_witness :
  opt_zeus_nocheck_golden sample_opts = false
  /\ open_fd sample_env <> -1
  /\ line_bytes (answering [0x00; 0x03; 0x8D; 0x26])
  /\ (exists r G' p' lg,
        @zeus_detect_one header_le sample_opts sample_env 1
          (answering [0x00; 0x03; 0x8D; 0x26]) = Some (r, G', p', lg)
        /\ r <> DetectFalse)
  /\ @golden_nonce_val header_le = 0x00038D26.
Proof.
  assert (Hp : line_bytes (answering [0x00; 0x03; 0x8D; 0x26]))
    by (repeat constructor; unfold is_byte; lia).
  split; [reflexivity|]. split; [cbn; lia|]. split; [exact Hp|].
  destruct (@zeus_detect_one header_le sample_opts sample_env 1
              (answering [0x00; 0x03; 0x8D; 0x26]))
    as [[[[r G'] p'] lg]|] eqn:E; [|vm_compute in E; discriminate].
  destruct (@golden_test_decides header_le sample_opts sample_env 1 _ r G' p' lg
              eq_refl ltac:(cbn; lia) Hp E)
    as (ret & nb & p0 & Er & _ & _ & Hiff & Hg & _).
  split; [|exact Hg].
  exists r, G', p', lg. split; [reflexivity|].
  intros Hr. apply Hiff in Hr. apply Hr.
  vm_compute in Er. injection Er as _ <- _. rewrite Hg. reflexivity.
Defined.

(** The constant 0x000D2668 is not the one the detector
    compares with: on either host the bytes 00 0D 26 68 decode to
    0x000D2668 and the detection fails, and the bytes that decode to the
    constant of the code pass although they differ from 0x000D2668. *)
Lemma golden_constant_is_not_000D2668 :
  be_int [0x00; 0x0D; 0x26; 0x68] = 0x000D2668
  /\ detect_outcome
       (@zeus_detect_one header_le sample_opts sample_env 1
          (answering [0x00; 0x0D; 0x26; 0x68])) = Some DetectFalse
  /\ detect_outcome
       (@zeus_detect_one header_be sample_opts sample_env 1
          (answering [0x00; 0x0D; 0x26; 0x68])) = Some DetectFalse
  /\ be_int [0x00; 0x03; 0x8D; 0x26] <> 0x000D2668
  /\ is_Some (detected_board
       (@zeus_detect_one header_le sample_opts sample_env 1
          (answering [0x00; 0x03; 0x8D; 0x26]))).
Proof.
  split; [reflexivity|]. split; [vm_compute; reflexivity|].
  split; [vm_compute; reflexivity|]. split; [vm_compute; discriminate|].
  vm_compute. eauto.
Qed.

Lemma detect_chips_count_max_witness :
  1 <= opt_zeus_chips_count sample_opts
  /\ exists info,
       detected_board
         (@zeus_detect_one header_le sample_opts sample_env 1
            (answering [0x00; 0x03; 0x8D; 0x26])) = Some info
       /\ chips_count_max info = 8 /\ chips_bit_num info = 3.
Proof.
  split; [cbn; lia|].
  destruct (@zeus_detect_one header_le sample_opts sample_env 1
              (answering [0x00; 0x03; 0x8D; 0x26]))
    as [[[[[| |info] G'] p'] lg]|] eqn:E;
    try (vm_compute in E; discriminate).
  exists info. split; [reflexivity|].
  destruct (@detect_chips_count_max header_le sample_opts sample_env 1 _ info
              G' p' lg ltac:(cbn; lia) (or_introl eq_refl) E)
    as (EM & _ & _ & Eb & _).
  split; [exact EM|]. rewrite Eb, EM. reflexivity.
Defined.

(** With 1025 declared chips the detection succeeds, [lowest_pow2] is
    capped at 1024, and the declared count exceeds [chips_count_max]. *)
Lemma detect_1025_chips_exceed_max :
  let r := @zeus_detect_one header_le
             {| opt_zeus_chips_count := 1025; opt_zeus_chip_clk := 328;
                opt_zeus_nocheck_golden := true |}
             sample_env 1 sample_port in
  (chips_count <$> detected_board r) = Some 1025
  /\ (chips_count_max <$> detected_board r) = Some (lowest_pow2 1025)
  /\ (chips_count_max <$> detected_board r) = Some 1024
  /\ ~ (1025 <= 1024).
Proof.
  cbn zeta. split; [vm_compute; reflexivity|]. split; [vm_compute; reflexivity|].
  split; [vm_compute; reflexivity|]. lia.
Qed.

Lemma work_timeout_exact_witness :
  exists info,
    detected_board
      (@zeus_detect_one header_le sample_opts sample_env 1
         (answering [0x00; 0x03; 0x8D; 0x26])) = Some info
    /\ 1 <= golden_speed_per_core info
    /\ 1 <= opt_zeus_chips_count sample_opts
    /\ golden_speed_per_core info * 8 * opt_zeus_chips_count sample_opts < 2 ^ 64
    /\ tv_sec (work_timeout info)
       = 2 ^ 32 / (golden_speed_per_core info * cores_per_chip info
                   * chips_count info)
    /\ work_timeout info = {| tv_sec := 1329; tv_usec := 151594 |}.
Proof.
  destruct (@zeus_detect_one header_le sample_opts sample_env 1
              (answering [0x00; 0x03; 0x8D; 0x26]))
    as [[[[[| |info] G'] p'] lg]|] eqn:E;
    try (vm_compute in E; discriminate).
  exists info. split; [reflexivity|].
  assert (Eg : golden_speed_per_core info = 67320
               /\ work_timeout info = {| tv_sec := 1329; tv_usec := 151594 |}).
  { vm_compute in E. injection E as <- _ _ _. split; reflexivity. }
  destruct Eg as [Eg Ew].
  assert (H1 : 1 <= golden_speed_per_core info) by (rewrite Eg; lia).
  assert (H2 : 1 <= opt_zeus_chips_count sample_opts) by (cbn; lia).
  assert (H3 : golden_speed_per_core info * 8
               * opt_zeus_chips_count sample_opts < 2 ^ 64)
    by (rewrite Eg; cbn; lia).
  split; [exact H1|]. split; [exact H2|]. split; [exact H3|].
  split; [|exact Ew].
  apply (@work_timeout_exact header_le sample_opts sample_env 1 _ info G' p' lg
           E H1 H2 H3).
Defined.

(** With 2^28 + 1 declared chips at a speed of 2^33 hashes per second the
    64-bit product wraps to 2^36: the detector stores 62500 microseconds
    where [2 ^ 32 / (g * 8 * C)] seconds are less than one microsecond. *)
Lemma work_timeout_wraps :
  let opts := {| opt_zeus_chips_count := 268435457;
                 opt_zeus_chip_clk := 100663296;
                 opt_zeus_nocheck_golden := true |} in
  let r := @zeus_detect_one header_le opts sample_env 1 sample_port in
  (golden_speed_per_core <$> detected_board r) = Some (2 ^ 33)
  /\ (cores_per_chip <$> detected_board r) = Some 8
  /\ (chips_count <$> detected_board r) = Some 268435457
  /\ (work_timeout <$> detected_board r)
     = Some {| tv_sec := 0; tv_usec := 62500 |}
  /\ (2 ^ 32 * 10 ^ 6 / (2 ^ 33 * 8 * 268435457)) mod 10 ^ 6 = 0.
Proof.
  cbn zeta. repeat split; vm_compute; reflexivity.
Qed.

(** The sample detection end to end: the five packets go out (420
    bytes), the golden nonce comes back after 50 ms, and the board is
    registered with 67320 hashes per second and core. *)
Example detection_registers_sample :
  (fun '(r, G, p, lg) => (r, G, length (wire p), lg))
    <$> @zeus_detect_one header_le sample_opts sample_env 1
          (answering [0x00; 0x03; 0x8D; 0x26])
  = Some (DetectTrue sample_info, 8, 420%nat, [InfoDetectAttempt]).
Proof. vm_compute. reflexivity. Qed.

(** ** The response of the board *)

(** The core index is a 3-bit number, whatever the nonce. *)
Lemma nonce_core_bound nonce : 0 <= nonce_core nonce < ZEUS_CHIP_CORES.
Proof.
  unfold nonce_core, ZEUS_CHIP_CORES. rewrite Z.shiftr_land.
  change (Z.shiftr 0xe0000000 29) with (Z.ones 3).
  rewrite Z.land_ones by lia. apply Z.mod_pos_bound. lia.
Qed.

Lemma nonce_core_top_bits nonce :
  0 <= nonce < 2 ^ 32 -> nonce_core nonce = nonce / 2 ^ 29.
Proof.
  intros Hn. unfold nonce_core. rewrite Z.shiftr_land.
  change (Z.shiftr 0xe0000000 29) with (Z.ones 3).
  rewrite Z.land_ones, Z.shiftr_div_pow2 by lia. apply Z.mod_small.
  split; [apply Z.div_pos; lia | apply Z.div_lt_upper_bound; lia].
Qed.

Section Response.
Context `{ZeusHeader}.

(** The message about a corrupt nonce is logged exactly when a response
    was read for a work in the slot and the chip index is out of range. *)
Lemma corrupt_nonce_logged evtpkt info h p ok info' h' p' lg :
  zeus_read_response evtpkt info h p = Some (ok, info', h', p', lg) ->
  In InfoCorruptNonce lg <->
  exists ret nb w,
    zeus_read (device_fd info) p evtpkt ZEUS_EVENT_PKT_LEN 1
    = Some (ret, nb, p')
    /\ 0 < ret /\ current_work info = Some w
    /\ ZEUS_MAX_CHIPS
       <= chip_index (be32toh (load_u32 nb)) (chips_bit_num info).
Proof.
  intros E. unfold zeus_read_response in E.
  destruct (zeus_read _ _ _ _ _) as [[[ret nb] p1]|] eqn:Er; [|done].
  cbn [mbind option_bind] in E.
  destruct (Z.leb_spec ret 0) as [Hret|Hret].
  { destruct (zeus_purge_work info h). injection E as <- <- <- <- <-.
    split; [cbn; intros [?|[]]; done|].
    intros (r0 & nb0 & w0 & Eq & Hpos & _). simplify_eq. lia. }
  destruct (current_work info) as [w|] eqn:Ew.
  2:{ injection E as <- <- <- <- <-. split; [intros []|].
      intros (? & ? & ? & _ & _ & ? & _). done. }
  destruct (submit_nonce h w _) as [valid h1].
  cbn [chips_bit_num set_workdone] in E.
  pose proof (nonce_core_bound (be32toh (load_u32 nb))) as Hcore.
  replace (nonce_core (be32toh (load_u32 nb)) <? ZEUS_CHIP_CORES) with true in E
    by (symmetry; apply Z.ltb_lt; lia).
  rewrite andb_true_r in E.
  destruct (Z.ltb_spec (chip_index (be32toh (load_u32 nb)) (chips_bit_num info))
              ZEUS_MAX_CHIPS) as [Hchip|Hchip].
  - injection E as <- <- <- <- <-. split; [intros []|].
    intros (r0 & nb0 & w0 & Eq & _ & _ & Hc). simplify_eq. lia.
  - injection E as <- <- <- <- <-. split; [|intros _; by left].
    intros _. exists ret, nb, w. done.
Qed.

(** C10: the core index computed in [zeus_read_response] is
    [(nonce & 0xE0000000) >> 29], the top three bits of the nonce, hence
    below [ZEUS_CHIP_CORES = 8] for every nonce; and the branch that logs
    a corrupt nonce is taken exactly when a response was read for a work
    in the slot and the chip index is not below [ZEUS_MAX_CHIPS]. *)
Theorem corrupt_nonce_only_by_chip evtpkt info h p ok info' h' p' lg :
  zeus_read_response evtpkt info h p = Some (ok, info', h', p', lg) ->
  (forall nonce, 0 <= nonce_core nonce < ZEUS_CHIP_CORES)
  /\ (forall nonce, 0 <= nonce < 2 ^ 32 -> nonce_core nonce = nonce / 2 ^ 29)
  /\ (In InfoCorruptNonce lg <->
      exists ret nb w,
        zeus_read (device_fd info) p evtpkt ZEUS_EVENT_PKT_LEN 1
        = Some (ret, nb, p')
        /\ 0 < ret /\ current_work info = Some w
        /\ ZEUS_MAX_CHIPS
           <= chip_index (be32toh (load_u32 nb)) (chips_bit_num info)).
Proof.
  intros E.
  split; [exact nonce_core_bound|].
  split; [exact nonce_core_top_bits|].
  exact (corrupt_nonce_logged _ _ _ _ _ _ _ _ _ E).
Qed.

(** With at most ten address bits and room for 1024 chips the branch is
    never taken at all. *)
Lemma corrupt_nonce_unreachable evtpkt info h p ok info' h' p' lg :
  0 <= chips_bit_num info <= 10 -> 1024 <= ZEUS_MAX_CHIPS ->
  zeus_read_response evtpkt info h p = Some (ok, info', h', p', lg) ->
  ~ In InfoCorruptNonce lg.
Proof.
  intros Hb Hmax E Hin.
  apply (corrupt_nonce_logged _ _ _ _ _ _ _ _ _ E) in Hin.
  destruct Hin as (ret & nb & w & Er & _ & _ & Hchip).
  pose proof (chip_index_bound (be32toh (load_u32 nb)) _ Hb) as Hlt.
  assert (2 ^ chips_bit_num info <= 2 ^ 10) by (apply Z.pow_le_mono_r; lia).
  lia.
Qed.

End Response.

Lemma corrupt_nonce_only_by_chip_witness :
  (exists info' h' p' lg,
     @zeus_read_response header_le [0; 0; 0; 0] working_info sample_host
       (answering [0x80; 0x00; 0x00; 0x01])
     = Some (true, info', h', p', lg)
     /\ submitted h' = [(sample_work, 0x80000001)]
     /\ nonce_core 0x80000001 = 4
     /\ ~ In InfoCorruptNonce lg)
  /\ (exists info' h' p' lg nb,
        @zeus_read_response header_four [0; 0; 0; 0] working_info sample_host
          (answering [0x1C; 0x00; 0x00; 0x00])
        = Some (true, info', h', p', lg)
        /\ submitted h' = [(sample_work, 0x1C000000)]
        /\ nonce_core 0x1C000000 = 0
        /\ In InfoCorruptNonce lg
        /\ @be32toh header_four (@load_u32 header_four nb) = 0x1C000000
        /\ @ZEUS_MAX_CHIPS header_four
           <= chip_index (@be32toh header_four (@load_u32 header_four nb))
                (chips_bit_num working_info)).
Proof.
  split.
  - destruct (@zeus_read_response header_le [0; 0; 0; 0] working_info
                sample_host (answering [0x80; 0x00; 0x00; 0x01]))
      as [[[[[ok info'] h'] p'] lg]|] eqn:E; [|vm_compute in E; discriminate].
    destruct (@corrupt_nonce_only_by_chip header_le _ _ _ _ _ _ _ _ _ E)
      as (_ & Hc & Hiff).
    assert (Eok : ok = true /\ submitted h' = [(sample_work, 0x80000001)])
      by (vm_compute in E; injection E as <- _ <- _ _; done).
    destruct Eok as [-> Hsub].
    exists info', h', p', lg. split; [reflexivity|]. split; [exact Hsub|].
    split; [rewrite Hc by lia; reflexivity|].
    intros Hin. apply Hiff in Hin.
    destruct Hin as (ret & nb & w & _ & _ & _ & Hchip).
    pose proof (chip_index_bound (@be32toh header_le (@load_u32 header_le nb))
                  (chips_bit_num working_info) ltac:(vm_compute; split; congruence))
      as Hb.
    change (chips_bit_num working_info) with 3 in *.
    change (@ZEUS_MAX_CHIPS header_le) with 1024 in Hchip. lia.
  - destruct (@zeus_read_response header_four [0; 0; 0; 0] working_info
                sample_host (answering [0x1C; 0x00; 0x00; 0x00]))
      as [[[[[ok info'] h'] p'] lg]|] eqn:E; [|vm_compute in E; discriminate].
    destruct (@corrupt_nonce_only_by_chip header_four _ _ _ _ _ _ _ _ _ E)
      as (_ & Hc & Hiff).
    assert (Eok : ok = true /\ submitted h' = [(sample_work, 0x1C000000)]
                  /\ In InfoCorruptNonce lg)
      by (vm_compute in E; injection E as <- _ <- _ <-;
          split; [done|]; split; [done | by left]).
    destruct Eok as (-> & Hsub & Hin).
    destruct (proj1 Hiff Hin) as (ret & nb & w & Hread & _ & _ & Hchip).
    exists info', h', p', lg, nb. split; [reflexivity|]. split; [exact Hsub|].
    split; [rewrite Hc by lia; reflexivity|]. split; [exact Hin|].
    split; [|exact Hchip].
    vm_compute in Hread. injection Hread as _ <- _. reflexivity.
Defined.

(** ** Taking work from the host *)


(** The work that is installed has not been sent; the one that is
    discarded never enters the slot. *)
Lemma check_need_work_installs_unsent other info h r info' h' w :
  zeus_check_need_work other info h = (r, info', h') ->
  r = true -> current_work info' = Some w -> devflag w = false.
Proof.
  unfold zeus_check_need_work.
  destruct (current_work info); [by intros [= <- _ _]|].
  cbn [get_work]. destruct (current_work (other info)); [by intros [= <- _ _]|].
  intros [= _ <- _] _. cbn. by intros [= <-].
Qed.

(** ** The hash-rate estimate *)

Section Scanwork.
Context `{ZeusHeader}.

(** C8 (as amended): a call of [zeus_scanwork] whose product of the
    elapsed seconds since the previous call, the speed per core, the
    cores per chip and the chips count, computed in [double] and cut to
    the integer [e], is a value of [int64_t] returns [min (2^32 - 1) e]
    and stamps the time of the call; and whatever a call returns, the
    estimate never exceeds [2^32 - 1]. *)
Theorem zeus_scanwork_saturates now info :
  (forall e,
     Double.trunc (estimate_product now info) = Some e ->
     - 2 ^ 63 <= e < 2 ^ 63 ->
     zeus_scanwork now info
     = Some (Z.min (2 ^ 32 - 1) e, set_scanwork_time now info))
  /\ (forall est info',
        zeus_scanwork now info = Some (est, info') ->
        est <= 2 ^ 32 - 1 /\ info' = set_scanwork_time now info).
Proof.
  split.
  - intros e He Hfit.
    unfold zeus_scanwork, estimate_product in *. cbn zeta.
    cbn [scanwork_time golden_speed_per_core cores_per_chip chips_count
         set_scanwork_time].
    unfold Double.to_i64, Double.to_int. rewrite He. cbn [mbind option_bind].
    replace (- 2 ^ 63 <=? e) with true by (symmetry; apply Z.leb_le; lia).
    replace (e <=? 2 ^ 63 - 1) with true by (symmetry; apply Z.leb_le; lia).
    cbn [andb mbind option_bind].
    destruct (Z.ltb_spec 0xffffffff e); do 2 f_equal; lia.
  - intros est info'. unfold zeus_scanwork. cbn zeta.
    destruct (Double.to_i64 _) as [e|]; [|done]. cbn [mbind option_bind].
    intros [= <- <-]. split; [|done].
    destruct (Z.ltb_spec 0xffffffff e); lia.
Qed.

(** Whatever a call returns is at most [2^32 - 1]. *)
Lemma zeus_scanwork_bound now info est info' :
  zeus_scanwork now info = Some (est, info') -> est <= 2 ^ 32 - 1.
Proof.
  unfold zeus_scanwork. cbn zeta.
  destruct (Double.to_i64 _) as [e|]; [|done]. cbn [mbind option_bind].
  intros [= <- _]. destruct (Z.ltb_spec 0xffffffff e); lia.
Qed.

End Scanwork.

Lemma zeus_scanwork_saturates_witness :
  Double.trunc
    (@estimate_product header_le {| tv_sec := 100000; tv_usec := 0 |} sample_info)
  = Some 323136000000
  /\ - 2 ^ 63 <= 323136000000 < 2 ^ 63
  /\ @zeus_scanwork header_le {| tv_sec := 100000; tv_usec := 0 |} sample_info
     = Some (2 ^ 32 - 1,
             set_scanwork_time {| tv_sec := 100000; tv_usec := 0 |} sample_info).
Proof.
  assert (E : Double.trunc
                (@estimate_product header_le
                   {| tv_sec := 100000; tv_usec := 0 |} sample_info)
              = Some 323136000000) by (vm_compute; reflexivity).
  split; [exact E|]. split; [lia|].
  exact (proj1 (@zeus_scanwork_saturates header_le
                  {| tv_sec := 100000; tv_usec := 0 |} sample_info)
           323136000000 E ltac:(lia)).
Defined.

(** On the board of 2^28 + 1 chips at 2^33 hashes per second, one second
    after the previous call, the product is 2^64 + 2^36: the formula
    gives the cap [2^32 - 1], but the product is no value of [int64_t],
    its conversion is undefined and the call has no defined result. *)
Lemma zeus_scanwork_beyond_int64 :
  let opts := {| opt_zeus_chips_count := 268435457;
                 opt_zeus_chip_clk := 100663296;
                 opt_zeus_nocheck_golden := true |} in
  exists info,
    detected_board (@zeus_detect_one header_le opts sample_env 1 sample_port)
    = Some info
    /\ Double.trunc
         (@estimate_product header_le {| tv_sec := 1; tv_usec := 0 |} info)
       = Some (2 ^ 64 + 2 ^ 36)
    /\ Z.min (2 ^ 32 - 1) (2 ^ 64 + 2 ^ 36) = 2 ^ 32 - 1
    /\ @zeus_scanwork header_le {| tv_sec := 1; tv_usec := 0 |} info = None.
Proof.
  cbn zeta. eexists. split; [vm_compute; reflexivity|].
  repeat split; vm_compute; reflexivity.
Qed.

(** A tenth of a second on six chips of eight cores at 67320 hashes per
    second each: 323136 hashes, below the cap. *)
Example zeus_scanwork_tenth_of_a_second :
  fst <$> @zeus_scanwork header_le {| tv_sec := 0; tv_usec := 100000 |}
            sample_info
  = Some 323136.
Proof. vm_compute. reflexivity. Qed.


(** ** A change of frequency *)

Lemma clocks_purge info h : clocks (zeus_purge_work info h).1 = clocks info.
Proof. unfold zeus_purge_work. by destruct (current_work info). Qed.

Lemma clocks_reopen fd info : clocks (zeus_reopen fd info).1.2 = clocks info.
Proof.
  unfold zeus_reopen. destruct (device_fd info =? -1), (fd <? 0); done.
Qed.

Lemma clocks_check_need_work other info h :
  keeps_clocks other ->
  clocks (zeus_check_need_work other info h).1.2 = clocks info.
Proof.
  intros Ho. unfold zeus_check_need_work.
  destruct (current_work info); [done|]. cbn [get_work].
  destruct (current_work (other info)); cbn; apply Ho.
Qed.

Lemma clocks_flush_work info h : clocks (zeus_flush_work info h).1 = clocks info.
Proof.
  unfold zeus_flush_work.
  pose proof (clocks_purge info h) as E.
  destruct (zeus_purge_work info h) as [i1 h1]. done.
Qed.

Section FreqChange.
Context `{ZeusHeader}.

Lemma clocks_send_work info w h p ok info' h' p' lg :
  zeus_send_work info w h p = Some (ok, info', h', p', lg) ->
  clocks info' = clocks info.
Proof.
  unfold zeus_send_work.
  destruct (zeus_cmdpkt info w); [|done]. cbn [mbind option_bind].
  destruct (zeus_write _ _ _ _) as [[ret p1]|]; [|done]. cbn [mbind option_bind].
  pose proof (clocks_purge info h) as E.
  destruct (zeus_purge_work info h) as [i1 h1].
  destruct (ret <? 0); intros [= _ <- _ _ _]; done.
Qed.

(** The transmission step: only a work that was sent promotes a pending
    clock. *)
Lemma clocks_io_send now info h p o info' h' p' lg :
  io_send now info h p = Some (o, info', h', p', lg) ->
  (o = SendDone
   /\ clocks info' = if next_chip_clk info =? -1 then clocks info
                     else (next_chip_clk info, -1))
  \/ (o <> SendDone /\ clocks info' = clocks info).
Proof.
  unfold io_send. destruct (current_work info) as [w|];
    [|intros [= <- <- _ _ _]; by right].
  destruct (devflag w); cbn [negb]; [intros [= <- <- _ _ _]; by right|].
  destruct (zeus_send_work info w h p) as [[[[[ok i1] h1] p1] lg1]|] eqn:Es;
    [|done].
  apply clocks_send_work in Es. cbn [mbind option_bind].
  destruct ok; intros [= <- <- _ _ _]; [left|by right].
  split; [done|]. unfold clocks in *. injection Es as Ec En.
  cbn [next_chip_clk set_workstart set_current_work]. rewrite En.
  destruct (next_chip_clk info =? -1); cbn; congruence.
Qed.

Lemma clocks_read_response evtpkt info h p ok info' h' p' lg :
  zeus_read_response evtpkt info h p = Some (ok, info', h', p', lg) ->
  clocks info' = clocks info.
Proof.
  unfold zeus_read_response.
  destruct (zeus_read _ _ _ _ _) as [[[ret nb] p1]|]; [|done].
  cbn [mbind option_bind].
  pose proof (clocks_purge info h) as E.
  destruct (zeus_purge_work info h) as [i1 h1].
  destruct (ret <=? 0); [intros [= _ <- _ _ _]; done|].
  destruct (current_work info) as [w|]; [|intros [= _ <- _ _ _]; done].
  destruct (submit_nonce h w _) as [valid h2].
  destruct (_ && _); [|intros [= _ <- _ _ _]; done].
  destruct valid; intros [= _ <- _ _ _]; done.
Qed.

Lemma clocks_io_events e dev_err dev_in pipe_in info h p info' h' p' lg stop :
  io_events e dev_err dev_in pipe_in info h p = Some (info', h', p', lg, stop) ->
  clocks info' = clocks info.
Proof.
  unfold io_events. destruct dev_err.
  { pose proof (clocks_reopen (io_reopen_fd e) info) as E.
    destruct (zeus_reopen _ info) as [[ok i1] lg1]. intros [= <- _ _ _ _]. done. }
  assert (forall i1 h1 p1 lg1,
    (if pipe_in
     then let '(n, i2) := flush_fd i1 in
          Some (i2, h1, p1, if n =? 0 then lg1 ++ [ErrPipeClosed] else lg1,
                n =? 0)
     else Some (i1, h1, p1, lg1, false)) = Some (info', h', p', lg, stop) ->
    clocks info' = clocks i1) as Hpipe.
  { intros i1 h1 p1 lg1. destruct pipe_in; intros [= <- _ _ _ _]; done. }
  destruct dev_in.
  - destruct (zeus_read_response _ _ _ _) as [[[[[ok i1] h1] p1] lg1]|] eqn:Er;
      [|done].
    apply clocks_read_response in Er. cbn [mbind option_bind].
    intros E. apply Hpipe in E. rewrite E, Er. done.
  - cbn [mbind option_bind]. apply Hpipe.
Qed.

(** One round of the I/O loop: either nothing was transmitted and the
    clocks are as before, or one work was transmitted and a pending clock
    has become the active one. *)
Lemma clocks_io_round e d d' :
  keeps_clocks (io_other e) ->
  zeus_io_round e d = Some d' ->
  (drv_sent d' = drv_sent d /\ clocks (drv_info d') = clocks (drv_info d))
  \/ (drv_sent d' = S (drv_sent d)
      /\ clocks (drv_info d')
         = if next_chip_clk (drv_info d) =? -1 then clocks (drv_info d)
           else (next_chip_clk (drv_info d), -1)).
Proof.
  intros Ho. unfold zeus_io_round.
  destruct (drv_shutdown d); [intros [= <-]; by left|].
  assert (E0 : clocks (if device_fd (drv_info d) =? -1
                       then zeus_reopen (io_open_fd e) (drv_info d)
                       else (true, drv_info d, [])).1.2 = clocks (drv_info d)).
  { destruct (_ =? -1); [apply clocks_reopen|done]. }
  destruct (if device_fd (drv_info d) =? -1 then _ else _) as [[opened i0] lg0].
  cbn [fst snd] in E0.
  destruct opened; cbn [negb]; [|intros [= <-]; by left].
  pose proof (clocks_check_need_work (io_other e) i0 (drv_host d) Ho) as E1.
  destruct (zeus_check_need_work _ i0 _) as [[r i1] h1]. cbn [fst snd] in E1.
  destruct (io_send _ i1 h1 _) as [[[[[o i2] h2] p2] lg2]|] eqn:Es; [|done].
  cbn [mbind option_bind].
  apply clocks_io_send in Es.
  assert (En : next_chip_clk i1 = next_chip_clk (drv_info d))
    by (unfold clocks in *; congruence).
  rewrite En, E1, E0 in Es.
  assert (Hrest : forall i3, clocks i3 = clocks i2 ->
    (o <> SendDone /\ clocks i3 = clocks (drv_info d))
    \/ (o = SendDone
        /\ clocks i3 = if next_chip_clk (drv_info d) =? -1
                       then clocks (drv_info d)
                       else (next_chip_clk (drv_info d), -1))).
  { intros i3 E3. rewrite E3. destruct Es as [[-> Ec]|[Hn Ec]]; [by right|by left]. }
  destruct o.
  - destruct (io_poll e) as [eintr| |de di pi].
    + intros [= <-]. left. destruct (Hrest i2 eq_refl) as [[_ ?]|[? _]]; done.
    + pose proof (clocks_purge i2 h2) as Ep.
      destruct (zeus_purge_work i2 h2) as [i3 h3]. intros [= <-]. left.
      destruct (Hrest i3 Ep) as [[_ ?]|[? _]]; done.
    + destruct (io_events _ _ _ _ _ _ _) as [[[[[i3 h3] p3] lg3] stop]|] eqn:Ee;
        [|done].
      apply clocks_io_events in Ee. cbn [mbind option_bind]. intros [= <-].
      left. destruct (Hrest i3 Ee) as [[_ ?]|[? _]]; done.
  - destruct (io_poll e) as [eintr| |de di pi].
    + intros [= <-]. right. destruct (Hrest i2 eq_refl) as [[? _]|[_ ?]]; done.
    + pose proof (clocks_purge i2 h2) as Ep.
      destruct (zeus_purge_work i2 h2) as [i3 h3]. intros [= <-]. right.
      destruct (Hrest i3 Ep) as [[? _]|[_ ?]]; done.
    + destruct (io_events _ _ _ _ _ _ _) as [[[[[i3 h3] p3] lg3] stop]|] eqn:Ee;
        [|done].
      apply clocks_io_events in Ee. cbn [mbind option_bind]. intros [= <-].
      right. destruct (Hrest i3 Ee) as [[? _]|[_ ?]]; done.
  - intros [= <-]. left. destruct (Hrest i2 eq_refl) as [[_ ?]|[? _]]; done.
Qed.

Lemma clocks_scanwork now info est info' :
  zeus_scanwork now info = Some (est, info') -> clocks info' = clocks info.
Proof.
  unfold zeus_scanwork. cbn zeta.
  destruct (Double.to_i64 _); [|done]. cbn [mbind option_bind].
  intros [= _ <-]. done.
Qed.

Lemma clocks_set_device_other info h name setting r info' h' lg :
  strcaseeq name "freq" = false ->
  zeus_set_device info h name setting = Some (r, info', h', lg) ->
  clocks info' = clocks info.
Proof.
  intros Hn. unfold zeus_set_device. cbn zeta. rewrite Hn.
  destruct (strcaseeq name "help"); [intros [= _ <- _ _]; done|].
  destruct (strcaseeq name "abortwork"); [|intros [= _ <- _ _]; done].
  pose proof (clocks_flush_work info h) as Ef.
  destruct (zeus_flush_work info h) as [i1 h1].
  repeat match goal with
         | |- context [if ?b then _ else _] => destruct b
         end; intros [= _ <- _ _]; done.
Qed.

Lemma clocks_step o d d' :
  no_freq_change o -> step o d = Some d' ->
  (drv_sent d' = drv_sent d /\ clocks (drv_info d') = clocks (drv_info d))
  \/ (drv_sent d' = S (drv_sent d)
      /\ clocks (drv_info d')
         = if next_chip_clk (drv_info d) =? -1 then clocks (drv_info d)
           else (next_chip_clk (drv_info d), -1)).
Proof.
  destruct o as [e|now| |name setting]; cbn [no_freq_change step]; intros Hq.
  - by apply clocks_io_round.
  - destruct (zeus_scanwork now (drv_info d)) as [[est i1]|] eqn:E; [|done].
    apply clocks_scanwork in E. cbn [mbind option_bind]. intros [= <-].
    by left.
  - pose proof (clocks_flush_work (drv_info d) (drv_host d)) as E.
    destruct (zeus_flush_work _ _) as [i1 h1]. intros [= <-]. by left.
  - destruct (zeus_set_device _ _ _ _) as [[[[r i1] h1] lg1]|] eqn:E; [|done].
    apply clocks_set_device_other in E; [|done]. cbn [mbind option_bind].
    intros [= <-]. by left.
Qed.

(** Once no clock is pending, the active clock stays. *)
Lemma clocks_run_settled ops : forall d d' c,
  Forall no_freq_change ops -> run ops d = Some d' ->
  clocks (drv_info d) = (c, -1) ->
  clocks (drv_info d') = (c, -1) /\ (drv_sent d <= drv_sent d')%nat.
Proof.
  induction ops as [|o ops IH]; intros d d' c Hq Hr Hc.
  - injection Hr as <-. done.
  - inversion Hq as [|? ? Ho Hops]; subst. cbn [run] in Hr.
    destruct (step o d) as [d1|] eqn:Es; [|done]. cbn [mbind option_bind] in Hr.
    assert (En : next_chip_clk (drv_info d) = -1)
      by (unfold clocks in Hc; congruence).
    assert (E2 : clocks (drv_info d1) = (c, -1) /\ (drv_sent d <= drv_sent d1)%nat).
    { destruct (clocks_step _ _ _ Ho Es) as [[E1 E2]|[E1 E2]].
      - split; [congruence | lia].
      - rewrite En in E2. change (-1 =? -1) with true in E2. cbn iota in E2.
        split; [congruence | lia]. }
    destruct E2 as [E2 E1].
    destruct (IH d1 d' c Hops Hr E2). split; [done | lia].
Qed.

(** A pending clock [v] waits through any calls that do not change the
    frequency: the active clock is still [c] while no work has been
    transmitted, and it is [v] once one has been. *)
Lemma clocks_run_pending ops : forall d d' c v,
  Forall no_freq_change ops -> run ops d = Some d' -> v <> -1 ->
  clocks (drv_info d) = (c, v) ->
  (drv_sent d' = drv_sent d /\ clocks (drv_info d') = (c, v))
  \/ ((drv_sent d < drv_sent d')%nat /\ clocks (drv_info d') = (v, -1)).
Proof.
  induction ops as [|o ops IH]; intros d d' c v Hq Hr Hv Hc.
  - injection Hr as <-. by left.
  - inversion Hq as [|? ? Ho Hops]; subst. cbn [run] in Hr.
    destruct (step o d) as [d1|] eqn:Es; [|done]. cbn [mbind option_bind] in Hr.
    assert (En : next_chip_clk (drv_info d) = v)
      by (unfold clocks in Hc; congruence).
    destruct (clocks_step _ _ _ Ho Es) as [[E1 E2]|[E1 E2]].
    + destruct (IH d1 d' c v Hops Hr Hv ltac:(congruence)) as [[? ?]|[? ?]];
        [left|right]; split; first [done | lia | congruence].
    + rewrite En in E2.
      replace (v =? -1) with false in E2 by (symmetry; by apply Z.eqb_neq).
      destruct (clocks_run_settled ops d1 d' v Hops Hr E2). right.
      split; [lia|done].
Qed.

Hypothesis clk_min_nonneg : 0 <= ZEUS_CLK_MIN.
Hypothesis clk_max_byte : ZEUS_CLK_MAX <= 383.

(** C7: [set_device] with the option [freq] and a setting that reads as
    the number [v].  Outside the clock range it answers with the error
    reply and leaves the whole board, so [freqcode] and [next_chip_clk],
    as it was.  In the range it sets [next_chip_clk] to [v] and [freqcode]
    to the code of [v] at once and leaves [chip_clk]; through any later
    calls that do not change the frequency, [chip_clk] keeps its old value
    until a work is transmitted, and has the value [v] from the first
    transmission on. *)
Theorem set_device_freq_applies_on_send info h s v :
  s <> EmptyString -> atoi s = Some v ->
  (v < ZEUS_CLK_MIN \/ ZEUS_CLK_MAX < v ->
     zeus_set_device info h "freq" (Some s)
     = Some (Some (ReplyInvalidFreq s ZEUS_CLK_MIN ZEUS_CLK_MAX), info, h, []))
  /\ (ZEUS_CLK_MIN <= v <= ZEUS_CLK_MAX ->
      let info1 := set_freqcode (v * 2 / 3) (set_next_chip_clk v info) in
      zeus_set_device info h "freq" (Some s) = Some (None, info1, h, [])
      /\ zeus_clk_to_freqcode v = ([], Some (v * 2 / 3))
      /\ next_chip_clk info1 = v
      /\ freqcode info1 = v * 2 / 3
      /\ chip_clk info1 = chip_clk info
      /\ forall d ops d',
           drv_info d = info1 -> Forall no_freq_change ops ->
           run ops d = Some d' ->
           (drv_sent d' = drv_sent d
            /\ chip_clk (drv_info d') = chip_clk info
            /\ next_chip_clk (drv_info d') = v)
           \/ ((drv_sent d < drv_sent d')%nat
               /\ chip_clk (drv_info d') = v
               /\ next_chip_clk (drv_info d') = -1)).
Proof using clk_min_nonneg clk_max_byte.
  intros Hs Hv.
  assert (Eset : zeus_set_device info h "freq" (Some s)
    = if (v <? ZEUS_CLK_MIN) || (ZEUS_CLK_MAX <? v)
      then Some (Some (ReplyInvalidFreq s ZEUS_CLK_MIN ZEUS_CLK_MAX), info, h, [])
      else let '(lg, fc) := zeus_clk_to_freqcode v in
           fc ← fc; Some (None, set_freqcode fc (set_next_chip_clk v info), h, lg)).
  { unfold zeus_set_device. cbn zeta.
    change (strcaseeq "freq" "help") with false.
    change (strcaseeq "freq" "freq") with true. cbn iota.
    destruct s as [|a s']; [done|].
    change (default EmptyString (Some (String a s'))) with (String a s').
    rewrite Hv.
    cbn [mbind option_bind]. done. }
  rewrite Eset. split.
  - intros Hout.
    replace ((v <? ZEUS_CLK_MIN) || (ZEUS_CLK_MAX <? v)) with true; [done|].
    symmetry. apply orb_true_iff.
    destruct Hout; [left; by apply Z.ltb_lt | right; by apply Z.ltb_lt].
  - intros Hin.
    replace ((v <? ZEUS_CLK_MIN) || (ZEUS_CLK_MAX <? v)) with false
      by (symmetry; apply orb_false_iff; split; apply Z.ltb_ge; lia).
    rewrite zeus_clk_to_freqcode_in_range by done. cbn [mbind option_bind].
    cbn zeta. repeat split; try done.
    intros d ops d' Hd Hq Hr.
    destruct (clocks_run_pending ops d d' (chip_clk info) v Hq Hr ltac:(lia))
      as [[? Ec]|[? Ec]].
    + rewrite Hd. done.
    + left. unfold clocks in Ec. injection Ec as ? ?. done.
    + right. unfold clocks in Ec. injection Ec as ? ?. done.
Qed.

End FreqChange.

Lemma set_device_freq_applies_on_send_witness :
  0 <= @ZEUS_CLK_MIN header_le
  /\ @ZEUS_CLK_MAX header_le <= 383
  /\ "300"%string <> EmptyString
  /\ atoi "300" = Some 300
  /\ @zeus_set_device header_le sample_info sample_host "freq" (Some "300"%string)
     = Some (None, set_freqcode 200 (set_next_chip_clk 300 sample_info),
             sample_host, [])
  /\ @zeus_set_device header_le sample_info sample_host "freq" (Some "1"%string)
     = Some (Some (ReplyInvalidFreq "1" 2 382), sample_info, sample_host, [])
  /\ (chip_clk sample_info = 328
      /\ chip_clk (set_freqcode 200 (set_next_chip_clk 300 sample_info)) = 328)
  /\ ((fun d => (drv_sent d, chip_clk (drv_info d), next_chip_clk (drv_info d)))
        <$> @run header_le [OpScanwork {| tv_sec := 19; tv_usec := 0 |};
                            OpIoRound quiet_round; OpFlushWork]
              (driver_of (set_freqcode 200 (set_next_chip_clk 300 sample_info))))
     = Some (1%nat, 300, -1).
Proof.
  assert (H0 : 0 <= @ZEUS_CLK_MIN header_le) by (cbn; lia).
  assert (H1 : @ZEUS_CLK_MAX header_le <= 383) by (cbn; lia).
  assert (H2 : "300"%string <> EmptyString) by discriminate.
  assert (H3 : atoi "300" = Some 300) by reflexivity.
  assert (H4 : "1"%string <> EmptyString) by discriminate.
  assert (H5 : atoi "1" = Some 1) by reflexivity.
  split; [exact H0|]. split; [exact H1|]. split; [exact H2|]. split; [exact H3|].
  destruct (@set_device_freq_applies_on_send header_le H0 H1 sample_info
              sample_host "300" 300 H2 H3) as [_ Hin].
  destruct (Hin ltac:(cbn; lia)) as (Eset & _).
  destruct (@set_device_freq_applies_on_send header_le H0 H1 sample_info
              sample_host "1" 1 H4 H5) as [Hout _].
  split; [exact Eset|]. split; [apply Hout; left; cbn; lia|].
  split; [split; reflexivity|]. vm_compute. reflexivity.
Defined.

(** * Further properties of the driver *)

(** ** The utility functions *)

(** X1: [rev] with a length [l] from 1 up to the size of the buffer
    reverses the first [l] bytes and leaves the rest alone, and a second
    call restores the buffer. *)
Theorem rev_prefix_involution (a b : list Z) :
  a <> [] -> Z.of_nat (length (a ++ b)) < 2 ^ 64 ->
  rev (a ++ b) (Z.of_nat (length a)) = Some (List.rev a ++ b)
  /\ rev (List.rev a ++ b) (Z.of_nat (length a)) = Some (a ++ b).
Proof.
  intros Ha Hlen.
  assert (Hgen : forall m : list Z,
            m <> [] -> length m = length a ->
            rev (m ++ b) (Z.of_nat (length a)) = Some (List.rev m ++ b)).
  { intros m Hm Hl. unfold rev.
    assert (0 < length m)%nat by (destruct m; [done | cbn; lia]).
    rewrite length_app in *.
    rewrite u64_small by lia.
    pose proof (rev_loop_spec (S (length m + length b)) [] m b) as E.
    cbn [app length] in E. rewrite length_app in E.
    replace (Z.of_nat (length a) - 1) with (Z.of_nat (0 + length m - 1)) by lia.
    apply E; lia. }
  split.
  - by apply Hgen.
  - rewrite <- (rev_involutive a) at 3. apply Hgen.
    + intros E. apply Ha. rewrite <- (rev_involutive a), E. done.
    + apply length_rev.
Qed.

Lemma rev_prefix_involution_witness :
  [1; 2; 3] <> ([] : list Z)
  /\ rev ([1; 2; 3] ++ [4; 5]) 3 = Some ([3; 2; 1] ++ [4; 5])
  /\ rev ([3; 2; 1] ++ [4; 5]) 3 = Some ([1; 2; 3] ++ [4; 5]).
Proof.
  split; [discriminate|].
  apply (rev_prefix_involution [1; 2; 3] [4; 5]); [discriminate | cbn; lia].
Defined.

(** X2: [rev] has no empty case: with the length 0 the index [j] wraps
    to [SIZE_MAX] and the first round reads outside the buffer; and a
    length of 2 or more beyond the end of the buffer reads outside it as
    well. *)
Theorem rev_out_of_bounds (s : list Z) (l : Z) :
  Z.of_nat (length s) < 2 ^ 64 - 1 ->
  l = 0 \/ (2 <= l < 2 ^ 64 /\ Z.of_nat (length s) < l) ->
  rev s l = None.
Proof.
  intros Hlen Hl. unfold rev. cbn [rev_loop].
  assert (Hj : 0 < u64 (l - 1) /\ Z.of_nat (length s) <= u64 (l - 1)).
  { destruct Hl as [-> | [Hl1 Hl2]].
    - change (u64 (0 - 1)) with (2 ^ 64 - 1). lia.
    - rewrite u64_small by lia. lia. }
  replace (0 <? u64 (l - 1)) with true by (symmetry; apply Z.ltb_lt; lia).
  destruct (s !! Z.to_nat 0) as [t|]; [|done]. cbn [mbind option_bind].
  rewrite (lookup_ge_None_2 s (Z.to_nat (u64 (l - 1)))) by lia. done.
Qed.

Lemma rev_out_of_bounds_witness :
  Z.of_nat (length [7; 8; 9]) < 2 ^ 64 - 1
  /\ rev [7; 8; 9] 0 = None /\ rev [7; 8; 9] 4 = None.
Proof.
  split; [cbn; lia|]. split.
  - apply (rev_out_of_bounds [7; 8; 9] 0); [cbn; lia | by left].
  - apply (rev_out_of_bounds [7; 8; 9] 4); [cbn; lia | right; cbn; lia].
Defined.

(** X3: on a positive [int], [log_2] is the binary logarithm rounded
    down; on 1, 0 and negative values it is 0. *)
Theorem log_2_floor (v : Z) :
  v < 2 ^ 31 ->
  (v <= 1 -> log_2 v = 0)
  /\ (0 < v -> 0 <= log_2 v <= 30 /\ 2 ^ log_2 v <= v < 2 ^ (log_2 v + 1)).
Proof.
  intros Hv. split.
  - intros H1. unfold log_2. cbn [log_2_loop].
    replace (1 <? v) with false by (symmetry; apply Z.ltb_ge; lia). done.
  - intros H0. rewrite log_2_spec by lia.
    pose proof (Z.log2_spec v H0) as Hs.
    pose proof (Z.log2_nonneg v).
    assert (Z.log2 v < 31) by (apply Z.log2_lt_pow2; lia).
    rewrite <- Z.add_1_r in Hs. lia.
Qed.

Lemma log_2_floor_witness :
  1000 < 2 ^ 31 /\ log_2 1000 = 9 /\ 2 ^ log_2 1000 <= 1000 < 2 ^ (log_2 1000 + 1).
Proof.
  split; [lia|]. split; [reflexivity|].
  apply (log_2_floor 1000); lia.
Defined.

(** X4: [lowest_pow2 min] is a power of two from 1 to 1024, and the
    least power of two that is not below [min] as long as
    [min <= 1024]; it is 1 for every [min <= 1] (zero and negative counts
    included) and 1024 for every [min] above 512, also above 1024; it is
    monotone and idempotent. *)
Theorem lowest_pow2_least (a b : Z) :
  (exists k, 0 <= k <= 10 /\ lowest_pow2 a = 2 ^ k)
  /\ (a <= 1 -> lowest_pow2 a = 1)
  /\ (512 < a -> lowest_pow2 a = 1024)
  /\ (a <= 1024 ->
      a <= lowest_pow2 a
      /\ forall j, 0 <= j -> a <= 2 ^ j -> lowest_pow2 a <= 2 ^ j)
  /\ (a <= b -> lowest_pow2 a <= lowest_pow2 b)
  /\ lowest_pow2 (lowest_pow2 a) = lowest_pow2 a.
Proof.
  destruct (lowest_pow2_spec a) as ((k & Hk & Ek) & Hle & Hcap & Hmin).
  split; [by exists k|]. split; [|split; [|split; [|split]]].
  - intros H1. rewrite lowest_pow2_unfold.
    replace (a <=? 1) with true by (symmetry; apply Z.leb_le; lia). done.
  - intros H5. rewrite lowest_pow2_unfold.
    repeat match goal with
           | |- context [a <=? ?i] =>
               replace (a <=? i) with false by (symmetry; apply Z.leb_gt; lia)
           end. done.
  - intros H. split; [by apply Hle|]. intros j Hj Haj.
    destruct Hmin as [-> | Hhalf].
    + assert (0 < 2 ^ j) by (apply Z.pow_pos_nonneg; lia). lia.
    + rewrite Ek in *. destruct (decide (k = 0)) as [-> | Hk0].
      { assert (0 < 2 ^ j) by (apply Z.pow_pos_nonneg; lia).
        change (2 ^ 0) with 1. lia. }
      replace k with (k - 1 + 1) in Hhalf by lia.
      rewrite Z.pow_add_r, Z.div_mul in Hhalf by lia.
      assert (k - 1 < j) by (apply (Z.pow_lt_mono_r_iff 2); lia).
      apply Z.pow_le_mono_r; lia.
  - intros Hab. rewrite !lowest_pow2_unfold.
    repeat match goal with
           | |- context [?x <=? ?i] => destruct (Z.leb_spec x i)
           end; lia.
  - rewrite !lowest_pow2_unfold.
    repeat match goal with
           | |- context [a <=? ?i] => destruct (Z.leb_spec a i)
           end; reflexivity.
Qed.

(** Bit [k] of the chip index is bit [28 - k] of the nonce. *)
Lemma chip_index_testbit (N B k : Z) :
  0 <= B <= 10 -> 0 <= k < B ->
  Z.testbit (chip_index N B) k = Z.testbit N (28 - k).
Proof.
  intros HB Hk. unfold chip_index. rewrite chip_field by done.
  rewrite chip_index_loop_spec; [| lia |].
  2:{ rewrite Z2Nat.id by lia.
      assert (2 ^ B <= 2 ^ 10) by (apply Z.pow_le_mono_r; lia). lia. }
  rewrite Z.mul_0_l, Z.add_0_l.
  replace k with (Z.of_nat (Z.to_nat k)) at 1 by lia.
  rewrite reverse_bits_testbit by lia.
  rewrite Z.shiftr_spec, Z.land_spec, Z.shiftr_spec by lia.
  replace (Z.of_nat (Z.to_nat B - 1 - Z.to_nat k) + (10 - B) + 19)
    with (28 - k) by lia.
  replace (Z.of_nat (Z.to_nat B - 1 - Z.to_nat k) + (10 - B))
    with (9 - k) by lia.
  change 0x3FF with (Z.ones 10).
  rewrite Z.ones_spec_low by lia. apply andb_true_r.
Qed.

(** X5: two nonces get the same chip index exactly when they agree on
    the [B] address bits 28 down to [29 - B]; the core bits 29..31, the
    unused low bits of the address field and the 19 low bits play no
    part.  With [B = 0] every nonce is on chip 0. *)
Theorem chip_index_same_chip (N N' B : Z) :
  0 <= B <= 10 ->
  chip_index N B = chip_index N' B
  <-> forall k, 0 <= k < B -> Z.testbit N (28 - k) = Z.testbit N' (28 - k).
Proof.
  intros HB. split.
  - intros E k Hk. rewrite <- !(chip_index_testbit _ B) by lia. by rewrite E.
  - intros Hbits. apply Z.bits_inj'. intros k Hk.
    destruct (Z.lt_ge_cases k B) as [Hlt | Hge].
    + rewrite !chip_index_testbit by lia. apply Hbits. lia.
    + pose proof (chip_index_bound N B HB). pose proof (chip_index_bound N' B HB).
      assert (Hhi : forall x, 0 <= x < 2 ^ B -> Z.testbit x k = false).
      { intros x Hx. destruct (decide (x = 0)) as [-> | Hx0].
        - apply Z.bits_0.
        - apply Z.bits_above_log2; [lia|].
          assert (Z.log2 x < B) by (apply Z.log2_lt_pow2; lia). lia. }
      rewrite !Hhi by done. done.
Qed.

Lemma chip_index_same_chip_witness :
  0 <= 3 <= 10
  /\ chip_index 0x15580000 3 = chip_index 0xF5FFFFFF 3.
Proof.
  split; [lia|].
  apply (chip_index_same_chip 0x15580000 0xF5FFFFFF 3); [lia|].
  intros k Hk.
  assert (Ek : k = 0 \/ k = 1 \/ k = 2) by lia.
  destruct Ek as [-> | [-> | ->]]; reflexivity.
Defined.

(** ** The serial helpers, continued *)

Lemma zeus_write_loop_wire fuel : forall fd p buf len total ret p',
  zeus_write_loop fuel fd p buf len total = Some (ret, p') ->
  0 <= total -> len <= Z.of_nat (length buf) ->
  exists chunks,
    wire p' = wire p ++ concat chunks
    /\ Forall (fun c => exists k, c = take k buf) chunks
    /\ (ret = -1 \/ (len <= ret /\ ret = total + Z.of_nat (length (concat chunks)))).
Proof.
  induction fuel as [|fuel IH]; intros fd p buf len total ret p';
    cbn [zeus_write_loop]; destruct (Z.ltb_spec total len) as [Hlt|Hge];
    try congruence;
    try (intros [= <- <-] ? ?; exists []; cbn; rewrite app_nil_r;
         split; [done|]; split; [done|]; right; lia).
  intros E Ht Hlen. unfold os_write in E.
  destruct (fd <? 0).
  { cbn in E. injection E as <- <-. exists []. cbn. rewrite app_nil_r. auto. }
  assert (Hstep : forall n p1,
            0 <= n <= len ->
            wire p1 = wire p ++ take (Z.to_nat n) buf ->
            zeus_write_loop fuel fd p1 buf len (total + n) = Some (ret, p') ->
            exists chunks,
              wire p' = wire p ++ concat chunks
              /\ Forall (fun c => exists k, c = take k buf) chunks
              /\ (ret = -1 \/ (len <= ret
                    /\ ret = total + Z.of_nat (length (concat chunks))))).
  { intros n p1 Hn Hw E1. apply IH in E1; [|lia|done].
    destruct E1 as (chunks & Hw' & Hc & Hr).
    exists (take (Z.to_nat n) buf :: chunks). cbn [concat].
    split; [by rewrite Hw', Hw, <- app_assoc|].
    split; [constructor; [by eexists|done]|].
    destruct Hr as [-> | [Hr1 Hr2]]; [by left|right].
    split; [done|]. rewrite length_app, length_take. lia. }
  destruct (wr_script p) as [|r rest].
  - destruct (Z.ltb_spec len 0); [lia|]. eapply Hstep in E; [done|lia|done].
  - destruct (Z.ltb_spec r 0).
    { injection E as <- <-. exists []. cbn. rewrite app_nil_r. auto. }
    destruct (Z.ltb_spec (Z.min r len) 0); [lia|].
    eapply Hstep in E; [done|lia|done].
Qed.

(** X6: [zeus_write] returns -1 or a count of at least [len].  What
    has gone to the line is a sequence of pieces, each one a beginning
    of the buffer, because every call of [write] starts at the first
    byte again; on success the count returned is the number of bytes
    that went out.  With a closed descriptor nothing goes out. *)
Theorem zeus_write_pieces fd p buf len ret p' :
  len <= Z.of_nat (length buf) ->
  zeus_write fd p buf len = Some (ret, p') ->
  (exists chunks,
     wire p' = wire p ++ concat chunks
     /\ Forall (fun c => exists k, c = take k buf) chunks
     /\ (ret = -1
         \/ (len <= ret /\ ret = Z.of_nat (length (concat chunks)))))
  /\ (fd < 0 -> 0 < len -> ret = -1 /\ p' = p).
Proof.
  intros Hlen E. split.
  - apply zeus_write_loop_wire in E; [|lia|done].
    destruct E as (chunks & ? & ? & Hr). exists chunks.
    split; [done|]. split; [done|].
    destruct Hr as [-> | [? ?]]; [by left | right; lia].
  - intros Hfd Hl. unfold zeus_write in E. cbn [zeus_write_loop] in E.
    replace (0 <? len) with true in E by (symmetry; apply Z.ltb_lt; lia).
    unfold os_write in E.
    replace (fd <? 0) with true in E by (symmetry; apply Z.ltb_lt; lia).
    cbn in E. by injection E as <- <-.
Qed.

Lemma zeus_write_pieces_witness :
  3 <= Z.of_nat (length [10; 20; 30])
  /\ zeus_write 5 {| wire := []; wr_script := [2]; rd_script := [] |}
       [10; 20; 30] 3
     = Some (5, {| wire := [10; 20; 10; 20; 30]; wr_script := [];
                   rd_script := [] |})
  /\ exists chunks,
       [10; 20; 10; 20; 30] = [] ++ concat chunks
       /\ Forall (fun c => exists k, c = take k [10; 20; 30]) chunks
       /\ (5 = -1 \/ (3 <= 5 /\ 5 = Z.of_nat (length (concat chunks)))).
Proof.
  split; [cbn; lia|]. split; [reflexivity|].
  apply (zeus_write_pieces 5 {| wire := []; wr_script := [2]; rd_script := [] |}
           [10; 20; 30] 3 5
           {| wire := [10; 20; 10; 20; 30]; wr_script := []; rd_script := [] |});
    [cbn; lia | reflexivity].
Defined.

Lemma os_read_incoming fd p len :
  0 <= (os_read fd p len).1.1 ->
  incoming p = (os_read fd p len).1.2 ++ incoming (os_read fd p len).2
  /\ wire (os_read fd p len).2 = wire p
  /\ wr_script (os_read fd p len).2 = wr_script p.
Proof.
  unfold os_read, incoming. destruct (fd <? 0); [cbn; lia|].
  destruct (rd_script p) as [|[c|] rest] eqn:Es; cbn; [by rewrite Es | | lia].
  intros _. split; [|done].
  rewrite <- (take_drop (Z.to_nat len) c) at 1.
  destruct (drop _ c) eqn:Ed; cbn; [by rewrite app_nil_r | by rewrite <- app_assoc].
Qed.

Lemma zeus_read_loop_stream fuel :
  forall fd p buf len read_count total rc ret buf' p',
  zeus_read_loop fuel fd p buf len read_count total rc = Some (ret, buf', p') ->
  0 <= total <= Z.of_nat (length buf) -> 0 <= ret ->
  exists got,
    ret = total + Z.of_nat (length got)
    /\ ret <= Z.of_nat (length buf)
    /\ buf' = take (Z.to_nat total) buf ++ got ++ drop (Z.to_nat ret) buf
    /\ incoming p = got ++ incoming p'
    /\ wire p' = wire p /\ wr_script p' = wr_script p.
Proof.
  induction fuel as [|fuel IH];
    intros fd p buf len read_count total rc ret buf' p';
    cbn [zeus_read_loop]; destruct (total <? len); try congruence;
    try (intros [= <- <- <-] ? ?; exists []; cbn;
         rewrite take_drop; repeat split; done || lia).
  pose proof (os_read_incoming fd p len) as Hi.
  pose proof (os_read_ret fd p len) as Hr.
  destruct (os_read fd p len) as [[r got] p1]. cbn [fst snd] in Hi, Hr.
  destruct (Z.ltb_spec r 0); [intros [= <- <- <-]; lia|].
  destruct Hr as [-> | Hr]; [lia|].
  destruct (Hi ltac:(lia)) as (Hin & Hw & Hs).
  destruct (Z.eqb_spec r 0) as [E0|N0]; cbn [andb].
  - destruct (_ <=? _).
    { intros [= <- <- <-] ? ?. exists []. cbn. rewrite take_drop.
      assert (got = []) as -> by (apply length_zero_iff_nil; lia).
      repeat split; done || lia. }
    destruct (Z.ltb_spec (Z.of_nat (length buf)) (total + r)); [done|].
    assert (got = []) as -> by (apply length_zero_iff_nil; lia).
    replace (store buf total []) with buf.
    2:{ unfold store. cbn. rewrite Nat.add_0_r. by rewrite take_drop. }
    intros E Ht Hret. apply IH in E; [|lia|done].
    destruct E as (g & ? & ? & ? & ? & ? & ?). exists g.
    replace (total + r) with total in * by lia.
    cbn [app] in Hin. repeat split; try done; congruence.
  - destruct (Z.ltb_spec (Z.of_nat (length buf)) (total + r)); [done|].
    intros E Ht Hret. apply IH in E; [|rewrite store_length; lia|done].
    destruct E as (g & Er & Hle & Eb & Ei & Ew & Es).
    rewrite store_length in Hle by lia.
    exists (got ++ g). rewrite length_app.
    split; [lia|]. split; [done|].
    split; [|split; [by rewrite Hin, Ei, <- app_assoc | split; congruence]].
    rewrite Eb. unfold store.
    assert (Hl1 : length (take (Z.to_nat total) buf) = Z.to_nat total)
      by (rewrite length_take; lia).
    rewrite (app_assoc (take _ buf) got).
    rewrite take_app_length'.
    2:{ rewrite length_app, Hl1. lia. }
    rewrite <- !app_assoc. do 3 f_equal.
    rewrite (app_assoc (take _ buf) got).
    rewrite drop_app_ge by (rewrite length_app, Hl1; lia).
    rewrite drop_drop. f_equal. rewrite length_app, Hl1. lia.
Qed.

(** X7: when [zeus_read] returns a count [ret >= 0], the first [ret]
    bytes of the buffer are the next [ret] bytes of the line in the order
    of their arrival, the rest of the buffer is as it was, the line has
    lost exactly these bytes, and nothing has been written. *)
Theorem zeus_read_in_order fd p buf len read_count ret buf' p' :
  zeus_read fd p buf len read_count = Some (ret, buf', p') ->
  0 <= ret ->
  ret <= Z.of_nat (length buf)
  /\ ret <= Z.of_nat (length (incoming p))
  /\ buf' = take (Z.to_nat ret) (incoming p) ++ drop (Z.to_nat ret) buf
  /\ incoming p' = drop (Z.to_nat ret) (incoming p)
  /\ wire p' = wire p.
Proof.
  intros E Hret. apply zeus_read_loop_stream in E; [|lia|done].
  destruct E as (got & Er & Hle & Eb & Ei & Ew & _).
  assert (Hg : Z.to_nat ret = length got) by lia.
  split; [done|]. rewrite Ei, length_app, Hg.
  split; [lia|].
  rewrite take_app_length, drop_app_length. rewrite Eb, Hg. done.
Qed.

Lemma zeus_read_in_order_witness :
  zeus_read 5 {| wire := []; wr_script := [];
                 rd_script := [Some [1; 2]; Some [3; 4; 5]] |}
    [0; 0; 0; 0] 2 1
  = Some (2, [1; 2; 0; 0],
          {| wire := []; wr_script := []; rd_script := [Some [3; 4; 5]] |})
  /\ [1; 2; 0; 0] = take 2 [1; 2; 3; 4; 5] ++ drop 2 [0; 0; 0; 0].
Proof.
  split; [reflexivity|].
  apply (zeus_read_in_order 5
           {| wire := []; wr_script := [];
              rd_script := [Some [1; 2]; Some [3; 4; 5]] |}
           [0; 0; 0; 0] 2 1 2 [1; 2; 0; 0]
           {| wire := []; wr_script := []; rd_script := [Some [3; 4; 5]] |});
    [reflexivity | lia].
Defined.

(** X8: [zeus_read] asks for [len] bytes in every round, not for the
    bytes still missing.  When a message of [len] bytes, [len] being the
    size of the buffer, arrives in two pieces and the second read brings
    more than the missing bytes, the second piece is stored past the end
    of the buffer: the behaviour is undefined. *)
Theorem zeus_read_overrun fd p buf len read_count c1 c2 rest :
  0 <= fd ->
  rd_script p = Some c1 :: Some c2 :: rest ->
  len = Z.of_nat (length buf) ->
  (0 < length c1)%nat -> Z.of_nat (length c1) < len ->
  len < Z.of_nat (length c1 + length c2) ->
  zeus_read fd p buf len read_count = None.
Proof.
  intros Hfd Es Hlen Hc1 Hc1' Hc2. unfold zeus_read.
  assert (Z.to_nat len + Z.to_nat read_count
          = S (Z.to_nat len - 1 + Z.to_nat read_count))%nat as -> by lia.
  cbn [zeus_read_loop].
  replace (0 <? len) with true by (symmetry; apply Z.ltb_lt; lia).
  unfold os_read at 1.
  replace (fd <? 0) with false by (symmetry; apply Z.ltb_ge; lia).
  rewrite Es.
  rewrite (take_ge c1), (drop_ge c1) by lia.
  replace (Z.of_nat (length c1) <? 0) with false by (symmetry; apply Z.ltb_ge; lia).
  replace (Z.of_nat (length c1) =? 0) with false by (symmetry; apply Z.eqb_neq; lia).
  cbn [andb].
  replace (Z.of_nat (length buf) <? 0 + Z.of_nat (length c1)) with false
    by (symmetry; apply Z.ltb_ge; lia).
  replace (0 + Z.of_nat (length c1) <? len) with true
    by (symmetry; apply Z.ltb_lt; lia).
  unfold os_read.
  replace (fd <? 0) with false by (symmetry; apply Z.ltb_ge; lia).
  cbn [rd_script].
  set (got := take (Z.to_nat len) c2).
  assert (Hg : length got = Nat.min (Z.to_nat len) (length c2))
    by (unfold got; apply length_take).
  replace (Z.of_nat (length got) <? 0) with false by (symmetry; apply Z.ltb_ge; lia).
  replace (Z.of_nat (length got) =? 0) with false by (symmetry; apply Z.eqb_neq; lia).
  cbn [andb].
  rewrite store_length by lia.
  replace (Z.of_nat (length buf) <? 0 + Z.of_nat (length c1) + Z.of_nat (length got))
    with true by (symmetry; apply Z.ltb_lt; lia).
  done.
Qed.

Lemma zeus_read_overrun_witness :
  0 <= 5
  /\ zeus_read 5 {| wire := []; wr_script := [];
                    rd_script := [Some [1; 2; 3]; Some [4; 5; 6]] |}
       [0; 0; 0; 0] 4 3 = None.
Proof.
  split; [lia|].
  apply (zeus_read_overrun 5
           {| wire := []; wr_script := [];
              rd_script := [Some [1; 2; 3]; Some [4; 5; 6]] |}
           [0; 0; 0; 0] 4 3 [1; 2; 3] [4; 5; 6] []);
    [lia | reflexivity | reflexivity | cbn; lia | cbn; lia | cbn; lia].
Defined.

(** ** Detection, continued *)

(** A detection packet is the payload with a new header: the clock code,
    its complement, 0 and 1. *)
Lemma detect_pkt_format payload code :
  payload = golden_ob \/ payload = golden_ob2 ->
  detect_pkt payload code
  = [code; u8 (Z.lnot code); 0; 1] ++ drop 4 (hex2bin payload)
  /\ length (detect_pkt payload code) = 84%nat.
Proof.
  intros [-> | ->]; split; try reflexivity.
  all: unfold detect_pkt; rewrite !length_insert; reflexivity.
Qed.

(** On an open line that accepts everything, [zeus_write] puts the whole
    buffer on the wire with one [write]. *)
Lemma zeus_write_all fd p buf len :
  0 <= fd -> 0 < len -> Z.of_nat (length buf) = len -> wr_script p = [] ->
  zeus_write fd p buf len
  = Some (len, {| wire := wire p ++ buf; wr_script := [];
                  rd_script := rd_script p |}).
Proof.
  intros Hfd Hlen Hbuf Hs. unfold zeus_write. rewrite Hs.
  cbn [length zeus_write_loop].
  replace (0 <? len) with true by (symmetry; apply Z.ltb_lt; lia).
  unfold os_write. rewrite Hs.
  replace (fd <? 0) with false by (symmetry; apply Z.ltb_ge; lia).
  replace (len <? 0) with false by (symmetry; apply Z.ltb_ge; lia).
  replace (0 + len <? len) with false by (symmetry; apply Z.ltb_ge; lia).
  rewrite take_ge by lia. done.
Qed.

Lemma write_twice_all fd p buf :
  0 <= fd -> length buf = 84%nat -> wr_script p = [] ->
  write_twice fd p buf
  = Some {| wire := wire p ++ buf ++ buf; wr_script := [];
            rd_script := rd_script p |}.
Proof.
  intros Hfd Hbuf Hs. unfold write_twice, ZEUS_COMMAND_PKT_LEN.
  rewrite zeus_write_all by (done || lia). cbn [mbind option_bind].
  rewrite zeus_write_all by (done || lia). cbn [mbind option_bind wire rd_script].
  by rewrite <- app_assoc.
Qed.

(** [zeus_read] writes nothing. *)
Lemma zeus_read_loop_wire fuel :
  forall fd p buf len read_count total rc ret buf' p',
  zeus_read_loop fuel fd p buf len read_count total rc = Some (ret, buf', p') ->
  wire p' = wire p /\ wr_script p' = wr_script p.
Proof.
  induction fuel as [|fuel IH];
    intros fd p buf len read_count total rc ret buf' p';
    cbn [zeus_read_loop]; destruct (total <? len); try congruence;
    try (by intros [= <- <- <-]).
  assert (Hp : wire (os_read fd p len).2 = wire p
               /\ wr_script (os_read fd p len).2 = wr_script p).
  { unfold os_read. destruct (fd <? 0); [done|].
    by destruct (rd_script p) as [|[c|] rest]. }
  destruct (os_read fd p len) as [[r got] p1]. cbn [snd] in Hp.
  destruct (r <? 0); [by intros [= <- <- <-]|].
  destruct (_ && _); [by intros [= <- <- <-]|].
  destruct (_ <? _); [done|].
  intros E. apply IH in E. destruct E, Hp. split; congruence.
Qed.

Lemma zeus_read_wire fd p buf len read_count ret buf' p' :
  zeus_read fd p buf len read_count = Some (ret, buf', p') ->
  wire p' = wire p /\ wr_script p' = wr_script p.
Proof. apply zeus_read_loop_wire. Qed.

Section DetectionSteps.
Context `{ZeusHeader}.

(** The steps of a detection that opened the port. *)
Lemma zeus_detect_one_inv opts env G p r G' p' lg :
  zeus_detect_one opts env G p = Some (r, G', p', lg) ->
  open_fd env <> -1 ->
  let clk := opt_zeus_chip_clk opts in
  let M := if G <? opt_zeus_chips_count opts
           then lowest_pow2 (opt_zeus_chips_count opts) else G in
  let log0 := if initial_startup_phase env then [InfoDetectAttempt] else [] in
  exists log1 fc log2 fci p1 p2,
    zeus_clk_to_freqcode clk = (log1, Some fc)
    /\ (if 150 <? clk then zeus_clk_to_freqcode 165 else zeus_clk_to_freqcode 139)
       = (log2, Some fci)
    /\ write_twice (open_fd env) p (detect_pkt golden_ob2 fci) = Some p1
    /\ write_twice (open_fd env) p1 (detect_pkt golden_ob2 fc) = Some p2
    /\ G' = M
    /\ if opt_zeus_nocheck_golden opts then
         p' = p2 /\ lg = log0 ++ log1 ++ log2
         /\ exists g,
              Double.to_u64
                (Double.div
                   (Double.mul
                      (Double.div
                         (Double.mul (Double.of_Z clk) (Double.of_Z 2))
                         (Double.of_Z 3))
                      (Double.of_Z 1024))
                   (Double.of_Z 8)) = Some g
              /\ detect_register opts env M fc g = Some r
       else
         exists x p3 ret nb,
           zeus_write (open_fd env) p2 (detect_pkt golden_ob fc)
             ZEUS_COMMAND_PKT_LEN = Some (x, p3)
           /\ zeus_read (open_fd env) p3 [0; 0; 0; 0] ZEUS_EVENT_PKT_LEN 100
              = Some (ret, nb, p')
           /\ if be32toh (load_u32 nb) =? golden_nonce_val then
                lg = log0 ++ log1 ++ log2
                /\ exists g,
                     Double.to_u64
                       (Double.div (Double.of_Z 0xd26)
                          (tdiff (tv_finish env) (tv_start env))) = Some g
                     /\ detect_register opts env M fc g = Some r
              else
                r = DetectFalse
                /\ lg = (log0 ++ log1 ++ log2)
                        ++ [ErrGoldenTestFailed (be32toh (load_u32 nb))
                              golden_nonce_val].
Proof.
  intros Hd Hfd. cbn zeta. revert Hd. unfold zeus_detect_one. cbn zeta.
  destruct (Z.eqb_spec (open_fd env) (-1)); [done|].
  destruct (zeus_clk_to_freqcode (opt_zeus_chip_clk opts)) as [log1 [fc|]]; [|done].
  cbn [mbind option_bind].
  destruct (if 150 <? _ then _ else _) as [log2 [fci|]]; [|done].
  cbn [mbind option_bind].
  destruct (write_twice _ p _) as [p1|] eqn:E1; [|done]. cbn [mbind option_bind].
  destruct (write_twice _ p1 _) as [p2|] eqn:E2; [|done]. cbn [mbind option_bind].
  destruct (opt_zeus_nocheck_golden opts); cbn [negb].
  - destruct (Double.to_u64 _) as [g|] eqn:Eg; [|done]. cbn [mbind option_bind].
    destruct (detect_register _ _ _ _ _) as [r0|] eqn:Er; [|done].
    cbn [mbind option_bind]. intros [= <- <- <- <-].
    exists log1, fc, log2, fci, p1, p2. repeat split; try done. eauto.
  - destruct (zeus_write _ p2 _ _) as [[x p3]|] eqn:E3; [|done].
    cbn [mbind option_bind].
    destruct (zeus_read _ p3 _ _ _) as [[[ret nb] p4]|] eqn:E4; [|done].
    cbn [mbind option_bind].
    destruct (be32toh (load_u32 nb) =? golden_nonce_val) eqn:En; cbn [negb].
    + destruct (Double.to_u64 _) as [g|] eqn:Eg; [|done]. cbn [mbind option_bind].
      destruct (detect_register _ _ _ _ _) as [r0|] eqn:Er; [|done].
      cbn [mbind option_bind]. intros [= <- <- <- <-].
      exists log1, fc, log2, fci, p1, p2. repeat split; try done.
      exists x, p3, ret, nb. rewrite En. repeat split; try done. eauto.
    + intros [= <- <- <- <-].
      exists log1, fc, log2, fci, p1, p2. repeat split; try done.
      exists x, p3, ret, nb. rewrite En. done.
Qed.

(** What [detect_register] computes for a board it registers. *)
Lemma detect_register_inv opts env M fc g r :
  detect_register opts env M fc g = Some r ->
  (r = DetectQuit
   /\ (calloc_cgpu_ok env = false \/ calloc_info_ok env = false
       \/ Z.land M (M - 1) <> 0 \/ add_cgpu_ok env = false))
  \/ (Z.land M (M - 1) = 0 /\ add_cgpu_ok env = true
      /\ exists sec usec cc rc,
           int_mul ZEUS_CHIP_CORES M = Some cc
           /\ u64_div (4294967296 * 10) (u64 (u64 (u64 cc * g) * 2)) = Some rc
           /\ r = DetectTrue
                    (new_info opts M fc g sec usec (u32 (u32 rc * 3) / 4))).
Proof.
  unfold detect_register. cbn zeta.
  destruct (calloc_cgpu_ok env); cbn [negb]; [|intros [= <-]; left; auto].
  destruct (calloc_info_ok env); cbn [negb]; [|intros [= <-]; left; auto].
  destruct (u64_div 4294967296 _) as [sec|]; [|done]. cbn [mbind option_bind].
  destruct (u64_div (4294967296 * 1000000) _) as [q|]; [|done].
  cbn [mbind option_bind].
  destruct (u64_rem q 1000000) as [usec|]; [|done]. cbn [mbind option_bind].
  destruct (int_mul _ _) as [cc|]; [|done]. cbn [mbind option_bind].
  destruct (u64_div (4294967296 * 10) _) as [rc|] eqn:Erc; [|done].
  cbn [mbind option_bind].
  destruct (Z.eqb_spec (Z.land M (M - 1)) 0) as [HM|HM]; cbn [negb].
  - destruct (add_cgpu_ok env); cbn [negb]; intros [= <-].
    + right. repeat split; try done. by exists sec, usec, cc, rc.
    + left. auto.
  - intros [= <-]. left. auto.
Qed.

(** X9: a detection that opens the port on a line that accepts
    everything sends exactly four packets of 84 bytes, and a fifth when
    the golden test is run: twice the second golden payload with the code
    of the starting clock (165 MHz for a clock above 150 MHz, else
    139 MHz), twice the same payload with the code of the clock asked for,
    then the golden payload with that code.  Every packet begins with the
    code, its complement, 0 and 1; the payload follows from its fifth
    byte on. *)
Theorem detection_packets opts env G p r G' p' lg :
  0 <= open_fd env -> wr_script p = [] ->
  zeus_detect_one opts env G p = Some (r, G', p', lg) ->
  exists fci fc,
    snd (zeus_clk_to_freqcode
           (if 150 <? opt_zeus_chip_clk opts then 165 else 139)) = Some fci
    /\ snd (zeus_clk_to_freqcode (opt_zeus_chip_clk opts)) = Some fc
    /\ let pkt payload code :=
         [code; u8 (Z.lnot code); 0; 1] ++ drop 4 (hex2bin payload) in
       wire p'
       = wire p ++ pkt golden_ob2 fci ++ pkt golden_ob2 fci
           ++ pkt golden_ob2 fc ++ pkt golden_ob2 fc
           ++ (if opt_zeus_nocheck_golden opts then [] else pkt golden_ob fc)
       /\ Z.of_nat (length (wire p'))
          = Z.of_nat (length (wire p))
            + 84 * (if opt_zeus_nocheck_golden opts then 4 else 5).
Proof.
  intros Hfd Hs Hd. apply zeus_detect_one_inv in Hd; [|lia]. cbn zeta in Hd.
  destruct Hd as (log1 & fc & log2 & fci & p1 & p2 & E1 & E2 & W1 & W2 & _ & Hd).
  exists fci, fc.
  split; [by destruct (150 <? _); rewrite E2|].
  split; [by rewrite E1|]. cbn zeta.
  destruct (detect_pkt_format golden_ob2 fci ltac:(by right)) as [F1 L1].
  destruct (detect_pkt_format golden_ob2 fc ltac:(by right)) as [F2 L2].
  destruct (detect_pkt_format golden_ob fc ltac:(by left)) as [F3 L3].
  rewrite write_twice_all in W1 by done. injection W1 as <-.
  rewrite write_twice_all in W2 by done. injection W2 as <-.
  cbn [wire rd_script] in Hd.
  rewrite <- F1, <- F2, <- F3.
  assert (Hw : wire p'
               = wire p ++ detect_pkt golden_ob2 fci ++ detect_pkt golden_ob2 fci
                   ++ detect_pkt golden_ob2 fc ++ detect_pkt golden_ob2 fc
                   ++ (if opt_zeus_nocheck_golden opts then []
                       else detect_pkt golden_ob fc)).
  { destruct (opt_zeus_nocheck_golden opts).
    - destruct Hd as (-> & _ & _). cbn [wire]. by rewrite <- !app_assoc.
    - destruct Hd as (x & p3 & ret & nb & W3 & R & _).
      unfold ZEUS_COMMAND_PKT_LEN in W3.
      rewrite zeus_write_all in W3 by (done || lia).
      injection W3 as _ <-.
      apply zeus_read_wire in R as [-> _]. cbn [wire]. by rewrite <- !app_assoc. }
  split; [done|]. rewrite Hw, !length_app, L1, L2.
  destruct (opt_zeus_nocheck_golden opts); [cbn [length] | rewrite L3]; lia.
Qed.

Lemma pow2_land_pred k : 0 <= k <= 10 -> Z.land (2 ^ k) (2 ^ k - 1) = 0.
Proof.
  intros Hk.
  apply (Z.eqb_eq _ _),
    (forallb_seqZ (fun k => Z.land (2 ^ k) (2 ^ k - 1) =? 0) 0 11);
    [vm_compute; reflexivity | lia].
Qed.

(** X10: the process-wide maximum being a power of two at every point
    it can reach, the check [chips_count_max & (chips_count_max - 1)] never
    fires: the maximum a detection leaves passes it, and a detection ends
    the process only when one of the two allocations fails or [add_cgpu]
    refuses the board. *)
Theorem detection_never_quits_for_power_of_two opts env G p r G' p' lg :
  max_reachable G ->
  zeus_detect_one opts env G p = Some (r, G', p', lg) ->
  Z.land G' (G' - 1) = 0
  /\ (r = DetectQuit ->
      calloc_cgpu_ok env = false \/ calloc_info_ok env = false
      \/ add_cgpu_ok env = false).
Proof.
  intros HG Hd.
  pose proof (zeus_detect_one_max _ _ _ _ _ _ _ _ Hd) as EG.
  assert (HM : Z.land G' (G' - 1) = 0).
  { destruct (max_reachable_pow2 G') as (k & Hk & ->);
      [rewrite EG; by constructor | by apply pow2_land_pred]. }
  split; [done|]. intros ->.
  assert (Hfd : open_fd env <> -1).
  { intros E. unfold zeus_detect_one in Hd. cbn zeta in Hd.
    rewrite E in Hd. change (-1 =? -1) with true in Hd. cbn iota in Hd.
    congruence. }
  pose proof (zeus_detect_one_inv _ _ _ _ _ _ _ _ Hd Hfd) as Hi.
  cbn zeta in Hi.
  destruct Hi as (log1 & fc & log2 & fci & p1 & p2 & _ & _ & _ & _ & _ & Hi).
  rewrite <- EG in Hi.
  assert (Hr : forall g, detect_register opts env G' fc g = Some DetectQuit ->
                         calloc_cgpu_ok env = false \/ calloc_info_ok env = false
                         \/ add_cgpu_ok env = false).
  { intros g Er. apply detect_register_inv in Er.
    destruct Er as [[_ [?|[?|[?|?]]]] | (_ & _ & ? & ? & ? & ? & _ & _ & ?)];
      auto; done. }
  destruct (opt_zeus_nocheck_golden opts).
  - destruct Hi as (_ & _ & g & _ & Er). by apply (Hr g).
  - destruct Hi as (x & p3 & ret & nb & _ & _ & Hi).
    destruct (_ =? _).
    + destruct Hi as (_ & g & _ & Er). by apply (Hr g).
    + by destruct Hi.
Qed.

(** X11: the process-wide maximum [opt_zeus_chips_count_max] is raised
    before the port is opened, so every detection that returns, a failed
    one included, leaves it raised.  It never gets smaller, it stays a
    power of two of at most 1024 and covers every declared count up to
    1024.  A detection whose port does not open returns false without
    touching the line; during the start-up phase it logs the attempt and
    the failure, afterwards nothing.  A board that is registered carries
    the maximum of the
    process, which a board detected earlier may have raised. *)
Theorem detection_raises_max opts env G p r G' p' lg :
  max_reachable G ->
  zeus_detect_one opts env G p = Some (r, G', p', lg) ->
  G <= G' <= 1024 /\ is_pow2 G' /\ max_reachable G'
  /\ (opt_zeus_chips_count opts <= 1024 -> opt_zeus_chips_count opts <= G')
  /\ (open_fd env = -1 ->
      r = DetectFalse /\ p' = p
      /\ lg = if initial_startup_phase env
              then [InfoDetectAttempt; ErrDetectOpenFailed] else [])
  /\ (forall info, r = DetectTrue info ->
        chips_count_max info = G' /\ 2 ^ chips_bit_num info = G').
Proof.
  intros HG Hd. pose proof (zeus_detect_one_max _ _ _ _ _ _ _ _ Hd) as EG.
  assert (HG' : max_reachable G') by (rewrite EG; by constructor).
  destruct (max_reachable_pow2 _ HG) as (k & Hk & Ek).
  destruct (max_reachable_pow2 _ HG') as (k' & Hk' & Ek').
  assert (G <= 1024)
    by (rewrite Ek; change 1024 with (2 ^ 10); apply Z.pow_le_mono_r; lia).
  assert (G' <= 1024)
    by (rewrite Ek'; change 1024 with (2 ^ 10); apply Z.pow_le_mono_r; lia).
  destruct (lowest_pow2_spec (opt_zeus_chips_count opts)) as (_ & Hle & Hcap & _).
  split; [|split; [|split; [|split; [|split]]]].
  - split; [|done]. rewrite EG.
    destruct (Z.ltb_spec G (opt_zeus_chips_count opts)); [|lia].
    destruct (Z_le_gt_dec (opt_zeus_chips_count opts) 1024); [|rewrite Hcap]; lia.
  - exists k'. split; [lia | done].
  - done.
  - intros HC. rewrite EG.
    destruct (Z.ltb_spec G (opt_zeus_chips_count opts)); [auto | lia].
  - intros E. unfold zeus_detect_one in Hd. cbn zeta in Hd.
    rewrite E in Hd. change (-1 =? -1) with true in Hd. cbn iota in Hd.
    injection Hd as <- _ <- <-. by destruct (initial_startup_phase env).
  - intros info ->. apply zeus_detect_one_true in Hd. cbn zeta in Hd.
    destruct Hd as [_ (fc & g & Hr)].
    apply detect_register_true in Hr. cbn zeta in Hr.
    destruct Hr as (_ & _ & rc & ->).
    cbn [chips_count_max chips_bit_num new_info].
    rewrite <- EG. split; [done|]. rewrite Ek', log_2_pow2 by lia. done.
Qed.

(** X12: the number of empty reads the board grants a response.  With
    a speed [g >= 1] and a maximum [M >= 1], and as long as the product
    [16 * M * g] fits 64 bits, [read_count] is
    [2 ^ 32 * 10 / (8 * M * g * 2) * 3 / 4], with both divisions rounded
    down, whenever [g * M >= 2].  For [g * M = 1] the multiplication by 3
    wraps in 32 bits and leaves 939524096 instead of 2013265920. *)
Theorem detected_read_count opts env G p info G' p' lg :
  zeus_detect_one opts env G p = Some (DetectTrue info, G', p', lg) ->
  let g := golden_speed_per_core info in
  let M := chips_count_max info in
  1 <= g -> 1 <= M -> 16 * M * g < 2 ^ 64 ->
  (2 <= g * M ->
   read_count info = 2 ^ 32 * 10 / (cores_per_chip info * M * g * 2) * 3 / 4
   /\ 0 <= read_count info <= 1006632960)
  /\ (g * M = 1 ->
      read_count info = 939524096
      /\ 2 ^ 32 * 10 / (cores_per_chip info * M * g * 2) * 3 / 4 = 2013265920).
Proof.
  intros Hd. apply zeus_detect_one_true in Hd. cbn zeta in Hd.
  destruct Hd as [_ (fc & g & Hr)].
  apply detect_register_inv in Hr.
  destruct Hr as [[? _] | (_ & _ & sec & usec & cc & rc & Ecc & Erc & Ei)]; [done|].
  injection Ei as ->.
  cbn [golden_speed_per_core chips_count_max cores_per_chip read_count new_info].
  set (M := if G <? opt_zeus_chips_count opts
            then lowest_pow2 (opt_zeus_chips_count opts) else G) in *.
  intros Hg HM Hfit.
  unfold int_mul, ZEUS_CHIP_CORES in *.
  destruct (_ && _); [|done]. injection Ecc as <-.
  rewrite (u64_small (8 * M)), (u64_small (8 * M * g)), (u64_small (8 * M * g * 2))
    in Erc by nia.
  unfold u64_div in Erc. destruct (_ =? 0); [done|]. injection Erc as <-.
  change (4294967296 * 10) with (2 ^ 32 * 10).
  split.
  - intros HgM.
    assert (Hrc : 0 <= 2 ^ 32 * 10 / (8 * M * g * 2) <= 1342177280).
    { split; [apply Z.div_pos; nia|].
      apply Z.div_le_upper_bound; nia. }
    rewrite (u32_small (_ / _)) by lia.
    rewrite u32_small by lia.
    split; [done|]. split; [apply Z.div_pos; lia|].
    apply Z.div_le_upper_bound; lia.
  - intros HgM. assert (g = 1 /\ M = 1) as [-> ->] by nia. done.
Qed.

End DetectionSteps.

Lemma detection_packets_witness :
  0 <= open_fd sample_env /\ wr_script (answering [0x00; 0x03; 0x8D; 0x26]) = []
  /\ exists p',
       (fun '(r, G, p, lg) => p)
         <$> @zeus_detect_one header_le sample_opts sample_env 1
               (answering [0x00; 0x03; 0x8D; 0x26]) = Some p'
       /\ Z.of_nat (length (wire p')) = 0 + 84 * 5.
Proof.
  split; [cbn; lia|]. split; [reflexivity|].
  destruct (@zeus_detect_one header_le sample_opts sample_env 1
              (answering [0x00; 0x03; 0x8D; 0x26]))
    as [[[[r G'] p'] lg]|] eqn:E; [|by vm_compute in E].
  exists p'. split; [reflexivity|].
  destruct (@detection_packets header_le sample_opts sample_env 1
              (answering [0x00; 0x03; 0x8D; 0x26]) r G' p' lg
              ltac:(cbn; lia) eq_refl E) as (fci & fc & _ & _ & _ & Hlen).
  exact Hlen.
Defined.

Lemma detection_never_quits_for_power_of_two_witness :
  max_reachable 1
  /\ detect_outcome
       (@zeus_detect_one header_le sample_opts refusing_env 1
          (answering [0x00; 0x03; 0x8D; 0x26])) = Some DetectQuit
  /\ (calloc_cgpu_ok refusing_env = false \/ calloc_info_ok refusing_env = false
      \/ add_cgpu_ok refusing_env = false).
Proof.
  split; [constructor|].
  assert (E : detect_outcome
                (@zeus_detect_one header_le sample_opts refusing_env 1
                   (answering [0x00; 0x03; 0x8D; 0x26])) = Some DetectQuit)
    by (vm_compute; reflexivity).
  split; [exact E|].
  destruct (@zeus_detect_one header_le sample_opts refusing_env 1
              (answering [0x00; 0x03; 0x8D; 0x26]))
    as [[[[r G'] p'] lg]|] eqn:Ed; [|discriminate].
  cbn in E. injection E as ->.
  exact (proj2 (@detection_never_quits_for_power_of_two header_le sample_opts
                  refusing_env 1 (answering [0x00; 0x03; 0x8D; 0x26])
                  DetectQuit G' p' lg max_initial Ed) eq_refl).
Defined.

Lemma detection_raises_max_witness :
  max_reachable 1
  /\ open_fd closed_env = -1
  /\ exists G' p' lg,
       @zeus_detect_one header_le sample_opts closed_env 1 sample_port
       = Some (DetectFalse, G', p', lg)
       /\ 1 <= G' <= 1024 /\ 6 <= G'
       /\ p' = sample_port
       /\ lg = [InfoDetectAttempt; ErrDetectOpenFailed].
Proof.
  split; [constructor|]. split; [reflexivity|].
  destruct (@zeus_detect_one header_le sample_opts closed_env 1 sample_port)
    as [[[[r G'] p'] lg]|] eqn:Ed; [|by vm_compute in Ed].
  destruct (@detection_raises_max header_le sample_opts closed_env 1 sample_port
              r G' p' lg max_initial Ed) as (Hr & _ & _ & Hc & Hf & _).
  destruct (Hf eq_refl) as (-> & Hp & Hl).
  exists G', p', lg. split; [reflexivity|].
  split; [exact Hr|]. split; [apply Hc; cbn; lia|].
  split; [exact Hp | exact Hl].
Defined.

Lemma detected_read_count_witness :
  detected_board
    (@zeus_detect_one header_le sample_opts sample_env 1
       (answering [0x00; 0x03; 0x8D; 0x26])) = Some sample_info
  /\ 1 <= golden_speed_per_core sample_info
  /\ 1 <= chips_count_max sample_info
  /\ 2 <= golden_speed_per_core sample_info * chips_count_max sample_info
  /\ read_count sample_info
     = 2 ^ 32 * 10 / (cores_per_chip sample_info * chips_count_max sample_info
                      * golden_speed_per_core sample_info * 2) * 3 / 4.
Proof.
  split; [vm_compute; reflexivity|].
  split; [vm_compute; congruence|]. split; [vm_compute; congruence|].
  split; [vm_compute; congruence|].
  assert (E : exists G' p' lg,
            @zeus_detect_one header_le sample_opts sample_env 1
              (answering [0x00; 0x03; 0x8D; 0x26])
            = Some (DetectTrue sample_info, G', p', lg))
    by (vm_compute; eauto).
  destruct E as (G' & p' & lg & E).
  apply (@detected_read_count header_le sample_opts sample_env 1
           (answering [0x00; 0x03; 0x8D; 0x26]) sample_info G' p' lg E);
    vm_compute; congruence.
Defined.

(** On a line that brings nothing, [zeus_read] stops at the first error
    or after [read_count] empty reads, the buffer untouched. *)
Lemma zeus_read_loop_nothing fuel :
  forall fd p buf len read_count total rc,
  incoming p = [] -> 0 <= total <= Z.of_nat (length buf) ->
  (Z.to_nat (read_count - 1 - rc) < fuel)%nat ->
  exists ret p',
    zeus_read_loop fuel fd p buf len read_count total rc = Some (ret, buf, p')
    /\ (ret = -1 \/ ret = total).
Proof.
  induction fuel as [|fuel IH]; intros fd p buf len read_count total rc Hin Ht Hf;
    [lia|].
  cbn [zeus_read_loop].
  destruct (total <? len); [|by exists total, p; auto].
  assert (Hos : os_read fd p len = (-1, [], (os_read fd p len).2)
                \/ (os_read fd p len = (0, [], (os_read fd p len).2)
                    /\ incoming (os_read fd p len).2 = [])).
  { unfold os_read, incoming in *. destruct (fd <? 0); [by left|].
    destruct (rd_script p) as [|[c|] rest] eqn:Es; cbn [snd].
    - right. unfold incoming. by rewrite Es.
    - cbn [incoming_of] in Hin. apply app_eq_nil in Hin as [-> Hrest].
      right. rewrite take_nil, drop_nil. done.
    - by left. }
  destruct Hos as [-> | [-> Hin']].
  - change (-1 <? 0) with true. cbn iota.
    exists (-1), (os_read fd p len).2. auto.
  - change (0 <? 0) with false. change (0 =? 0) with true. cbn iota. cbn [andb].
    destruct (Z.leb_spec read_count (rc + 1));
      [by exists total, (os_read fd p len).2; auto|].
    rewrite Z.add_0_r.
    replace (Z.of_nat (length buf) <? total) with false
      by (symmetry; apply Z.ltb_ge; lia).
    replace (store buf total []) with buf.
    2:{ unfold store. cbn [app length]. rewrite Nat.add_0_r. by rewrite take_drop. }
    apply IH; [done | lia | lia].
Qed.

Lemma zeus_read_nothing fd p buf len read_count :
  incoming p = [] ->
  exists ret p',
    zeus_read fd p buf len read_count = Some (ret, buf, p')
    /\ (ret = -1 \/ ret = 0).
Proof. intros Hin. apply zeus_read_loop_nothing; [done | lia | lia]. Qed.

Section DetectionClock.
Context `{ZeusHeader}.
Hypothesis clk_min_nonneg : 0 <= ZEUS_CLK_MIN.
Hypothesis clk_range : ZEUS_CLK_MIN <= ZEUS_CLK_MAX.
Hypothesis clk_max_byte : ZEUS_CLK_MAX <= 383.

(** Every clock has a code: the code of the clock clamped to the range. *)
Lemma zeus_clk_to_freqcode_clamped K :
  snd (zeus_clk_to_freqcode K)
  = Some (Z.max ZEUS_CLK_MIN (Z.min ZEUS_CLK_MAX K) * 2 / 3).
Proof using clk_min_nonneg clk_range clk_max_byte.
  unfold zeus_clk_to_freqcode.
  destruct (Z.ltb_spec ZEUS_CLK_MAX K).
  - replace (ZEUS_CLK_MAX <? ZEUS_CLK_MIN) with false
      by (symmetry; apply Z.ltb_ge; lia).
    cbn [snd]. rewrite freqcode_exact by lia. do 2 f_equal. lia.
  - destruct (Z.ltb_spec K ZEUS_CLK_MIN); cbn [snd];
      rewrite freqcode_exact by lia; do 2 f_equal; lia.
Qed.

(** X13: the golden test does not look at what [zeus_read] returns.
    When the board stays silent, or the read fails before a byte has
    come, the buffer still holds its zeros, the nonce is 0, and the
    detection returns false with the message of a failed test. *)
Theorem detection_fails_on_silent_line opts env G p :
  0 <= open_fd env -> opt_zeus_nocheck_golden opts = false ->
  incoming p = [] ->
  exists p' lg,
    zeus_detect_one opts env G p
    = Some (DetectFalse,
            (if G <? opt_zeus_chips_count opts
             then lowest_pow2 (opt_zeus_chips_count opts) else G),
            p', lg ++ [ErrGoldenTestFailed 0 golden_nonce_val]).
Proof using clk_min_nonneg clk_range clk_max_byte.
  intros Hfd Hcheck Hin. unfold zeus_detect_one. cbn zeta. rewrite Hcheck.
  replace (open_fd env =? -1) with false by (symmetry; apply Z.eqb_neq; lia).
  pose proof (zeus_clk_to_freqcode_clamped (opt_zeus_chip_clk opts)) as E1.
  destruct (zeus_clk_to_freqcode (opt_zeus_chip_clk opts)) as [log1 fc].
  cbn [snd] in E1. subst fc. cbn [mbind option_bind].
  assert (E2 : exists log2 fci,
            (if 150 <? opt_zeus_chip_clk opts
             then zeus_clk_to_freqcode 165 else zeus_clk_to_freqcode 139)
            = (log2, Some fci)).
  { destruct (150 <? _).
    - pose proof (zeus_clk_to_freqcode_clamped 165) as E.
      destruct (zeus_clk_to_freqcode 165) as [l c]. cbn [snd] in E. subst c. eauto.
    - pose proof (zeus_clk_to_freqcode_clamped 139) as E.
      destruct (zeus_clk_to_freqcode 139) as [l c]. cbn [snd] in E. subst c. eauto. }
  destruct E2 as (log2 & fci & ->). cbn [mbind option_bind negb].
  assert (Hw2 : forall q buf, exists q',
            write_twice (open_fd env) q buf = Some q'
            /\ rd_script q' = rd_script q).
  { intros q buf. unfold write_twice.
    destruct (zeus_write_total (open_fd env) q buf ZEUS_COMMAND_PKT_LEN)
      as [[r1 q1] Eq1].
    destruct (zeus_write_total (open_fd env) q1 buf ZEUS_COMMAND_PKT_LEN)
      as [[r2 q2] Eq2].
    rewrite Eq1. cbn [mbind option_bind]. rewrite Eq2. cbn [mbind option_bind].
    exists q2. split; [done|].
    apply zeus_write_rd in Eq1, Eq2. congruence. }
  destruct (Hw2 p (detect_pkt golden_ob2 fci)) as (p1 & -> & R1).
  cbn [mbind option_bind].
  destruct (Hw2 p1 (detect_pkt golden_ob2
              (Z.max ZEUS_CLK_MIN (Z.min ZEUS_CLK_MAX (opt_zeus_chip_clk opts))
               * 2 / 3))) as (p2 & -> & R2).
  cbn [mbind option_bind].
  destruct (zeus_write_total (open_fd env) p2
              (detect_pkt golden_ob
                 (Z.max ZEUS_CLK_MIN (Z.min ZEUS_CLK_MAX (opt_zeus_chip_clk opts))
                  * 2 / 3)) ZEUS_COMMAND_PKT_LEN) as [[r3 p3] E3].
  rewrite E3. cbn [mbind option_bind].
  assert (Hin3 : incoming p3 = []).
  { apply zeus_write_rd in E3. unfold incoming in *. congruence. }
  destruct (zeus_read_nothing (open_fd env) p3 [0; 0; 0; 0] ZEUS_EVENT_PKT_LEN 100
              Hin3) as (ret & p4 & -> & _).
  cbn [mbind option_bind].
  rewrite be32toh_load_u32
    by (repeat constructor; unfold is_byte; lia).
  change (be_int [0; 0; 0; 0]) with 0.
  replace (0 =? golden_nonce_val) with false
    by (symmetry; apply Z.eqb_neq; rewrite golden_nonce_val_eq;
        destruct host_order; lia).
  cbn [negb]. eauto.
Qed.

(** The speed a detection without the golden test computes, on every
    clock up to 4095 MHz. *)
Lemma unchecked_speed_exact clk :
  0 <= clk <= 4095 ->
  Double.to_u64
    (Double.div
       (Double.mul
          (Double.div (Double.mul (Double.of_Z clk) (Double.of_Z 2))
                      (Double.of_Z 3))
          (Double.of_Z 1024))
       (Double.of_Z 8))
  = Some (clk * 256 / 3).
Proof.
  intros Hclk.
  pose proof (forallb_seqZ
    (fun k => match Double.to_u64
                      (Double.div
                         (Double.mul
                            (Double.div (Double.mul (Double.of_Z k) (Double.of_Z 2))
                                        (Double.of_Z 3))
                            (Double.of_Z 1024))
                         (Double.of_Z 8)) with
              | Some c => c =? k * 256 / 3
              | None => false
              end) 0 4096) as Hall.
  specialize (Hall ltac:(vm_compute; reflexivity) clk ltac:(lia)).
  cbv beta in Hall.
  destruct (Double.to_u64 _) as [c|]; [|done]. by apply Z.eqb_eq in Hall as ->.
Qed.

(** X14: a detection that skips the golden test takes the speed from
    the clock as it was asked for, [floor (clk * 256 / 3)] hashes per
    second and core, and stores that clock in [chip_clk], while the code
    sent to the board is the code of the clock clamped to the range: for
    a clock outside the range the speed and the code disagree. *)
Theorem detection_unchecked_speed opts env G p info G' p' lg :
  opt_zeus_nocheck_golden opts = true ->
  0 <= opt_zeus_chip_clk opts <= 4095 ->
  zeus_detect_one opts env G p = Some (DetectTrue info, G', p', lg) ->
  golden_speed_per_core info = opt_zeus_chip_clk opts * 256 / 3
  /\ chip_clk info = opt_zeus_chip_clk opts
  /\ freqcode info
     = Z.max ZEUS_CLK_MIN (Z.min ZEUS_CLK_MAX (opt_zeus_chip_clk opts)) * 2 / 3.
Proof using clk_min_nonneg clk_range clk_max_byte.
  intros Hno Hclk Hd.
  assert (Hfd : open_fd env <> -1).
  { intros E. unfold zeus_detect_one in Hd. cbn zeta in Hd.
    rewrite E in Hd. change (-1 =? -1) with true in Hd. cbn iota in Hd.
    congruence. }
  apply zeus_detect_one_inv in Hd; [|done]. cbn zeta in Hd.
  destruct Hd as (log1 & fc & log2 & fci & p1 & p2 & E1 & _ & _ & _ & _ & Hd).
  rewrite Hno in Hd. destruct Hd as (_ & _ & g & Eg & Er).
  rewrite unchecked_speed_exact in Eg by done. injection Eg as <-.
  pose proof (zeus_clk_to_freqcode_clamped (opt_zeus_chip_clk opts)) as Ec.
  rewrite E1 in Ec. cbn [snd] in Ec. injection Ec as ->.
  apply detect_register_true in Er. cbn zeta in Er.
  destruct Er as (_ & _ & rc & ->). done.
Qed.

End DetectionClock.

Lemma detection_fails_on_silent_line_witness :
  0 <= @ZEUS_CLK_MIN header_le /\ 0 <= open_fd sample_env
  /\ incoming sample_port = []
  /\ exists p' lg,
       @zeus_detect_one header_le sample_opts sample_env 1 sample_port
       = Some (DetectFalse, 8, p',
               lg ++ [ErrGoldenTestFailed 0 (@golden_nonce_val header_le)]).
Proof.
  split; [cbn; lia|]. split; [cbn; lia|]. split; [reflexivity|].
  apply (@detection_fails_on_silent_line header_le
           ltac:(cbn; lia) ltac:(cbn; lia) ltac:(cbn; lia)
           sample_opts sample_env 1 sample_port);
    [cbn; lia | reflexivity | reflexivity].
Defined.

Lemma detection_unchecked_speed_witness :
  0 <= 500 <= 4095
  /\ exists info,
       detected_board
         (@zeus_detect_one header_le
            {| opt_zeus_chips_count := 6; opt_zeus_chip_clk := 500;
               opt_zeus_nocheck_golden := true |} sample_env 1 sample_port)
       = Some info
       /\ golden_speed_per_core info = 500 * 256 / 3
       /\ chip_clk info = 500
       /\ freqcode info = 382 * 2 / 3.
Proof.
  split; [lia|].
  set (opts := {| opt_zeus_chips_count := 6; opt_zeus_chip_clk := 500;
                  opt_zeus_nocheck_golden := true |}).
  assert (E : exists info G' p' lg,
            @zeus_detect_one header_le opts sample_env 1 sample_port
            = Some (DetectTrue info, G', p', lg)) by (vm_compute; eauto 10).
  destruct E as (info & G' & p' & lg & Ed). exists info.
  split; [by rewrite Ed|].
  apply (@detection_unchecked_speed header_le
           ltac:(cbn; lia) ltac:(cbn; lia) ltac:(cbn; lia)
           opts sample_env 1 sample_port info G' p' lg);
    [reflexivity | cbn; lia | exact Ed].
Defined.

(** ** The protocol, continued *)

Section ProtocolFacts.
Context `{ZeusHeader}.




(** X18: what a transmission leaves.  On success the board and the host
    are as before and nothing is logged.  On failure the work of the slot
    is freed, the descriptor is marked closed and the error is logged.
    With a closed descriptor the transmission fails and nothing reaches
    the line; on an open line that accepts everything it succeeds and the
    84 bytes of the packet are on the wire. *)
Theorem zeus_send_work_outcomes info w h p ok info' h' p' lg :
  zeus_send_work info w h p = Some (ok, info', h', p', lg) ->
  (if ok then info' = info /\ h' = h /\ lg = []
   else current_work info' = None /\ device_fd info' = -1
        /\ submitted h' = submitted h
        /\ freed h'
           = freed h ++ match current_work info with Some w => [w] | None => [] end
        /\ lg = [NoticeSendError])
  /\ (device_fd info < 0 -> ok = false /\ p' = p)
  /\ (0 <= device_fd info -> wr_script p = [] ->
      ok = true /\ zeus_cmdpkt info w = Some (drop (length (wire p)) (wire p'))
      /\ Z.of_nat (length (wire p')) = Z.of_nat (length (wire p)) + 84).
Proof.
  intros E. unfold zeus_send_work in E.
  destruct (zeus_cmdpkt info w) as [pkt|] eqn:Ec; [|done].
  cbn [mbind option_bind] in E.
  destruct (zeus_write _ _ _ _) as [[ret p1]|] eqn:Ew; [|done].
  cbn [mbind option_bind] in E.
  assert (Hpkt : length pkt = 84%nat).
  { unfold zeus_cmdpkt in Ec.
    destruct (Double.to_u32 _) as [t|]; [|done]. cbn [mbind option_bind] in Ec.
    destruct (Z.ltb_spec (Z.of_nat (length (data w))) 80) as [|Hd]; [done|].
    cbn [app drop take] in Ec.
    destruct (rev _ 80) as [body|] eqn:Eb; [|done]. injection Ec as <-.
    rewrite drop_0 in Eb.
    assert (Ht : length (take 80 (data w)) = 80%nat) by (rewrite length_take; lia).
    rewrite (rev_reverses _ 80) in Eb by lia.
    injection Eb as <-. cbn [length app]. rewrite length_rev, Ht. done. }
  split; [|split].
  - unfold zeus_purge_work in E.
    destruct (ret <? 0); destruct (current_work info) eqn:Es;
      injection E as <- <- <- <- <-; repeat split; try done.
    cbn. by rewrite app_nil_r.
  - intros Hfd. unfold zeus_write in Ew. cbn [zeus_write_loop] in Ew.
    change (0 <? ZEUS_COMMAND_PKT_LEN) with true in Ew. cbn iota in Ew.
    unfold os_write in Ew.
    replace (device_fd info <? 0) with true in Ew
      by (symmetry; apply Z.ltb_lt; lia).
    cbn in Ew. injection Ew as <- <-.
    destruct (zeus_purge_work info h). by injection E as <- _ _ <- _.
  - intros Hfd Hs. unfold ZEUS_COMMAND_PKT_LEN in Ew.
    rewrite zeus_write_all in Ew by (done || lia). injection Ew as <- <-.
    change (84 <? 0) with false in E. cbn iota in E.
    injection E as <- _ _ <- _. cbn [wire].
    rewrite drop_app_length, length_app. split; [done|]. split; [done|]. lia.
Qed.

End ProtocolFacts.




Lemma zeus_send_work_outcomes_witness :
  0 <= device_fd working_info /\ wr_script sample_port = []
  /\ exists p',
       (fun '(ok, info, h, p, lg) => p)
         <$> zeus_send_work working_info sample_work sample_host sample_port
       = Some p'
       /\ Z.of_nat (length (wire p')) = Z.of_nat (length (wire sample_port)) + 84.
Proof.
  split; [cbn; lia|]. split; [reflexivity|].
  destruct (zeus_send_work working_info sample_work sample_host sample_port)
    as [[[[[ok info'] h'] p'] lg]|] eqn:E; [|by vm_compute in E].
  exists p'. split; [reflexivity|].
  destruct (zeus_send_work_outcomes working_info sample_work sample_host
              sample_port ok info' h' p' lg E) as (_ & _ & Hw).
  apply Hw; [cbn; lia | reflexivity].
Defined.

(** ** The I/O loop *)

Section RoundFacts.
Context `{ZeusHeader}.

(** The stations of a round of the I/O loop. *)
Lemma zeus_io_round_inv e d d' :
  zeus_io_round e d = Some d' ->
  drv_shutdown d = false ->
  let r := if device_fd (drv_info d) =? -1
           then zeus_reopen (io_open_fd e) (drv_info d)
           else (true, drv_info d, []) in
  (r.1.1 = false
   /\ (drv_info d', drv_host d', drv_port d', drv_sent d')
      = (r.1.2, drv_host d, drv_port d, drv_sent d))
  \/ exists b i1 h1 o i2 h2 p2 lg2,
       r.1.1 = true
       /\ zeus_check_need_work (io_other e) r.1.2 (drv_host d) = (b, i1, h1)
       /\ io_send (io_now e) i1 h1 (drv_port d) = Some (o, i2, h2, p2, lg2)
       /\ drv_sent d'
          = match o with SendDone => S (drv_sent d) | _ => drv_sent d end
       /\ match o with
          | SendFailed => (drv_info d', drv_host d', drv_port d') = (i2, h2, p2)
          | _ => round_tail e (i2, h2, p2) (drv_info d', drv_host d', drv_port d')
          end.
Proof.
  unfold zeus_io_round. intros E Hs. rewrite Hs in E. cbn zeta.
  destruct (if device_fd (drv_info d) =? -1 then _ else _) as [[opened i0] lg0].
  cbn [fst snd].
  destruct opened; cbn [negb] in E; [|injection E as <-; by left].
  right.
  destruct (zeus_check_need_work _ i0 _) as [[b i1] h1].
  destruct (io_send _ i1 h1 _) as [[[[[o i2] h2] p2] lg2]|] eqn:Es; [|done].
  cbn [mbind option_bind] in E.
  exists b, i1, h1, o, i2, h2, p2, lg2.
  split; [done|]. split; [done|]. split; [done|].
  unfold round_tail.
  destruct o; try (injection E as <-; done).
  all: destruct (io_poll e) as [eintr| |de di pi]; try (injection E as <-; done).
  all: try (destruct (zeus_purge_work i2 h2) as [i3 h3]; injection E as <-; done).
  all: destruct (io_events _ _ _ _ _ _ _) as [[[[[i3 h3] p3] lg3] stop]|];
    [|done]; cbn [mbind option_bind] in E; injection E as <-; cbn; eauto.
Qed.

End RoundFacts.

(** ** The slot, the works and the wire through the calls of the driver *)

Lemma slot_kept_refl i h : slot_kept_or_freed i h i h.
Proof. unfold slot_kept_or_freed. auto. Qed.

Lemma slot_kept_same i h i' :
  current_work i' = current_work i -> slot_kept_or_freed i h i' h.
Proof. unfold slot_kept_or_freed. auto. Qed.

Lemma slot_kept_trans i h i1 h1 i2 h2 :
  slot_kept_or_freed i h i1 h1 -> slot_kept_or_freed i1 h1 i2 h2 ->
  slot_kept_or_freed i h i2 h2.
Proof.
  unfold slot_kept_or_freed.
  intros (Ht & Hd & H1) (Ht' & Hd' & H2).
  split; [congruence|]. split; [congruence|].
  destruct H1 as [[Ec Ef]|[Ec Ef]], H2 as [[Ec' Ef']|[Ec' Ef']].
  - left. split; congruence.
  - right. split; [done|]. rewrite Ef', Ef, Ec. done.
  - right. split; [congruence|]. congruence.
  - right. split; [done|]. rewrite Ef', Ec, app_nil_r. done.
Qed.

Lemma slot_kept_purge i h :
  slot_kept_or_freed i h (zeus_purge_work i h).1 (zeus_purge_work i h).2.
Proof.
  unfold slot_kept_or_freed, zeus_purge_work.
  destruct (current_work i) eqn:E; cbn; rewrite ?E; auto.
Qed.

Lemma slot_kept_settled i h i' h' :
  slot_kept_or_freed i h i' h' -> slot_settled i -> slot_settled i'.
Proof.
  unfold slot_kept_or_freed, slot_settled.
  intros (_ & _ & [[-> _]|[-> _]]); done.
Qed.

Lemma slot_kept_balanced i h i' h' :
  slot_kept_or_freed i h i' h' -> works_balanced i h -> works_balanced i' h'.
Proof.
  unfold slot_kept_or_freed, works_balanced, held.
  intros (-> & -> & [[-> ->]|[-> ->]]); [done|].
  intros ->. rewrite length_app. destruct (current_work i); cbn; lia.
Qed.

Lemma zeus_check_need_work_inv other i h b i1 h1 :
  zeus_check_need_work other i h = (b, i1, h1) ->
  (current_work i <> None /\ i1 = i /\ h1 = h)
  \/ (current_work i = None /\ current_work (other i) = None
      /\ i1 = set_current_work (Some (set_devflag false (get_work h).1)) (other i)
      /\ h1 = (get_work h).2)
  \/ (current_work i = None /\ current_work (other i) <> None
      /\ i1 = other i
      /\ h1 = discard_work (get_work h).1 (get_work h).2).
Proof.
  unfold zeus_check_need_work.
  destruct (current_work i) eqn:E; [intros [= _ <- <-]; by left|].
  cbn [get_work].
  destruct (current_work (other i)) eqn:E'; intros [= _ <- <-]; right;
    [right | left]; rewrite ?E'; done.
Qed.

(** [zeus_write] on a line that accepts everything. *)
Lemma zeus_write_open_line fd p buf len ret p' :
  wr_script p = [] -> 0 < len -> Z.of_nat (length buf) = len ->
  zeus_write fd p buf len = Some (ret, p') ->
  (fd < 0 /\ ret = -1 /\ p' = p)
  \/ (0 <= fd /\ ret = len /\ wire p' = wire p ++ buf /\ wr_script p' = []
      /\ rd_script p' = rd_script p).
Proof.
  intros Hs Hlen Hbuf E. destruct (Z_lt_le_dec fd 0) as [Hfd|Hfd].
  - left. unfold zeus_write in E. cbn [zeus_write_loop] in E.
    replace (0 <? len) with true in E by (symmetry; apply Z.ltb_lt; lia).
    unfold os_write in E.
    replace (fd <? 0) with true in E by (symmetry; apply Z.ltb_lt; lia).
    cbn in E. by injection E as <- <-.
  - right. rewrite zeus_write_all in E by done. by injection E as <- <-.
Qed.

(** The packet of [zeus_send_work] is a command packet. *)
Lemma zeus_cmdpkt_command_packet info w pkt :
  zeus_cmdpkt info w = Some pkt -> command_packet pkt.
Proof.
  unfold zeus_cmdpkt. intros Ec.
  destruct (Double.to_u32 _) as [t|]; [|done]. cbn [mbind option_bind] in Ec.
  destruct (Z.ltb_spec (Z.of_nat (length (data w))) 80) as [|Hd]; [done|].
  cbn [app drop take] in Ec.
  destruct (rev _ 80) as [body|] eqn:Eb; [|done]. injection Ec as <-.
  rewrite drop_0 in Eb.
  assert (Ht : length (take 80 (data w)) = 80%nat) by (rewrite length_take; lia).
  rewrite (rev_reverses _ 80) in Eb by lia. injection Eb as <-.
  split; [cbn [length app]; rewrite length_rev, Ht; done|].
  exists (u8 (freqcode info)).
  assert (Hb : 0 <= u8 (freqcode info) < 256)
    by (unfold u8; apply Z.mod_pos_bound; lia).
  split; [done|]. cbn [take app]. do 2 f_equal.
  unfold u8 in *. unfold Z.lnot, Z.pred. change (2 ^ 8) with 256 in *.
  pose proof (Z.div_mod (freqcode info) 256 ltac:(lia)) as Ediv.
  replace (- freqcode info + -1)
    with (255 - freqcode info mod 256 + (- (freqcode info / 256) - 1) * 256)
    by lia.
  rewrite Z_mod_plus_full. apply Z.mod_small. lia.
Qed.

Section RunFacts.
Context `{ZeusHeader}.

Lemma zeus_send_work_inv info w h p ok info' h' p' lg :
  zeus_send_work info w h p = Some (ok, info', h', p', lg) ->
  exists pkt ret,
    zeus_cmdpkt info w = Some pkt
    /\ zeus_write (device_fd info) p pkt ZEUS_COMMAND_PKT_LEN = Some (ret, p')
    /\ if ok then 0 <= ret /\ info' = info /\ h' = h
       else ret < 0 /\ info' = set_device_fd (-1) (zeus_purge_work info h).1
            /\ h' = (zeus_purge_work info h).2.
Proof.
  unfold zeus_send_work.
  destruct (zeus_cmdpkt info w) as [pkt|] eqn:Ec; [|done].
  cbn [mbind option_bind].
  destruct (zeus_write _ _ _ _) as [[ret p1]|] eqn:Ew; [|done].
  cbn [mbind option_bind].
  destruct (zeus_purge_work info h) as [i1 h1].
  destruct (Z.ltb_spec ret 0); intros [= <- <- <- <- <-];
    exists pkt, ret; cbn [fst snd]; repeat split; first [done | lia].
Qed.

(** The transmission step of a round. *)
Lemma io_send_inv now info h p o info' h' p' lg :
  io_send now info h p = Some (o, info', h', p', lg) ->
  match o with
  | SendNothing => slot_settled info /\ info' = info /\ h' = h /\ p' = p
  | SendDone =>
      exists w pkt ret,
        current_work info = Some w /\ devflag w = false
        /\ zeus_cmdpkt info w = Some pkt
        /\ zeus_write (device_fd info) p pkt ZEUS_COMMAND_PKT_LEN = Some (ret, p')
        /\ 0 <= ret /\ h' = h
        /\ current_work info' = Some (set_devflag true w)
  | SendFailed =>
      exists w pkt ret,
        current_work info = Some w
        /\ zeus_cmdpkt info w = Some pkt
        /\ zeus_write (device_fd info) p pkt ZEUS_COMMAND_PKT_LEN = Some (ret, p')
        /\ ret < 0 /\ h' = free_work w h /\ current_work info' = None
  end.
Proof.
  unfold io_send, slot_settled. destruct (current_work info) as [w|] eqn:Ew;
    [|intros [= <- <- <- <- _]; done].
  destruct (devflag w) eqn:Ed; cbn [negb]; [intros [= <- <- <- <- _]; done|].
  destruct (zeus_send_work info w h p) as [[[[[ok i1] h1] p1] lg1]|] eqn:Es;
    [|done].
  apply zeus_send_work_inv in Es. destruct Es as (pkt & ret & Ec & Ewr & Hok).
  cbn [mbind option_bind].
  destruct ok; intros [= <- <- <- <- _].
  - destruct Hok as (Hret & -> & ->). exists w, pkt, ret.
    repeat split; try done.
    destruct (negb _); cbn; by rewrite Ew.
  - destruct Hok as (Hret & -> & ->). exists w, pkt, ret.
    unfold zeus_purge_work. rewrite Ew. done.
Qed.

Lemma zeus_read_response_effect evtpkt info h p ok info' h' p' lg :
  zeus_read_response evtpkt info h p = Some (ok, info', h', p', lg) ->
  slot_kept_or_freed info h info' h'
  /\ wire p' = wire p /\ wr_script p' = wr_script p.
Proof.
  unfold zeus_read_response.
  destruct (zeus_read _ _ _ _ _) as [[[ret nb] p1]|] eqn:Er; [|done].
  apply zeus_read_wire in Er. cbn [mbind option_bind].
  pose proof (slot_kept_purge info h) as Hp.
  destruct (zeus_purge_work info h) as [i1 h1]. cbn [fst snd] in Hp.
  destruct (ret <=? 0).
  { intros [= _ <- <- <- _]. split; [|done].
    eapply slot_kept_trans; [exact Hp|]. by apply slot_kept_same. }
  destruct (current_work info) as [w|] eqn:Ew.
  2:{ intros [= _ <- <- <- _]. split; [apply slot_kept_refl | done]. }
  unfold submit_nonce.
  assert (Hk : forall i2, current_work i2 = current_work info ->
            slot_kept_or_freed info h i2
              {| queue := queue h; taken := taken h; nonce_ok := nonce_ok h;
                 submitted := submitted h
                   ++ [(w, be32toh (load_u32 nb))];
                 discarded := discarded h; freed := freed h |}).
  { intros i2 E2. unfold slot_kept_or_freed. cbn. auto. }
  destruct (_ && _); [|intros [= _ <- <- <- _]; split; [by apply Hk | done]].
  destruct (nonce_ok h w _); cbn [negb]; intros [= _ <- <- <- _];
    (split; [by apply Hk | done]).
Qed.

Lemma io_events_effect e dev_err dev_in pipe_in info h p info' h' p' lg stop :
  io_events e dev_err dev_in pipe_in info h p = Some (info', h', p', lg, stop) ->
  slot_kept_or_freed info h info' h'
  /\ wire p' = wire p /\ wr_script p' = wr_script p.
Proof.
  unfold io_events. destruct dev_err.
  { unfold zeus_reopen.
    intros E. assert (current_work info' = current_work info /\ h' = h /\ p' = p)
      as (? & -> & ->).
    { repeat match type of E with
             | context [if ?b then _ else _] => destruct b
             end; by injection E as <- <- <- _ _. }
    split; [by apply slot_kept_same | done]. }
  assert (forall i1 h1 p1 lg1,
    (if pipe_in
     then let '(n, i2) := flush_fd i1 in
          Some (i2, h1, p1, if n =? 0 then lg1 ++ [ErrPipeClosed] else lg1,
                n =? 0)
     else Some (i1, h1, p1, lg1, false)) = Some (info', h', p', lg, stop) ->
    current_work info' = current_work i1 /\ h' = h1 /\ p' = p1) as Hpipe.
  { intros i1 h1 p1 lg1. destruct pipe_in; by intros [= <- <- <- _ _]. }
  destruct dev_in.
  - destruct (zeus_read_response _ _ _ _) as [[[[[ok i1] h1] p1] lg1]|] eqn:Er;
      [|done].
    apply zeus_read_response_effect in Er. destruct Er as (Hk & Hw & Hs).
    cbn [mbind option_bind]. intros E. apply Hpipe in E as (Ec & -> & ->).
    split; [|done].
    eapply slot_kept_trans; [|by apply slot_kept_same].
    eapply slot_kept_trans; [|exact Hk]. by apply slot_kept_same.
  - cbn [mbind option_bind]. intros E. apply Hpipe in E as (Ec & -> & ->).
    split; [by apply slot_kept_same | done].
Qed.

Lemma round_tail_effect e i h p i' h' p' :
  round_tail e (i, h, p) (i', h', p') ->
  slot_kept_or_freed i h i' h' /\ wire p' = wire p /\ wr_script p' = wr_script p.
Proof.
  unfold round_tail. destruct (io_poll e) as [eintr| |de di pi].
  - intros [= -> -> ->]. split; [apply slot_kept_refl | done].
  - intros [= E ->]. split; [|done].
    pose proof (slot_kept_purge i h) as Hp. rewrite <- E in Hp. done.
  - intros (lg & stop & E). cbn [fst snd] in E. by apply io_events_effect in E.
Qed.

(** The calls of the mining thread. *)
Lemma step_effect o d d' :
  (forall e, o <> OpIoRound e) -> step o d = Some d' ->
  slot_kept_or_freed (drv_info d) (drv_host d) (drv_info d') (drv_host d')
  /\ drv_port d' = drv_port d /\ drv_sent d' = drv_sent d.
Proof.
  intros Ho. destruct o as [e|now| |name setting]; cbn [step];
    [by destruct (Ho e)| | |].
  - unfold zeus_scanwork. cbn zeta.
    destruct (Double.to_i64 _); [|done]. cbn [mbind option_bind].
    intros [= <-]. split; [by apply slot_kept_same | done].
  - unfold zeus_flush_work.
    pose proof (slot_kept_purge (drv_info d) (drv_host d)) as Hp.
    destruct (zeus_purge_work _ _) as [i1 h1]. intros [= <-].
    split; [|done]. cbn [drv_info drv_host with_info].
    eapply slot_kept_trans; [exact Hp|]. by apply slot_kept_same.
  - destruct (zeus_set_device _ _ _ _) as [[[[r i1] h1] lg1]|] eqn:E; [|done].
    cbn [mbind option_bind]. intros [= <-]. split; [|done].
    cbn [drv_info drv_host with_info].
    unfold zeus_set_device in E. cbn zeta in E.
    pose proof (slot_kept_purge (drv_info d) (drv_host d)) as Hp.
    unfold zeus_flush_work in E.
    destruct (zeus_purge_work _ _) as [i2 h2]. cbn [fst snd] in Hp.
    destruct (strcaseeq name "help");
      [injection E as _ <- <- _; apply slot_kept_refl|].
    destruct (strcaseeq name "freq").
    { destruct (match setting with None | Some EmptyString => true | _ => false end);
        [injection E as _ <- <- _; apply slot_kept_refl|].
      destruct (atoi _) as [v|]; [|done]. cbn [mbind option_bind] in E.
      destruct (_ || _); [injection E as _ <- <- _; apply slot_kept_refl|].
      destruct (zeus_clk_to_freqcode v) as [lg0 [fc|]]; [|done].
      cbn [mbind option_bind] in E. injection E as _ <- <- _.
      by apply slot_kept_same. }
    destruct (strcaseeq name "abortwork");
      [|injection E as _ <- <- _; apply slot_kept_refl].
    destruct (match setting with None | Some EmptyString => true | _ => false end);
      [injection E as _ <- <- _; apply slot_kept_refl|].
    destruct (negb _); [injection E as _ <- <- _; apply slot_kept_refl|].
    injection E as _ <- <- _.
    eapply slot_kept_trans; [exact Hp|]. by apply slot_kept_same.
Qed.

(** A round leaves the slot settled. *)
Lemma settled_io_round e d d' :
  slot_settled (drv_info d) -> zeus_io_round e d = Some d' ->
  slot_settled (drv_info d').
Proof.
  intros Hs E. destruct (drv_shutdown d) eqn:Esh.
  { unfold zeus_io_round in E. rewrite Esh in E. by injection E as <-. }
  apply zeus_io_round_inv in E; [|done]. cbn zeta in E.
  destruct E as [[_ E]|(b & i1 & h1 & o & i2 & h2 & p2 & lg2 & _ & _ & Es & _ & Ht)].
  - injection E as -> _ _ _. unfold zeus_reopen, slot_settled in *.
    repeat match goal with
           | |- context [if ?b then _ else _] => destruct b
           end; done.
  - apply io_send_inv in Es.
    assert (H2 : slot_settled i2).
    { destruct o.
      - by destruct Es as (? & -> & _).
      - destruct Es as (w & pkt & ret & _ & _ & _ & _ & _ & _ & Ec).
        unfold slot_settled. rewrite Ec. done.
      - destruct Es as (w & pkt & ret & _ & _ & _ & _ & _ & Ec).
        unfold slot_settled. by rewrite Ec. }
    destruct o; try (apply round_tail_effect in Ht as [Hk _];
                     by apply (slot_kept_settled _ _ _ _ Hk)).
    by injection Ht as -> _ _.
Qed.

(** X19: the slot is settled after every call.  Starting with an empty
    slot or a work that has been transmitted, whatever the order of the
    rounds of the I/O loop and the calls of the mining thread, and
    whatever the other threads do to the board in between, the slot is
    empty or holds a work that has been transmitted: a work that was
    assigned is transmitted, or freed, within the same round. *)
Theorem run_keeps_slot_settled ops : forall d d',
  slot_settled (drv_info d) -> run ops d = Some d' ->
  slot_settled (drv_info d').
Proof.
  induction ops as [|o ops IH]; intros d d' Hs Hr.
  - by injection Hr as <-.
  - cbn [run] in Hr. destruct (step o d) as [d1|] eqn:Es; [|done].
    cbn [mbind option_bind] in Hr. apply (IH d1); [|done].
    destruct o as [e|now| |name setting].
    + by apply (settled_io_round e d).
    + apply step_effect in Es as [Hk _]; [|done].
      by apply (slot_kept_settled _ _ _ _ Hk).
    + apply step_effect in Es as [Hk _]; [|done].
      by apply (slot_kept_settled _ _ _ _ Hk).
    + apply step_effect in Es as [Hk _]; [|done].
      by apply (slot_kept_settled _ _ _ _ Hk).
Qed.

End RunFacts.

Section RunInvariants.
Context `{ZeusHeader}.

Lemma reopen_or_not_slot e (i : ZEUS_INFO) :
  current_work (if device_fd i =? -1 then zeus_reopen (io_open_fd e) i
                else (true, i, [])).1.2 = current_work i.
Proof.
  unfold zeus_reopen.
  repeat match goal with
         | |- context [if ?b then _ else _] => destruct b
         end; done.
Qed.

Lemma balanced_io_round e d d' :
  keeps_slot (io_other e) ->
  works_balanced (drv_info d) (drv_host d) -> zeus_io_round e d = Some d' ->
  works_balanced (drv_info d') (drv_host d').
Proof.
  intros Ho Hb E. destruct (drv_shutdown d) eqn:Esh.
  { unfold zeus_io_round in E. rewrite Esh in E. by injection E as <-. }
  apply zeus_io_round_inv in E; [|done]. cbn zeta in E.
  pose proof (reopen_or_not_slot e (drv_info d)) as Hr.
  set (r := if device_fd (drv_info d) =? -1 then _ else _) in *.
  assert (H0 : works_balanced r.1.2 (drv_host d))
    by (apply (slot_kept_balanced (drv_info d) (drv_host d));
        [by apply slot_kept_same | done]).
  destruct E as [[_ E]|(b & i1 & h1 & o & i2 & h2 & p2 & lg2 & _ & Ec & Es & _ & Ht)].
  { by injection E as -> -> _ _. }
  assert (H1 : works_balanced i1 h1).
  { apply zeus_check_need_work_inv in Ec.
    destruct Ec as [(_ & -> & ->)|[(En & _ & -> & ->)|(En & Hn & _)]].
    - done.
    - unfold works_balanced, held in *. cbn. rewrite En in H0. lia.
    - rewrite Ho in Hn. done. }
  apply io_send_inv in Es.
  assert (H2 : works_balanced i2 h2).
  { destruct o.
    - by destruct Es as (_ & -> & -> & _).
    - destruct Es as (w & pkt & ret & Ew & _ & _ & _ & _ & -> & Ec2).
      unfold works_balanced, held in *. rewrite Ec2. by rewrite Ew in H1.
    - destruct Es as (w & pkt & ret & Ew & _ & _ & _ & -> & Ec2).
      unfold works_balanced, held in *. rewrite Ec2. rewrite Ew in H1.
      cbn. rewrite length_app. cbn. lia. }
  destruct o; try (apply round_tail_effect in Ht as [Hk _];
                   by apply (slot_kept_balanced _ _ _ _ Hk)).
  by injection Ht as -> -> _.
Qed.

(** X20: no work is lost and none is released twice.  As long as the
    other threads leave the slot alone while the I/O thread waits for a
    work, after any sequence of rounds of the I/O loop and calls of the
    mining thread the number of works taken from the host is the number
    of works freed plus the number discarded plus the one in the slot,
    if there is one. *)
Theorem run_keeps_works_balanced ops : forall d d',
  Forall no_slot_interference ops ->
  works_balanced (drv_info d) (drv_host d) -> run ops d = Some d' ->
  works_balanced (drv_info d') (drv_host d').
Proof.
  induction ops as [|o ops IH]; intros d d' Hq Hb Hr.
  - by injection Hr as <-.
  - inversion Hq as [|? ? Ho Hops]; subst. cbn [run] in Hr.
    destruct (step o d) as [d1|] eqn:Es; [|done].
    cbn [mbind option_bind] in Hr. apply (IH d1); [done| |done].
    destruct o as [e|now| |name setting].
    + by apply (balanced_io_round e d).
    + apply step_effect in Es as [Hk _]; [|done].
      by apply (slot_kept_balanced _ _ _ _ Hk).
    + apply step_effect in Es as [Hk _]; [|done].
      by apply (slot_kept_balanced _ _ _ _ Hk).
    + apply step_effect in Es as [Hk _]; [|done].
      by apply (slot_kept_balanced _ _ _ _ Hk).
Qed.

Lemma wire_framed_refl p n : wr_script p = [] -> wire_framed p n p n.
Proof.
  intros Hs. split; [done|]. exists []. cbn. rewrite app_nil_r.
  split; [done|]. split; [done | lia].
Qed.

Lemma wire_framed_trans p n p1 n1 p2 n2 :
  wire_framed p n p1 n1 -> wire_framed p1 n1 p2 n2 -> wire_framed p n p2 n2.
Proof.
  intros (_ & k1 & E1 & F1 & N1) (Hs & k2 & E2 & F2 & N2).
  split; [done|]. exists (k1 ++ k2).
  rewrite concat_app, E2, E1, <- app_assoc, length_app.
  split; [done|]. split; [by apply Forall_app | lia].
Qed.

Lemma framed_io_round e d d' :
  wr_script (drv_port d) = [] -> zeus_io_round e d = Some d' ->
  wire_framed (drv_port d) (drv_sent d) (drv_port d') (drv_sent d').
Proof.
  intros Hs E. destruct (drv_shutdown d) eqn:Esh.
  { unfold zeus_io_round in E. rewrite Esh in E. injection E as <-.
    by apply wire_framed_refl. }
  apply zeus_io_round_inv in E; [|done]. cbn zeta in E.
  destruct E as [[_ E]|(b & i1 & h1 & o & i2 & h2 & p2 & lg2 & _ & _ & Es & En & Ht)].
  { injection E as _ _ -> ->. by apply wire_framed_refl. }
  apply io_send_inv in Es.
  assert (H2 : wire_framed (drv_port d) (drv_sent d) p2 (drv_sent d')).
  { rewrite En. destruct o.
    - destruct Es as (_ & _ & _ & ->). by apply wire_framed_refl.
    - destruct Es as (w & pkt & ret & _ & _ & Ec & Ew & Hret & _).
      pose proof (zeus_cmdpkt_command_packet _ _ _ Ec) as Hc.
      apply zeus_write_open_line in Ew;
        [|done|done|destruct Hc as [-> _]; done].
      destruct Ew as [(_ & -> & _)|(_ & _ & Ewire & Hs2 & _)]; [lia|].
      split; [done|]. exists [pkt]. cbn [concat length]. rewrite app_nil_r.
      split; [done|]. split; [by constructor | lia].
    - destruct Es as (w & pkt & ret & _ & Ec & Ew & Hret & _).
      pose proof (zeus_cmdpkt_command_packet _ _ _ Ec) as Hc.
      apply zeus_write_open_line in Ew;
        [|done|done|destruct Hc as [-> _]; done].
      destruct Ew as [(_ & _ & ->)|(_ & -> & _)]; [|unfold ZEUS_COMMAND_PKT_LEN in Hret; lia].
      by apply wire_framed_refl. }
  assert (Hsame : forall p3, wire p3 = wire p2 -> wr_script p3 = wr_script p2 ->
            wire_framed (drv_port d) (drv_sent d) p3 (drv_sent d')).
  { intros p3 Ew Es3. destruct H2 as (Hs2 & pkts & ? & ? & ?).
    split; [congruence|]. exists pkts. split; [congruence|]. done. }
  destruct o; try (apply round_tail_effect in Ht as (_ & ? & ?); by apply Hsame).
  by injection Ht as _ _ ->.
Qed.

(** X21: the wire carries whole command packets only.  On a line that
    accepts everything, whatever the order of the rounds of the I/O loop
    and the calls of the mining thread, what has been added to the wire
    is a sequence of command packets of 84 bytes, each with a code and its
    complement in front, one for every work counted as transmitted;
    nothing else is ever written, and a failed transmission writes
    nothing. *)
Theorem run_keeps_wire_framed ops : forall d d',
  wr_script (drv_port d) = [] -> run ops d = Some d' ->
  wire_framed (drv_port d) (drv_sent d) (drv_port d') (drv_sent d').
Proof.
  induction ops as [|o ops IH]; intros d d' Hs Hr.
  - injection Hr as <-. by apply wire_framed_refl.
  - cbn [run] in Hr. destruct (step o d) as [d1|] eqn:Es; [|done].
    cbn [mbind option_bind] in Hr.
    assert (H1 : wire_framed (drv_port d) (drv_sent d) (drv_port d1) (drv_sent d1)).
    { destruct o as [e|now| |name setting].
      - by apply (framed_io_round e d).
      - apply step_effect in Es as (_ & -> & ->); [|done]. by apply wire_framed_refl.
      - apply step_effect in Es as (_ & -> & ->); [|done]. by apply wire_framed_refl.
      - apply step_effect in Es as (_ & -> & ->); [|done]. by apply wire_framed_refl. }
    eapply wire_framed_trans; [exact H1|]. apply IH; [by destruct H1 | done].
Qed.

End RunInvariants.

Lemma run_keeps_slot_settled_witness :
  slot_settled (drv_info (driver_of sample_info))
  /\ exists d',
       @run header_le [OpIoRound quiet_round; OpFlushWork; OpIoRound quiet_round]
         (driver_of sample_info) = Some d'
       /\ slot_settled (drv_info d').
Proof.
  split; [exact I|].
  destruct (@run header_le [OpIoRound quiet_round; OpFlushWork; OpIoRound quiet_round]
              (driver_of sample_info)) as [d'|] eqn:E; [|by vm_compute in E].
  exists d'. split; [reflexivity|].
  exact (@run_keeps_slot_settled header_le _ (driver_of sample_info) d' I E).
Defined.

Lemma run_keeps_works_balanced_witness :
  Forall no_slot_interference
    [OpIoRound quiet_round; OpFlushWork; OpIoRound quiet_round]
  /\ works_balanced (drv_info (driver_of sample_info))
       (drv_host (driver_of sample_info))
  /\ exists d',
       @run header_le [OpIoRound quiet_round; OpFlushWork; OpIoRound quiet_round]
         (driver_of sample_info) = Some d'
       /\ works_balanced (drv_info d') (drv_host d').
Proof.
  assert (Hq : Forall no_slot_interference
                 [OpIoRound quiet_round; OpFlushWork; OpIoRound quiet_round])
    by (repeat constructor).
  split; [exact Hq|]. split; [reflexivity|].
  destruct (@run header_le [OpIoRound quiet_round; OpFlushWork; OpIoRound quiet_round]
              (driver_of sample_info)) as [d'|] eqn:E; [|by vm_compute in E].
  exists d'. split; [reflexivity|].
  exact (@run_keeps_works_balanced header_le _ (driver_of sample_info) d' Hq
           eq_refl E).
Defined.

Lemma run_keeps_wire_framed_witness :
  wr_script (drv_port (driver_of sample_info)) = []
  /\ exists d',
       @run header_le [OpIoRound quiet_round; OpFlushWork; OpIoRound quiet_round]
         (driver_of sample_info) = Some d'
       /\ wire_framed (drv_port (driver_of sample_info))
            (drv_sent (driver_of sample_info)) (drv_port d') (drv_sent d').
Proof.
  split; [reflexivity|].
  destruct (@run header_le [OpIoRound quiet_round; OpFlushWork; OpIoRound quiet_round]
              (driver_of sample_info)) as [d'|] eqn:E; [|by vm_compute in E].
  exists d'. split; [reflexivity|].
  exact (@run_keeps_wire_framed header_le _ (driver_of sample_info) d' eq_refl E).
Defined.

(** ** A work from the host to the board and back *)

Section WorkCycle.
Context `{ZeusHeader}.

(** The round up to the [poll], for a board that waits for a work on an
    open line that accepts everything: the next work of the host is put
    into the slot and transmitted. *)
Lemma io_round_transmits e d w pkt :
  0 <= device_fd (drv_info d) ->
  current_work (drv_info d) = None ->
  io_other e (drv_info d) = drv_info d ->
  wr_script (drv_port d) = [] ->
  w = queue (drv_host d) (taken (drv_host d)) ->
  zeus_cmdpkt (drv_info d) w = Some pkt ->
  let w' := set_devflag true (set_devflag false w) in
  let info := set_workstart (io_now e)
                (set_current_work (Some w') (drv_info d)) in
  let info := if negb (next_chip_clk info =? -1)
              then set_next_chip_clk (-1)
                     (set_chip_clk (next_chip_clk info) info)
              else info in
  zeus_check_need_work (io_other e) (drv_info d) (drv_host d)
  = (true, set_current_work (Some (set_devflag false w)) (drv_info d),
     (get_work (drv_host d)).2)
  /\ io_send (io_now e)
       (set_current_work (Some (set_devflag false w)) (drv_info d))
       (get_work (drv_host d)).2 (drv_port d)
     = Some (SendDone, info, (get_work (drv_host d)).2,
             {| wire := wire (drv_port d) ++ pkt; wr_script := [];
                rd_script := rd_script (drv_port d) |}, []).
Proof.
  intros Hfd Hslot Ho Hs Hw Hc. cbn zeta.
  split.
  - unfold zeus_check_need_work. rewrite Hslot. cbn [get_work].
    rewrite Ho, Hslot, Hw. done.
  - unfold io_send. cbn [current_work set_current_work devflag set_devflag negb].
    unfold zeus_send_work.
    replace (zeus_cmdpkt (set_current_work (Some (set_devflag false w)) (drv_info d))
               (set_devflag false w)) with (Some pkt) by (rewrite <- Hc; done).
    cbn [mbind option_bind device_fd set_current_work].
    destruct (zeus_cmdpkt_command_packet _ _ _ Hc) as [Hlen _].
    unfold ZEUS_COMMAND_PKT_LEN.
    rewrite zeus_write_all by (done || lia). cbn [mbind option_bind].
    change (84 <? 0) with false. cbn iota. cbn [mbind option_bind].
    cbn [current_work set_current_work fmap option_fmap option_map]. done.
Qed.

(** X22: a work that is not answered in time.  A board that waits for
    a work, with the port open and the line accepting everything, takes
    the next work of the host, transmits its packet, stamps the start
    and makes a pending clock the active one; when the [poll] times out
    the work is freed and the slot is empty again.  Nothing is handed to
    the host, and nothing is logged. *)
Theorem io_round_timeout_cycle e d w pkt :
  drv_shutdown d = false ->
  0 <= device_fd (drv_info d) ->
  current_work (drv_info d) = None ->
  io_other e (drv_info d) = drv_info d ->
  wr_script (drv_port d) = [] ->
  io_poll e = PollTimeout ->
  w = queue (drv_host d) (taken (drv_host d)) ->
  zeus_cmdpkt (drv_info d) w = Some pkt ->
  exists d',
    zeus_io_round e d = Some d'
    /\ wire (drv_port d') = wire (drv_port d) ++ pkt
    /\ taken (drv_host d') = S (taken (drv_host d))
    /\ freed (drv_host d')
       = freed (drv_host d) ++ [set_devflag true (set_devflag false w)]
    /\ submitted (drv_host d') = submitted (drv_host d)
    /\ discarded (drv_host d') = discarded (drv_host d)
    /\ current_work (drv_info d') = None
    /\ workstart (drv_info d') = io_now e
    /\ clocks (drv_info d')
       = (if next_chip_clk (drv_info d) =? -1 then clocks (drv_info d)
          else (next_chip_clk (drv_info d), -1))
    /\ drv_sent d' = S (drv_sent d)
    /\ drv_shutdown d' = false
    /\ drv_log d' = drv_log d.
Proof.
  intros Hsh Hfd Hslot Ho Hs Hp Hw Hc.
  destruct (io_round_transmits e d w pkt Hfd Hslot Ho Hs Hw Hc) as [Ec Es].
  cbn zeta in Es.
  unfold zeus_io_round. rewrite Hsh.
  replace (device_fd (drv_info d) =? -1) with false
    by (symmetry; apply Z.eqb_neq; lia).
  cbn [negb]. rewrite Ec, Es. cbn [mbind option_bind]. rewrite Hp.
  cbn [next_chip_clk set_workstart set_current_work].
  destruct (next_chip_clk (drv_info d) =? -1) eqn:En; cbn [negb];
    unfold zeus_purge_work;
    cbn [current_work set_workstart set_current_work set_next_chip_clk
         set_chip_clk];
    (eexists; split; [reflexivity|]); cbn; rewrite ?En, ?app_nil_r;
    repeat split; done.
Qed.


End WorkCycle.

Lemma io_round_timeout_cycle_witness :
  0 <= device_fd (drv_info (open_driver sample_port))
  /\ current_work (drv_info (open_driver sample_port)) = None
  /\ io_poll quiet_round = PollTimeout
  /\ exists d',
       @zeus_io_round header_le quiet_round (open_driver sample_port) = Some d'
       /\ taken (drv_host d') = 1%nat
       /\ freed (drv_host d') = [set_devflag true (set_devflag false sample_work)]
       /\ current_work (drv_info d') = None
       /\ drv_sent d' = 1%nat.
Proof.
  split; [cbn; lia|]. split; [reflexivity|]. split; [reflexivity|].
  destruct (zeus_cmdpkt (drv_info (open_driver sample_port)) sample_work)
    as [pkt|] eqn:Ec; [|by vm_compute in Ec].
  destruct (@io_round_timeout_cycle header_le quiet_round
              (open_driver sample_port) sample_work pkt eq_refl
              ltac:(cbn; lia) eq_refl eq_refl eq_refl eq_refl eq_refl Ec)
    as (d' & E & _ & Ht & Hf & _ & _ & Hc & _ & _ & Hn & _).
  exists d'. split; [exact E|]. split; [exact Ht|]. split; [exact Hf|].
  split; [exact Hc | exact Hn].
Defined.


(** ** The calls of the mining thread *)

Section SetDevice.
Context `{ZeusHeader}.

(** X24: what [zeus_set_device] answers and does.  A call that answers
    with a text leaves the board, the host and the log as they were.  A
    call that answers with the null pointer is one of two: the option
    [freq] with a number of the clock range, which becomes the pending
    clock while the active clock and the slot stay, and whose code is
    stored at once; or the option [abortwork] with the value [true],
    which does what [zeus_flush_work] does. *)
Theorem zeus_set_device_effect info h name setting rep info' h' lg :
  zeus_set_device info h name setting = Some (rep, info', h', lg) ->
  match rep with
  | Some _ => info' = info /\ h' = h /\ lg = []
  | None =>
      (strcaseeq name "freq" = true
       /\ exists s v,
            setting = Some s /\ atoi s = Some v
            /\ ZEUS_CLK_MIN <= v <= ZEUS_CLK_MAX
            /\ next_chip_clk info' = v
            /\ chip_clk info' = chip_clk info
            /\ current_work info' = current_work info
            /\ zeus_clk_to_freqcode v = (lg, Some (freqcode info'))
            /\ h' = h)
      \/ (strcaseeq name "abortwork" = true
          /\ exists s,
               setting = Some s /\ strcaseeq s "true" = true
               /\ (info', h') = zeus_flush_work info h /\ lg = [])
  end.
Proof.
  unfold zeus_set_device. cbn zeta.
  destruct (strcaseeq name "help"); [by intros [= <- <- <- <-]|].
  destruct (strcaseeq name "freq") eqn:Ef.
  { destruct setting as [[|a s]|]; try by intros [= <- <- <- <-].
    change (default EmptyString (Some (String a s))) with (String a s).
    destruct (atoi (String a s)) as [v|] eqn:Ea; [|done].
    cbn [mbind option_bind].
    destruct (Z.ltb_spec v ZEUS_CLK_MIN); cbn [orb];
      [by intros [= <- <- <- <-]|].
    destruct (Z.ltb_spec ZEUS_CLK_MAX v); [by intros [= <- <- <- <-]|].
    destruct (zeus_clk_to_freqcode v) as [lg0 [fc|]] eqn:Ec; [|done].
    cbn [mbind option_bind]. intros [= <- <- <- <-]. left.
    split; [done|]. exists (String a s), v. repeat split; try done; lia. }
  destruct (strcaseeq name "abortwork") eqn:Ea; [|by intros [= <- <- <- <-]].
  destruct setting as [[|a s]|]; try by intros [= <- <- <- <-].
  change (default EmptyString (Some (String a s))) with (String a s).
  destruct (strcaseeq (String a s) "true") eqn:Et; cbn [negb];
    [|by intros [= <- <- <- <-]].
  destruct (zeus_flush_work info h) as [i1 h1]. intros [= <- <- <- <-].
  right. split; [done|]. exists (String a s). done.
Qed.

(** X25: the names of the options and the value [true] are compared
    without regard to case: two names that differ in case only get the
    same answer and have the same effect, except that the answer to an
    unknown option quotes the name as it was given. *)
Theorem zeus_set_device_ignores_case info h name name' setting :
  strlower name = strlower name' ->
  zeus_set_device info h name setting = zeus_set_device info h name' setting
  \/ (zeus_set_device info h name setting
      = Some (Some (ReplyUnknownOption name), info, h, [])
      /\ zeus_set_device info h name' setting
         = Some (Some (ReplyUnknownOption name'), info, h, [])).
Proof.
  intros E. unfold zeus_set_device, strcaseeq. cbn zeta. rewrite E.
  destruct (String.eqb (strlower name') _); [by left|].
  destruct (String.eqb (strlower name') _); [by left|].
  destruct (String.eqb (strlower name') _); [by left|].
  by right.
Qed.

End SetDevice.

Lemma zeus_set_device_effect_witness :
  exists info' h' lg,
    @zeus_set_device header_le working_info sample_host "ABORTWORK" (Some "True"%string)
    = Some (None, info', h', lg)
    /\ (info', h') = zeus_flush_work working_info sample_host.
Proof.
  destruct (@zeus_set_device header_le working_info sample_host "ABORTWORK"
              (Some "True"%string)) as [[[[rep info'] h'] lg]|] eqn:E;
    [|by vm_compute in E].
  assert (Er : rep = None).
  { unfold zeus_set_device in E. cbn zeta in E.
    change (strcaseeq "ABORTWORK"%string "help"%string) with false in E.
    change (strcaseeq "ABORTWORK"%string "freq"%string) with false in E.
    change (strcaseeq "ABORTWORK"%string "abortwork"%string) with true in E.
    cbn iota in E. cbn [default] in E.
    change (strcaseeq "True"%string "true"%string) with true in E. cbn [negb] in E.
    destruct (zeus_flush_work working_info sample_host).
    by injection E as <- _ _ _. }
  subst rep. exists info', h', lg. split; [reflexivity|].
  destruct (@zeus_set_device_effect header_le working_info sample_host
              "ABORTWORK" (Some "True"%string) None info' h' lg E)
    as [[Hf _]|(_ & s & _ & _ & Hfl & _)]; [discriminate Hf | exact Hfl].
Defined.

Lemma zeus_set_device_ignores_case_witness :
  strlower "FREQ"%string = strlower "freq"%string
  /\ @zeus_set_device header_le sample_info sample_host "FREQ" (Some "300"%string)
     = @zeus_set_device header_le sample_info sample_host "freq" (Some "300"%string).
Proof.
  split; [reflexivity|].
  destruct (@zeus_set_device_ignores_case header_le sample_info sample_host
              "FREQ" "freq" (Some "300"%string) eq_refl) as [E|[E _]]; [exact E|].
  exfalso. unfold zeus_set_device in E. cbn zeta in E.
  change (strcaseeq "FREQ"%string "help"%string) with false in E.
  change (strcaseeq "FREQ"%string "freq"%string) with true in E. cbn iota in E.
  destruct (atoi _); [|discriminate E]. cbn [mbind option_bind] in E.
  destruct (_ || _); [discriminate E|].
  destruct (zeus_clk_to_freqcode _) as [? [?|]]; discriminate E.
Defined.

(** X26: every call of [zeus_flush_work] empties the slot and puts one
    byte into the pipe, whether there was a work or not; the work is
    freed by the first call only.  A wake-up of the I/O thread takes at
    most ten of these bytes: after [n] calls on an empty pipe one
    [flush_fd] reads [min 10 n] bytes and leaves the others in the
    pipe. *)
Theorem flush_work_wakeups n info h :
  let s := flush_times n info h in
  pipe s.1 = pipe info ++ replicate n tickle
  /\ (0 < n -> current_work s.1 = None)%nat
  /\ freed s.2
     = freed h ++ match n, current_work info with
                  | S _, Some w => [w]
                  | _, _ => []
                  end
  /\ (flush_fd s.1).1 = Z.min 10 (Z.of_nat (length (pipe info) + n))
  /\ pipe (flush_fd s.1).2 = drop 10 (pipe info ++ replicate n tickle).
Proof.
  cbn zeta.
  assert (Hn : pipe (flush_times n info h).1 = pipe info ++ replicate n tickle
               /\ (0 < n -> current_work (flush_times n info h).1 = None)%nat
               /\ freed (flush_times n info h).2
                  = freed h ++ match n, current_work info with
                               | S _, Some w => [w]
                               | _, _ => []
                               end
               /\ (n = 0%nat -> flush_times n info h = (info, h))).
  { induction n as [|n (IHp & IHc & IHf & IH0)].
    - cbn. rewrite !app_nil_r. repeat split; try done. lia.
    - change (flush_times (S n) info h)
        with (zeus_flush_work (flush_times n info h).1 (flush_times n info h).2).
      destruct (flush_times n info h) as [i1 h1]. cbn [fst snd] in *.
      unfold zeus_flush_work, zeus_purge_work, notify_io_thread.
      destruct n as [|n].
      + injection (IH0 eq_refl) as -> ->.
        destruct (current_work info) eqn:Ew; cbn; rewrite ?Ew, ?app_nil_r;
          repeat split; done.
      + rewrite (IHc ltac:(lia)). cbn [fst snd pipe set_pipe current_work].
        rewrite IHp, IHf, <- app_assoc.
        change (replicate (S (S n)) tickle) with (tickle :: replicate (S n) tickle).
        rewrite (replicate_cons_app (S n)).
        repeat split; try done. intros _. apply IHc. lia. }
  destruct Hn as (Hp & Hc & Hf & _).
  split; [done|]. split; [done|]. split; [done|].
  unfold flush_fd. cbn [fst snd pipe set_pipe]. rewrite Hp.
  split; [|done].
  rewrite length_take, length_app, length_replicate. lia.
Qed.

(** ** The timeout of the [poll] *)

Lemma timersub_usecs a b :
  normal_time a -> normal_time b ->
  usecs (timersub a b) = usecs a - usecs b /\ normal_time (timersub a b).
Proof.
  unfold normal_time, usecs, timersub. intros Ha Hb. cbn zeta.
  destruct (Z.ltb_spec (tv_usec a - tv_usec b) 0); cbn; lia.
Qed.

(** X27: the timeout the I/O thread hands to [poll] is the time left
    until the deadline of the work, the start plus [work_timeout], in
    whole milliseconds rounded down.  It is negative exactly when the
    deadline has passed by the time the clock is read. *)
Theorem io_poll_timeout_exact now info :
  normal_time now -> normal_time (workstart info) ->
  normal_time (work_timeout info) ->
  let left := usecs (workstart info) + usecs (work_timeout info) - usecs now in
  - 2 ^ 31 <= left / 1000 < 2 ^ 31 ->
  io_poll_timeout now info = left / 1000
  /\ (io_poll_timeout now info < 0
      <-> usecs (workstart info) + usecs (work_timeout info) < usecs now).
Proof.
  intros Hn Hs Ht. cbn zeta. intros Hfit. unfold io_poll_timeout. cbn zeta.
  destruct (timersub_usecs now (workstart info) Hn Hs) as [E1 N1].
  destruct (timersub_usecs (work_timeout info) _ Ht N1) as [E2 N2].
  set (r := timersub (work_timeout info) (timersub now (workstart info))) in *.
  rewrite E1 in E2. unfold normal_time in N2.
  rewrite Z.quot_div_nonneg by lia.
  assert (E : tv_sec r * 1000 + tv_usec r / 1000
              = (usecs (workstart info) + usecs (work_timeout info) - usecs now)
                / 1000).
  { replace (usecs (workstart info) + usecs (work_timeout info) - usecs now)
      with (usecs r) by lia.
    unfold usecs.
    replace (tv_sec r * 1000000 + tv_usec r)
      with (tv_sec r * 1000 * 1000 + tv_usec r) by lia.
    rewrite Z.div_add_l by lia. done. }
  rewrite E. unfold s32. rewrite Z.mod_small by lia.
  split; [lia|].
  split; intros Hlt.
  - destruct (Z_lt_le_dec
                (usecs (workstart info) + usecs (work_timeout info) - usecs now) 0)
      as [|Hpos]; [lia|].
    pose proof (Z.div_pos _ 1000 Hpos ltac:(lia)). lia.
  - assert ((usecs (workstart info) + usecs (work_timeout info) - usecs now)
            / 1000 < 0); [|lia].
    apply Z.div_lt_upper_bound; lia.
Qed.

Lemma io_poll_timeout_exact_witness :
  normal_time {| tv_sec := 1349; tv_usec := 700000 |}
  /\ io_poll_timeout {| tv_sec := 1349; tv_usec := 700000 |}
       (set_workstart {| tv_sec := 20; tv_usec := 0 |} sample_info) = - 549
  /\ io_poll_timeout {| tv_sec := 1349; tv_usec := 700000 |}
       (set_workstart {| tv_sec := 20; tv_usec := 0 |} sample_info) < 0.
Proof.
  assert (Hn : normal_time {| tv_sec := 1349; tv_usec := 700000 |})
    by (unfold normal_time; cbn; lia).
  split; [exact Hn|].
  destruct (io_poll_timeout_exact {| tv_sec := 1349; tv_usec := 700000 |}
              (set_workstart {| tv_sec := 20; tv_usec := 0 |} sample_info)
              Hn ltac:(unfold normal_time; cbn; lia)
              ltac:(unfold normal_time; cbn; lia)
              ltac:(vm_compute; split; congruence)) as [E Hneg].
  split; [exact (eq_trans E eq_refl)|]. apply Hneg. vm_compute. reflexivity.
Defined.

(** ** I/O errors in the loop *)

Section IoErrors.
Context `{ZeusHeader}.

(** X28: a round whose transmission fails.  When [write] reports an
    error, the work that was just taken from the host is freed without
    having been transmitted, the port is marked closed, the error is
    logged and the round ends before the [poll]: nothing is counted as
    transmitted, the start is not stamped, a pending clock stays pending
    and the thread keeps running, to open the port again in the next
    round. *)
Theorem io_round_send_failure e d w pkt r rest :
  drv_shutdown d = false ->
  0 <= device_fd (drv_info d) ->
  current_work (drv_info d) = None ->
  io_other e (drv_info d) = drv_info d ->
  wr_script (drv_port d) = r :: rest -> r < 0 ->
  w = queue (drv_host d) (taken (drv_host d)) ->
  zeus_cmdpkt (drv_info d) w = Some pkt ->
  exists d',
    zeus_io_round e d = Some d'
    /\ drv_info d' = set_device_fd (-1) (drv_info d)
    /\ taken (drv_host d') = S (taken (drv_host d))
    /\ freed (drv_host d') = freed (drv_host d) ++ [set_devflag false w]
    /\ submitted (drv_host d') = submitted (drv_host d)
    /\ wire (drv_port d') = wire (drv_port d)
    /\ wr_script (drv_port d') = rest
    /\ drv_log d' = drv_log d ++ [NoticeSendError]
    /\ drv_sent d' = drv_sent d
    /\ drv_shutdown d' = false.
Proof.
  intros Hsh Hfd Hslot Ho Hs Hr Hw Hc.
  unfold zeus_io_round. rewrite Hsh.
  replace (device_fd (drv_info d) =? -1) with false
    by (symmetry; apply Z.eqb_neq; lia).
  cbn [negb]. unfold zeus_check_need_work. rewrite Hslot. cbn [get_work].
  rewrite Ho, Hslot, <- Hw.
  unfold io_send. cbn [current_work set_current_work devflag set_devflag negb].
  unfold zeus_send_work.
  replace (zeus_cmdpkt (set_current_work (Some (set_devflag false w)) (drv_info d))
             (set_devflag false w)) with (Some pkt) by (rewrite <- Hc; done).
  cbn [mbind option_bind device_fd set_current_work].
  unfold zeus_write, ZEUS_COMMAND_PKT_LEN. rewrite Hs.
  cbn [length zeus_write_loop]. change (0 <? 84) with true. cbn iota.
  unfold os_write. rewrite Hs.
  replace (device_fd (drv_info d) <? 0) with false
    by (symmetry; apply Z.ltb_ge; lia).
  replace (r <? 0) with true by (symmetry; apply Z.ltb_lt; lia).
  change (-1 <? 0) with true. cbn iota. cbn [mbind option_bind].
  unfold zeus_purge_work. cbn [current_work set_current_work].
  cbn [mbind option_bind].
  eexists. split; [reflexivity|]. cbn.
  destruct (drv_info d). cbn in *. subst. repeat split; done.
Qed.

(** X29: a port that does not open ends the loop.  A round that finds
    the port closed and cannot open it logs the failure of [zeus_reopen]
    and that it shuts down, sets the shutdown flag and does nothing else:
    no work is taken, nothing is written, the board and the host stay as
    they are.  Once the flag is set, every further round leaves the
    driver as it is. *)
Theorem io_round_reopen_failure e d :
  drv_shutdown d = false ->
  device_fd (drv_info d) = -1 -> io_open_fd e < 0 ->
  exists d',
    zeus_io_round e d = Some d'
    /\ drv_shutdown d' = true
    /\ drv_info d' = drv_info d /\ drv_host d' = drv_host d
    /\ drv_port d' = drv_port d
    /\ drv_log d' = drv_log d ++ [ErrOpenFailed; ErrReopenShutdown]
    /\ drv_sent d' = drv_sent d
    /\ forall e', zeus_io_round e' d' = Some d'.
Proof.
  intros Hsh Hfd Ho. unfold zeus_io_round at 1. rewrite Hsh, Hfd.
  change (-1 =? -1) with true. cbn iota. unfold zeus_reopen. rewrite Hfd.
  change (-1 =? -1) with true. cbn iota.
  replace (io_open_fd e <? 0) with true by (symmetry; apply Z.ltb_lt; lia).
  cbn [negb]. eexists. split; [reflexivity|]. cbn. repeat split; done.
Qed.

End IoErrors.

Lemma io_round_send_failure_witness :
  0 <= device_fd (drv_info (open_driver
                              {| wire := []; wr_script := [-1]; rd_script := [] |}))
  /\ -1 < 0
  /\ exists d',
       @zeus_io_round header_le quiet_round
         (open_driver {| wire := []; wr_script := [-1]; rd_script := [] |})
       = Some d'
       /\ device_fd (drv_info d') = -1
       /\ freed (drv_host d') = [set_devflag false sample_work]
       /\ drv_sent d' = 0%nat.
Proof.
  split; [cbn; lia|]. split; [lia|].
  set (d := open_driver {| wire := []; wr_script := [-1]; rd_script := [] |}).
  destruct (zeus_cmdpkt (drv_info d) sample_work)
    as [pkt|] eqn:Ec; [|by vm_compute in Ec].
  destruct (@io_round_send_failure header_le quiet_round d sample_work pkt (-1) []
              eq_refl ltac:(cbn; lia) eq_refl eq_refl eq_refl ltac:(lia)
              eq_refl Ec)
    as (d' & E & Hi & _ & Hf & _ & _ & _ & _ & Hn & _).
  exists d'. split; [exact E|]. split; [by rewrite Hi|].
  split; [exact Hf | exact Hn].
Defined.

Lemma io_round_reopen_failure_witness :
  device_fd (drv_info (driver_of sample_info)) = -1
  /\ exists d',
       @zeus_io_round header_le
         {| io_open_fd := -1; io_other := fun info => info;
            io_now := io_now quiet_round; io_poll := PollTimeout;
            io_reopen_fd := -1; io_workend := io_workend quiet_round;
            io_evtpkt := [0; 0; 0; 0] |} (driver_of sample_info) = Some d'
       /\ drv_shutdown d' = true
       /\ @zeus_io_round header_le quiet_round d' = Some d'.
Proof.
  split; [reflexivity|].
  destruct (@io_round_reopen_failure header_le
              {| io_open_fd := -1; io_other := fun info => info;
                 io_now := io_now quiet_round; io_poll := PollTimeout;
                 io_reopen_fd := -1; io_workend := io_workend quiet_round;
                 io_evtpkt := [0; 0; 0; 0] |} (driver_of sample_info)
              eq_refl eq_refl ltac:(cbn; lia))
    as (d' & E & Hs & _ & _ & _ & _ & _ & Hstuck).
  exists d'. split; [exact E|]. split; [exact Hs | apply Hstuck].
Defined.
